(** * A shallow embedding of [ocaml/sample_client.py]

    The file is the demonstration client of the 0install slave JSON API:
    length-prefixed JSON frames over the pipes of a subprocess, tickets
    that correlate invocations with replies, and a dispatcher
    ([handle_next_chunk]) that serves invocations of the peer and routes
    replies to stored callbacks.

    Data is kept as the program has it.  A Python [str] is the list of
    its code points and a [bytes] object the list of its bytes, both as
    [list N]; a Python [int] is a [Z]; the [callbacks] dictionary is a
    [gmap] from tickets to callbacks.  The two pipes, the ticket counter
    and the callback table form the [world] that every function of the
    client threads through. *)

From Stdlib Require Import ZArith NArith List String Ascii Bool Lia.
From stdpp Require Import base option list gmap.

Import ListNotations.
Local Open Scope N_scope.
Set Warnings "-register-all".

(** ** Text *)

(** The code points of a literal that is written in ASCII. *)
Definition py (s : string) : list N :=
  List.map N_of_ascii (list_ascii_of_string s).

(** The minus sign and the digit zero. *)
Definition c_minus : N := 45.
Definition c_zero : N := 48.

(** What follows the prefix [p] in [s], when [s] starts with it. *)
Fixpoint after_prefix (p s : list N) : option (list N) :=
  match p, s with
  | [], _ => Some s
  | a :: p', b :: s' => if a =? b then after_prefix p' s' else None
  | _ :: _, [] => None
  end.

(** [s.startswith(p)] *)
Definition startswith (s p : list N) : bool :=
  match after_prefix p s with
  | Some _ => true
  | None => false
  end.

(** ** Numerals

    [digits_le base fuel n] lists the digits of [n], least significant
    first; [fuel] bounds the number of digits and is chosen from the
    binary size of [n]. *)
Fixpoint digits_le (base : N) (fuel : nat) (n : N) : list N :=
  match fuel with
  | O => []
  | S f => (n mod base) :: (if n <? base then [] else digits_le base f (n / base))
  end.

Definition digit_fuel (n : N) : nat := S (N.to_nat (N.log2 n)).

(** The character of a digit value, in lower case as [%x] and [str] print. *)
Definition digit_char (d : N) : N := if d <? 10 then 48 + d else 87 + d.

Definition numeral (base n : N) : list N :=
  rev (List.map digit_char (digits_le base (digit_fuel n) n)).

(** Left padding with the character 0 to a minimum width: the [0w] of a
    format specification. *)
Definition zero_pad (width : nat) (s : list N) : list N :=
  repeat c_zero (width - length s) ++ s.

(** ['%08x' % n] for a length [n]. *)
Definition format_08x (n : N) : list N := zero_pad 8 (numeral 16 n).

(** ['{0:04x}'.format(n)] *)
Definition format_04x (n : N) : list N := zero_pad 4 (numeral 16 n).

(** [str(z)] and [repr(z)] of a Python integer. *)
Definition str_int (z : Z) : list N :=
  if (z <? 0)%Z then c_minus :: numeral 10 (Z.abs_N z) else numeral 10 (Z.abs_N z).

(** The value of a character as a digit of a base up to 16, both cases. *)
Definition hex_value (c : N) : option N :=
  if (48 <=? c) && (c <=? 57) then Some (c - 48)
  else if (97 <=? c) && (c <=? 102) then Some (c - 87)
  else if (65 <=? c) && (c <=? 70) then Some (c - 55)
  else None.

Definition is_digit (c : N) : bool := (48 <=? c) && (c <=? 57).

(** ** JSON values

    What [json.loads] returns and [json.dumps] accepts in this program.
    Numbers are Python integers: a float has no counterpart here, and a
    text that denotes one is answered by [FloatLiteral] below.  A
    mapping keeps its entries in insertion order, as a Python [dict]
    does; its keys are distinct in every value Python can build. *)
Inductive json : Type :=
| JNull
| JBool (b : bool)
| JInt (z : Z)
| JStr (s : list N)
| JList (l : list json)
| JDict (d : list (list N * json)).

(** [d[k] = v] on the entries of a [dict]: a key that is present keeps
    its place. *)
Fixpoint dict_set (k : list N) (v : json) (d : list (list N * json)) : list (list N * json) :=
  match d with
  | [] => [(k, v)]
  | (k', v') :: d' => if decide (k' = k) then (k, v) :: d' else (k', v') :: dict_set k v d'
  end.

(** [dict(pairs)] *)
Definition dict_of_pairs (ps : list (list N * json)) : list (list N * json) :=
  fold_left (fun d kv => dict_set (fst kv) (snd kv) d) ps [].

(** ** [json.dumps]

    The defaults of the call in [send_chunk]: [ensure_ascii] is on and
    the separators are a comma and a colon, each followed by a space. *)

(** The replacement [encode_basestring_ascii] makes for one code point:
    printable ASCII other than the quote and the backslash stays, the
    seven short escapes come next, and the rest is written as one
    [\uXXXX] escape or, above the basic plane, as a surrogate pair. *)
Definition escape_char (c : N) : list N :=
  if (32 <=? c) && (c <=? 126) && negb (c =? 34) && negb (c =? 92) then [c]
  else if c =? 92 then [92; 92]
  else if c =? 34 then [92; 34]
  else if c =? 8 then [92; 98]
  else if c =? 12 then [92; 102]
  else if c =? 10 then [92; 110]
  else if c =? 13 then [92; 114]
  else if c =? 9 then [92; 116]
  else if c <? 65536 then 92 :: 117 :: format_04x c
  else
    let n := c - 65536 in
    let s1 := N.lor 55296 (N.land (N.shiftr n 10) 1023) in
    let s2 := N.lor 56320 (N.land n 1023) in
    (92 :: 117 :: format_04x s1) ++ (92 :: 117 :: format_04x s2).

Definition encode_basestring_ascii (s : list N) : list N :=
  34 :: List.concat (List.map escape_char s) ++ [34].

(** [', '.join(parts)] *)
Fixpoint join_comma (parts : list (list N)) : list N :=
  match parts with
  | [] => []
  | [p] => p
  | p :: rest => p ++ 44 :: 32 :: join_comma rest
  end.

Fixpoint json_dumps (v : json) : list N :=
  match v with
  | JNull => [110; 117; 108; 108]
  | JBool true => [116; 114; 117; 101]
  | JBool false => [102; 97; 108; 115; 101]
  | JInt z => str_int z
  | JStr s => encode_basestring_ascii s
  | JList l => 91 :: join_comma (List.map json_dumps l) ++ [93]
  | JDict d =>
      123 :: join_comma
               (List.map (fun kv => encode_basestring_ascii (fst kv) ++ 58 :: 32 :: json_dumps (snd kv)) d)
          ++ [125]
  end.

(** ** [repr] and [str]

    [repr] of a string needs to know which code points outside ASCII
    are printable; that is a table of the Unicode database and is taken
    as the parameter [isprintable]. *)
Section Repr.

Variable isprintable : N -> bool.

(** [\xhh], [\uhhhh] and [\Uhhhhhhhh] as [repr] writes them. *)
Definition repr_escape (c : N) : list N :=
  if c <? 256 then 92 :: 120 :: zero_pad 2 (numeral 16 c)
  else if c <? 65536 then 92 :: 117 :: zero_pad 4 (numeral 16 c)
  else 92 :: 85 :: zero_pad 8 (numeral 16 c).

Definition repr_char (quote c : N) : list N :=
  if (c =? quote) || (c =? 92) then [92; c]
  else if c =? 9 then [92; 116]
  else if c =? 10 then [92; 110]
  else if c =? 13 then [92; 114]
  else if (c <? 32) || (c =? 127) then repr_escape c
  else if c <? 127 then [c]
  else if isprintable c then [c]
  else repr_escape c.

Definition mem_char (c : N) (s : list N) : bool := existsb (N.eqb c) s.

(** [repr(s)]: single quotes, unless the text has one and no double quote. *)
Definition repr_str (s : list N) : list N :=
  let quote := if mem_char 39 s && negb (mem_char 34 s) then 34 else 39 in
  quote :: List.concat (List.map (repr_char quote) s) ++ [quote].

Fixpoint py_repr (v : json) : list N :=
  match v with
  | JNull => [78; 111; 110; 101]
  | JBool true => [84; 114; 117; 101]
  | JBool false => [70; 97; 108; 115; 101]
  | JInt z => str_int z
  | JStr s => repr_str s
  | JList l => 91 :: join_comma (List.map py_repr l) ++ [93]
  | JDict d =>
      123 :: join_comma (List.map (fun kv => repr_str (fst kv) ++ 58 :: 32 :: py_repr (snd kv)) d)
          ++ [125]
  end.

Definition py_str (v : json) : list N :=
  match v with
  | JStr s => s
  | _ => py_repr v
  end.

End Repr.

(** ** UTF-8 *)

(** [s.encode('utf-8')]; [None] is [UnicodeEncodeError], which a
    surrogate code point raises. *)
Definition utf8_encode_char (c : N) : option (list N) :=
  if c <? 128 then Some [c]
  else if c <? 2048 then Some [N.lor 192 (N.shiftr c 6); N.lor 128 (N.land c 63)]
  else if c <? 65536 then
    if (55296 <=? c) && (c <=? 57343) then None
    else Some [N.lor 224 (N.shiftr c 12); N.lor 128 (N.land (N.shiftr c 6) 63);
               N.lor 128 (N.land c 63)]
  else if c <? 1114112 then
    Some [N.lor 240 (N.shiftr c 18); N.lor 128 (N.land (N.shiftr c 12) 63);
          N.lor 128 (N.land (N.shiftr c 6) 63); N.lor 128 (N.land c 63)]
  else None.

Fixpoint utf8_encode (s : list N) : option (list N) :=
  match s with
  | [] => Some []
  | c :: s' =>
      match utf8_encode_char c, utf8_encode s' with
      | Some b, Some bs => Some (b ++ bs)
      | _, _ => None
      end
  end.

Definition is_cont (b : N) : bool := (128 <=? b) && (b <=? 191).

(** [b.decode('utf-8')], strict; [None] is [UnicodeDecodeError].  A
    sequence is refused when it is cut short, is longer than its code
    point needs, or gives a surrogate or a value past U+10FFFF. *)
Fixpoint utf8_decode (b : list N) : option (list N) :=
  match b with
  | [] => Some []
  | b0 :: r0 =>
      if b0 <? 128 then option_map (cons b0) (utf8_decode r0)
      else if (194 <=? b0) && (b0 <=? 223) then
        match r0 with
        | b1 :: r1 =>
            if is_cont b1
            then option_map (cons (N.lor (N.shiftl (N.land b0 31) 6) (N.land b1 63)))
                            (utf8_decode r1)
            else None
        | _ => None
        end
      else if (224 <=? b0) && (b0 <=? 239) then
        match r0 with
        | b1 :: b2 :: r2 =>
            let c := N.lor (N.shiftl (N.land b0 15) 12)
                           (N.lor (N.shiftl (N.land b1 63) 6) (N.land b2 63)) in
            if is_cont b1 && is_cont b2 && (2048 <=? c)
               && negb ((55296 <=? c) && (c <=? 57343))
            then option_map (cons c) (utf8_decode r2)
            else None
        | _ => None
        end
      else if (240 <=? b0) && (b0 <=? 244) then
        match r0 with
        | b1 :: b2 :: b3 :: r3 =>
            let c := N.lor (N.shiftl (N.land b0 7) 18)
                           (N.lor (N.shiftl (N.land b1 63) 12)
                                  (N.lor (N.shiftl (N.land b2 63) 6) (N.land b3 63))) in
            if is_cont b1 && is_cont b2 && is_cont b3 && (65536 <=? c) && (c <? 1114112)
            then option_map (cons c) (utf8_decode r3)
            else None
        | _ => None
        end
      else None
  end.

(** ** [int(text, 16)]

    The text may be framed by white space, carry a sign and the prefix
    [0x], and separate digits by single underscores.  [None] is
    [ValueError]. *)
Definition is_space (c : N) : bool :=
  (c =? 32) || ((9 <=? c) && (c <=? 13)).

Fixpoint lstrip (s : list N) : list N :=
  match s with
  | c :: s' => if is_space c then lstrip s' else s
  | [] => []
  end.

(** The digits after the first one, with the value read so far. *)
Fixpoint scan_hex (s : list N) (acc : N) : option (N * list N) :=
  match s with
  | [] => Some (acc, [])
  | c :: s' =>
      match hex_value c with
      | Some d => scan_hex s' (16 * acc + d)
      | None =>
          if c =? 95 then
            match s' with
            | c2 :: s'' =>
                match hex_value c2 with
                | Some d => scan_hex s'' (16 * acc + d)
                | None => None
                end
            | [] => None
            end
          else Some (acc, s)
      end
  end.

Definition int16_unsigned (s : list N) : option N :=
  let s1 :=
    match s with
    | z :: x :: s' =>
        if (z =? 48) && ((x =? 120) || (x =? 88))
        then match s' with u :: s'' => if u =? 95 then s'' else s' | [] => s' end
        else s
    | _ => s
    end in
  match s1 with
  | c :: s2 =>
      match hex_value c with
      | Some d =>
          match scan_hex s2 d with
          | Some (n, rest) => match lstrip rest with [] => Some n | _ :: _ => None end
          | None => None
          end
      | None => None
      end
  | [] => None
  end.

Definition int16 (s : list N) : option Z :=
  match lstrip s with
  | c :: s' =>
      if c =? 45 then option_map (fun n => (- Z.of_N n)%Z) (int16_unsigned s')
      else if c =? 43 then option_map Z.of_N (int16_unsigned s')
      else option_map Z.of_N (int16_unsigned (c :: s'))
  | [] => None
  end.

(** ** [json.loads]

    The scanner of the [json] module as a recursive descent over the
    code points.  [Malformed] is [JSONDecodeError].  [FloatLiteral]
    answers a text whose next value is a float (a number with a
    fraction or an exponent, [NaN], [Infinity]): Python goes on with a
    value this development has no counterpart for.  [NoFuel] is the
    answer of a descent that was given too little fuel; [json_loads]
    gives enough for every text ([json_loads_fuelled] below). *)
Inductive parse (A : Type) : Type :=
| Parsed (a : A) (rest : list N)
| Malformed
| FloatLiteral
| NoFuel.

Arguments Parsed {A} a rest.
Arguments Malformed {A}.
Arguments FloatLiteral {A}.
Arguments NoFuel {A}.

Definition parse_map {A B : Type} (f : A -> B) (p : parse A) : parse B :=
  match p with
  | Parsed a rest => Parsed (f a) rest
  | Malformed => Malformed
  | FloatLiteral => FloatLiteral
  | NoFuel => NoFuel
  end.

Definition is_ws (c : N) : bool :=
  (c =? 32) || (c =? 9) || (c =? 10) || (c =? 13).

Fixpoint skip_ws (s : list N) : list N :=
  match s with
  | c :: s' => if is_ws c then skip_ws s' else s
  | [] => []
  end.

(** The four hexadecimal digits of a [\u] escape. *)
Definition hex4 (a b c d : N) : option N :=
  match hex_value a, hex_value b, hex_value c, hex_value d with
  | Some x, Some y, Some z, Some w => Some (4096 * x + 256 * y + 16 * z + w)
  | _, _, _, _ => None
  end.

(** The character a short escape stands for. *)
Definition unescape (e : N) : option N :=
  if e =? 34 then Some 34
  else if e =? 92 then Some 92
  else if e =? 47 then Some 47
  else if e =? 98 then Some 8
  else if e =? 102 then Some 12
  else if e =? 110 then Some 10
  else if e =? 114 then Some 13
  else if e =? 116 then Some 9
  else None.

Definition is_high_surrogate (c : N) : bool := (55296 <=? c) && (c <=? 56319).
Definition is_low_surrogate (c : N) : bool := (56320 <=? c) && (c <=? 57343).

Definition join_surrogates (hi lo : N) : N :=
  65536 + N.lor (N.shiftl (hi - 55296) 10) (lo - 56320).

(** [scanstring], strict, from the character after the opening quote.
    A control character is refused; an escaped high surrogate that is
    followed by an escaped low surrogate is read with it as one code
    point. *)
Fixpoint scanstring (s : list N) : parse (list N) :=
  match s with
  | [] => Malformed
  | c :: s1 =>
      if c =? 34 then Parsed [] s1
      else if c =? 92 then
        match s1 with
        | [] => Malformed
        | e :: s2 =>
            if e =? 117 then
              match s2 with
              | h1 :: h2 :: h3 :: h4 :: s3 =>
                  match hex4 h1 h2 h3 h4 with
                  | None => Malformed
                  | Some uni =>
                      if is_high_surrogate uni then
                        match s3 with
                        | b :: u :: l1 :: l2 :: l3 :: l4 :: s4 =>
                            if (b =? 92) && (u =? 117) then
                              match hex4 l1 l2 l3 l4 with
                              | None => Malformed
                              | Some uni2 =>
                                  if is_low_surrogate uni2
                                  then parse_map (cons (join_surrogates uni uni2)) (scanstring s4)
                                  else parse_map (cons uni) (scanstring s3)
                              end
                            else parse_map (cons uni) (scanstring s3)
                        | _ => parse_map (cons uni) (scanstring s3)
                        end
                      else parse_map (cons uni) (scanstring s3)
                  end
              | _ => Malformed
              end
            else
              match unescape e with
              | Some ch => parse_map (cons ch) (scanstring s2)
              | None => Malformed
              end
        end
      else if c <? 32 then Malformed
      else parse_map (cons c) (scanstring s1)
  end.

(** The digits a number goes on with, and their value after [acc]. *)
Fixpoint scan_digits (s : list N) (acc : N) : N * list N :=
  match s with
  | c :: s' => if is_digit c then scan_digits s' (10 * acc + (c - 48)) else (acc, s)
  | [] => (acc, [])
  end.

(** After the integer part: does a fraction or an exponent follow? *)
Definition float_follows (s : list N) : bool :=
  match s with
  | c :: d :: s' =>
      if c =? 46 then is_digit d
      else if (c =? 101) || (c =? 69) then
        if is_digit d then true
        else if (d =? 43) || (d =? 45) then
          match s' with x :: _ => is_digit x | [] => false end
        else false
      else false
  | _ => false
  end.

(** The integer part [0] or [[1-9][0-9]*] of a number. *)
Definition scan_natural (s : list N) : option (N * list N) :=
  match s with
  | c :: s' =>
      if c =? 48 then Some (0, s')
      else if is_digit c then Some (scan_digits s' (c - 48))
      else None
  | [] => None
  end.

(** A number, or one of the constants that stand for a float. *)
Definition scan_number (s : list N) : parse json :=
  let '(negative, s1) :=
    match s with
    | c :: s' => if c =? 45 then (true, s') else (false, s)
    | [] => (false, s)
    end in
  match scan_natural s1 with
  | Some (n, rest) =>
      if float_follows rest then FloatLiteral
      else Parsed (JInt (if negative then - Z.of_N n else Z.of_N n)%Z) rest
  | None =>
      if startswith s [78; 97; 78]
         || startswith s [73; 110; 102; 105; 110; 105; 116; 121]
         || startswith s [45; 73; 110; 102; 105; 110; 105; 116; 121]
      then FloatLiteral
      else Malformed
  end.

(** A value at the head of [s]; the white space before it is the
    caller's to skip. *)
Fixpoint scan_once (fuel : nat) (s : list N) : parse json :=
  match fuel with
  | O => NoFuel
  | S f =>
      match s with
      | [] => Malformed
      | c :: s' =>
          if c =? 34 then parse_map JStr (scanstring s')
          else if c =? 123 then
            match skip_ws s' with
            | c1 :: s2 =>
                if c1 =? 125 then Parsed (JDict []) s2
                else parse_map (fun ps => JDict (dict_of_pairs ps)) (scan_members f (c1 :: s2))
            | [] => Malformed
            end
          else if c =? 91 then
            match skip_ws s' with
            | c1 :: s2 =>
                if c1 =? 93 then Parsed (JList []) s2
                else parse_map JList (scan_elements f (c1 :: s2))
            | [] => Malformed
            end
          else
            match after_prefix [110; 117; 108; 108] s with
            | Some rest => Parsed JNull rest
            | None =>
                match after_prefix [116; 114; 117; 101] s with
                | Some rest => Parsed (JBool true) rest
                | None =>
                    match after_prefix [102; 97; 108; 115; 101] s with
                    | Some rest => Parsed (JBool false) rest
                    | None => scan_number s
                    end
                end
            end
      end
  end

(** The elements of an array from its first value to the closing
    bracket. *)
with scan_elements (fuel : nat) (s : list N) : parse (list json) :=
  match fuel with
  | O => NoFuel
  | S f =>
      match scan_once f s with
      | Parsed v r =>
          match skip_ws r with
          | c :: r' =>
              if c =? 93 then Parsed [v] r'
              else if c =? 44 then parse_map (cons v) (scan_elements f (skip_ws r'))
              else Malformed
          | [] => Malformed
          end
      | Malformed => Malformed
      | FloatLiteral => FloatLiteral
      | NoFuel => NoFuel
      end
  end

(** The members of an object from its first key to the closing brace,
    in the order of the text. *)
with scan_members (fuel : nat) (s : list N) : parse (list (list N * json)) :=
  match fuel with
  | O => NoFuel
  | S f =>
      match s with
      | q :: s0 =>
          if q =? 34 then
            match scanstring s0 with
            | Parsed k r0 =>
                match skip_ws r0 with
                | colon :: r1 =>
                    if colon =? 58 then
                      match scan_once f (skip_ws r1) with
                      | Parsed v r =>
                          match skip_ws r with
                          | c :: r' =>
                              if c =? 125 then Parsed [(k, v)] r'
                              else if c =? 44
                              then parse_map (cons (k, v)) (scan_members f (skip_ws r'))
                              else Malformed
                          | [] => Malformed
                          end
                      | Malformed => Malformed
                      | FloatLiteral => FloatLiteral
                      | NoFuel => NoFuel
                      end
                    else Malformed
                | [] => Malformed
                end
            | Malformed => Malformed
            | FloatLiteral => FloatLiteral
            | NoFuel => NoFuel
            end
          else Malformed
      | [] => Malformed
      end
  end.

(** [json.loads(s)] for a [str]: white space, one value, white space,
    the end.  A text that starts with the byte order mark is refused. *)
Definition starts_with_bom (s : list N) : bool :=
  match s with
  | c :: _ => c =? 65279
  | [] => false
  end.

Definition json_loads (s : list N) : parse json :=
  if starts_with_bom s then Malformed
  else
    match scan_once (2 * length s + 2) (skip_ws s) with
    | Parsed v rest =>
        match skip_ws rest with
        | [] => Parsed v []
        | _ :: _ => Malformed
        end
    | Malformed => Malformed
    | FloatLiteral => FloatLiteral
    | NoFuel => NoFuel
    end.

(** ** Exceptions

    The exceptions the client can meet, by class.  [Failure] is an
    instance of a subclass of [Exception] that a handler or a callback
    raises, given by the name of its class and the text [str] shows;
    [SystemExit] is what [sys.exit] raises and is no [Exception]. *)
Inductive exn : Type :=
| AssertionError (arg : option json)
| ValueError
| UnicodeDecodeError
| UnicodeEncodeError
| JSONDecodeError
| KeyError (key : json)
| IndexError
| TypeError
| PyException (arg : json)
| Failure (cls : string) (text : list N)
| SystemExit (code : Z).

Definition class_name (e : exn) : string :=
  match e with
  | AssertionError _ => "AssertionError"
  | ValueError => "ValueError"
  | UnicodeDecodeError => "UnicodeDecodeError"
  | UnicodeEncodeError => "UnicodeEncodeError"
  | JSONDecodeError => "JSONDecodeError"
  | KeyError _ => "KeyError"
  | IndexError => "IndexError"
  | TypeError => "TypeError"
  | PyException _ => "Exception"
  | Failure cls _ => cls
  | SystemExit _ => "SystemExit"
  end.

(** [isinstance(e, Exception)]: what [except Exception] catches. *)
Definition is_Exception (e : exn) : bool :=
  match e with
  | SystemExit _ => false
  | _ => true
  end.

(** [str(e)].  The text of an error that the interpreter or a library
    raises on its own depends on the interpreter and is not modelled:
    the answer is [None] there. *)
Definition str_exn (isprintable : N -> bool) (e : exn) : option (list N) :=
  match e with
  | KeyError key => Some (py_repr isprintable key)
  | PyException arg => Some (py_str isprintable arg)
  | AssertionError (Some arg) => Some (py_str isprintable arg)
  | AssertionError None => Some []
  | Failure _ text => Some text
  | _ => None
  end.

(** What iterating over a value gives: the items of a list, the
    characters of a string, the keys of a mapping.  The other values
    are not iterable. *)
Definition iterate (v : json) : option (list json) :=
  match v with
  | JList l => Some l
  | JStr s => Some (List.map (fun c => JStr [c]) s)
  | JDict d => Some (List.map (fun kv => JStr (fst kv)) d)
  | _ => None
  end.

(** ** The world of the client *)
Section World.

(** What [callbacks] stores: the functions passed to [invoke]. *)
Context {callback : Type}.

(** [c_stdout]: the bytes the slave has written and the client has not
    read yet.  [c_stdin]: the bytes the client has written to the slave.
    [terminal]: what the client has printed.  [next_ticket] and
    [callbacks] are the two globals of the program. *)
Record world : Type := World {
  c_stdout : list N;
  c_stdin : list N;
  terminal : list N;
  next_ticket : Z;
  callbacks : gmap (list N) callback;
}.

(** A call returns, raises, or leaves what this development models
    (it met a float, or an error text that is not modelled). *)
Inductive outcome (A : Type) : Type :=
| Ok (a : A) (w : world)
| Raise (e : exn) (w : world)
| Unmodelled.

Arguments Ok {A} a w.
Arguments Raise {A} e w.
Arguments Unmodelled {A}.

Definition M (A : Type) : Type := world -> outcome A.

Definition ret {A : Type} (a : A) : M A := fun w => Ok a w.

Definition raise {A : Type} (e : exn) : M A := fun w => Raise e w.

Definition bind {A B : Type} (m : M A) (k : A -> M B) : M B :=
  fun w =>
    match m w with
    | Ok a w' => k a w'
    | Raise e w' => Raise e w'
    | Unmodelled => Unmodelled
    end.

(** [try: body except Exception as ex: handler] *)
Definition try_except {A : Type} (body : M A) (handler : exn -> M A) : M A :=
  fun w =>
    match body w with
    | Ok a w' => Ok a w'
    | Raise e w' => if is_Exception e then handler e w' else Raise e w'
    | Unmodelled => Unmodelled
    end.

Definition unmodelled {A : Type} : M A := fun _ => Unmodelled.

Definition or_raise {A : Type} (e : exn) (o : option A) : M A :=
  match o with
  | Some a => ret a
  | None => raise e
  end.

(** [assert cond] *)
Definition py_assert (cond : bool) : M unit :=
  if cond then ret tt else raise (AssertionError None).

End World.

Arguments world callback : clear implicits.
Arguments outcome callback A : clear implicits.
Arguments M callback A : clear implicits.
Arguments Ok {callback A} a w.
Arguments Raise {callback A} e w.
Arguments Unmodelled {callback A}.

Declare Scope client_scope.
Delimit Scope client_scope with client.
Notation "x <- m ;; k" := (bind m (fun x => k))
  (at level 100, m at next level, k at level 200, right associativity) : client_scope.
Notation "m ;; k" := (bind m (fun _ => k))
  (at level 100, k at level 200, right associativity) : client_scope.
Local Open Scope client_scope.

(** ** The frame codec and the calls of the client *)
Section Client.

Context {callback : Type}.

Abbreviation world := (world callback).
Abbreviation M := (M callback).

(** *** The pipes *)

(** The line at the head of the stream: up to and with the first
    newline, or all of it when there is none. *)
Fixpoint split_line (s : list N) : list N * list N :=
  match s with
  | [] => ([], [])
  | c :: s' =>
      if c =? 10 then ([c], s')
      else let '(l, r) := split_line s' in (c :: l, r)
  end.

(** [c.stdout.readline()] *)
Definition readline : M (list N) :=
  fun w =>
    let '(line, rest) := split_line (c_stdout w) in
    Ok line (World rest (c_stdin w) (terminal w) (next_ticket w) (callbacks w)).

(** [c.stdout.read(n)]: [n] bytes, or what is left when the stream ends
    before; all that is left for [-1]; [ValueError] below that. *)
Definition read (n : Z) : M (list N) :=
  fun w =>
    if (0 <=? n)%Z then
      Ok (firstn (Z.to_nat n) (c_stdout w))
         (World (skipn (Z.to_nat n) (c_stdout w)) (c_stdin w) (terminal w) (next_ticket w)
                (callbacks w))
    else if (n =? -1)%Z then
      Ok (c_stdout w) (World [] (c_stdin w) (terminal w) (next_ticket w) (callbacks w))
    else Raise ValueError w.

(** [c.stdin.write(b)] with the [flush] that follows it. *)
Definition write (b : list N) : M unit :=
  fun w => Ok tt (World (c_stdout w) (c_stdin w ++ b) (terminal w) (next_ticket w) (callbacks w)).

Definition endswith_newline (l : list N) : bool :=
  match last l with
  | Some c => c =? 10
  | None => false
  end.

(** [l[2:-1]] *)
Definition slice_2_m1 (l : list N) : list N := firstn (length l - 3) (skipn 2 l).

(** What [json.loads] answers, as the outcome of a call. *)
Definition loads (text : list N) : M json :=
  match json_loads text with
  | Parsed v _ => ret v
  | Malformed => raise JSONDecodeError
  | FloatLiteral => unmodelled
  | NoFuel => unmodelled
  end.

Definition get_chunk : M json :=
  len_line <- readline ;;
  py_assert (startswith len_line [48; 120]) ;;
  py_assert (endswith_newline len_line) ;;
  chunk_len <- or_raise ValueError (int16 (slice_2_m1 len_line)) ;;
  raw <- read chunk_len ;;
  text <- or_raise UnicodeDecodeError (utf8_decode raw) ;;
  data <- loads text ;;
  ret data.

(** The frame of [send_chunk] before it is encoded: ['0x%08x\n' % len(data)]
    and [data]. *)
Definition frame_text (data : list N) : list N :=
  48 :: 120 :: format_08x (N.of_nat (length data)) ++ 10 :: data.

Definition send_chunk (value : json) : M unit :=
  let data := json_dumps value in
  b <- or_raise UnicodeEncodeError (utf8_encode (frame_text data)) ;;
  write b.

(** *** Tickets *)

Definition invoke (on_success : callback) (op : json) (args : list json) : M (list N) :=
  fun w =>
    let ticket := str_int (next_ticket w) in
    let w1 := World (c_stdout w) (c_stdin w) (terminal w) (next_ticket w + 1)%Z
                    (<[ticket := on_success]> (callbacks w)) in
    (send_chunk (JList [JStr (py "invoke"); JStr ticket; op; JList args]) ;; ret ticket) w1.

Definition reply_ok (ticket response : json) : M unit :=
  send_chunk (JList [JStr (py "return"); ticket; JStr (py "ok"); response]).

Definition reply_fail (ticket response : json) : M unit :=
  send_chunk (JList [JStr (py "return"); ticket; JStr (py "fail"); response]).

(** *** Python on the values of a message *)

(** [v[i]] *)
Definition getitem (v : json) (i : nat) : M json :=
  match v with
  | JList l => or_raise IndexError (nth_error l i)
  | JStr s => or_raise IndexError (option_map (fun c => JStr [c]) (nth_error s i))
  | JDict _ => raise (KeyError (JInt (Z.of_nat i)))
  | _ => raise TypeError
  end.

(** [v == s] for a string literal [s] *)
Definition eq_str (v : json) (s : list N) : bool :=
  match v with
  | JStr t => bool_decide (t = s)
  | _ => false
  end.

(** [*v]: the items of [v] as positional arguments. *)
Definition star (v : json) : M (list json) := or_raise TypeError (iterate v).

Definition is_str (v : json) : bool :=
  match v with
  | JStr _ => true
  | _ => false
  end.

(** [', '.join(v)], for its errors only: every item must be a [str]. *)
Definition join_args (v : json) : M unit :=
  match v with
  | JList l => if forallb is_str l then ret tt else raise TypeError
  | JStr _ => ret tt
  | JDict _ => ret tt
  | _ => raise TypeError
  end.

Definition hashable (v : json) : bool :=
  match v with
  | JList _ => false
  | JDict _ => false
  | _ => true
  end.

(** [table[key]] on a [dict] whose keys are strings. *)
Definition subscript {A : Type} (table : gmap (list N) A) (key : json) : M A :=
  if hashable key then
    match key with
    | JStr k => or_raise (KeyError key) (table !! k)
    | _ => raise (KeyError key)
    end
  else raise TypeError.

(** [callbacks.pop(ticket)].  An empty [dict] raises [KeyError] before
    it hashes the key. *)
Definition callbacks_pop (ticket : json) : M callback :=
  fun w =>
    if bool_decide (callbacks w = ∅) then Raise (KeyError ticket) w
    else if hashable ticket then
      match ticket with
      | JStr k =>
          match callbacks w !! k with
          | Some cb =>
              Ok cb (World (c_stdout w) (c_stdin w) (terminal w) (next_ticket w)
                           (delete k (callbacks w)))
          | None => Raise (KeyError ticket) w
          end
      | _ => Raise (KeyError ticket) w
      end
    else Raise TypeError w.

(** [print(v)] *)
Definition print (isprintable : N -> bool) (v : json) : M unit :=
  fun w =>
    Ok tt (World (c_stdout w) (c_stdin w) (terminal w ++ py_str isprintable v ++ [10])
                 (next_ticket w) (callbacks w)).

(** *** The dispatcher

    [isprintable] is the table behind [repr]; [call] runs a stored
    callback on its arguments; [table] is the table of handlers, which
    the program binds to [handlers]. *)
Section Dispatch.

Variable isprintable : N -> bool.
Variable call : callback -> list json -> M unit.
Variable table : gmap (list N) (list json -> M json).

Definition handle_next_chunk : M unit :=
  api_request <- get_chunk ;;
  tag <- getitem api_request 0 ;;
  if eq_str tag (py "invoke") then
    ticket <- getitem api_request 1 ;;
    op <- getitem api_request 2 ;;
    args <- getitem api_request 3 ;;
    try_except
      (handler <- subscript table op ;;
       positional <- star args ;;
       response <- handler positional ;;
       reply_ok ticket response)
      (fun ex =>
         join_args args ;;
         match str_exn isprintable ex with
         | Some text => reply_fail ticket (JStr text)
         | None => unmodelled
         end)
  else if eq_str tag (py "return") then
    ticket <- getitem api_request 1 ;;
    cb <- callbacks_pop ticket ;;
    status <- getitem api_request 2 ;;
    if eq_str status (py "ok") then
      payload <- getitem api_request 3 ;;
      positional <- star payload ;;
      call cb positional
    else if eq_str status (py "fail") then
      payload <- getitem api_request 3 ;;
      raise (PyException payload)
    else raise (AssertionError (Some api_request))
  else raise (AssertionError (Some api_request)).

(** The first [n] turns of the loop that ends the program,
    [while True: handle_next_chunk()]: a turn that raises ends it. *)
Fixpoint pump (n : nat) : M unit :=
  match n with
  | O => ret tt
  | S k => handle_next_chunk ;; pump k
  end.

End Dispatch.

(** *** The handlers of the program *)

Definition do_select_api_version (proposed_by_server : json) : M json :=
  ret (JStr (py "2.5")).

(** [lambda *unused: None] *)
Definition update_key_info (unused : list json) : M json := ret JNull.

(** A function of one parameter applied to the items of [*args]. *)
Definition apply1 (f : json -> M json) (positional : list json) : M json :=
  match positional with
  | [a] => f a
  | _ => raise TypeError
  end.

(** [do_confirm_keys] asks the user at the terminal; the client is kept
    parametric in it. *)
Definition handlers (do_confirm_keys : list json -> M json)
  : gmap (list N) (list json -> M json) :=
  <[py "select-api-version" := apply1 do_select_api_version]>
    (<[py "confirm-keys" := do_confirm_keys]>
       (<[py "update-key-info" := update_key_info]> ∅)).

End Client.

(** *** The callback of the program *)

Inductive client_callback : Type := show_selections.

(** [show_selections(status, result)] prints both and leaves. *)
Definition call_client_callback (isprintable : N -> bool) (cb : client_callback)
    (positional : list json) : M client_callback unit :=
  match cb, positional with
  | show_selections, [status; result] =>
      print isprintable status ;; print isprintable result ;; raise (SystemExit 0)
  | show_selections, _ => raise TypeError
  end.

(** The program from its first call of [handle_next_chunk] on, with
    [n] turns of the final loop. *)
Definition client (isprintable : N -> bool)
    (do_confirm_keys : list json -> M client_callback json) (iface : list N) (n : nat)
  : M client_callback unit :=
  let step := handle_next_chunk isprintable (call_client_callback isprintable)
                                (handlers do_confirm_keys) in
  step ;;
  invoke show_selections (JStr (py "select"))
         [JDict [(py "interface", JStr iface)]; JBool false] ;;
  pump isprintable (call_client_callback isprintable) (handlers do_confirm_keys) n.

(** *** [do_confirm_keys]

    The handler of [confirm-keys] prints the feed and its keys and asks
    the user.  [keyboard] is what [sys.stdin] will give: the lines the
    user types, each as [input] returns it, and the end of the input
    after the last.  A call that reads from it returns what is left of
    it with its result.  [toupper] is the table behind [str.upper], the
    full upper case of one code point in the Unicode database. *)
Section ConfirmKeys.

Context {callback : Type}.
Variable isprintable : N -> bool.
Variable toupper : N -> list N.

(** [' '.join(parts)] *)
Fixpoint join_space (parts : list (list N)) : list N :=
  match parts with
  | [] => []
  | [p] => p
  | p :: rest => p ++ 32 :: join_space rest
  end.

(** [print] of several values: [str] of each, a space between two, a
    newline at the end. *)
Definition print_args (vs : list json) : M callback unit :=
  fun w =>
    Ok tt (World (c_stdout w) (c_stdin w)
                 (terminal w ++ join_space (List.map (py_str isprintable) vs) ++ [10])
                 (next_ticket w) (callbacks w)).

(** [type(v).__name__] *)
Definition type_name (v : json) : string :=
  match v with
  | JNull => "NoneType"
  | JBool _ => "bool"
  | JInt _ => "int"
  | JStr _ => "str"
  | JList _ => "list"
  | JDict _ => "dict"
  end.

(** The [AttributeError] of [v.attr] where [v] has no such attribute. *)
Definition no_attribute (v : json) (attr : string) : exn :=
  Failure "AttributeError"
          (py "'" ++ py (type_name v) ++ py "' object has no attribute '" ++ py attr ++ py "'").

(** [keys.items()] *)
Definition items (keys : json) : M callback (list (list N * json)) :=
  match keys with
  | JDict d => ret d
  | _ => raise (no_attribute keys "items")
  end.

(** [vote, msg = item] *)
Definition unpack2 (item : json) : M callback (json * json) :=
  match iterate item with
  | Some [vote; msg] => ret (vote, msg)
  | Some _ => raise ValueError
  | None => raise TypeError
  end.

(** [vote.upper()] *)
Definition str_upper (vote : json) : M callback json :=
  match vote with
  | JStr s => ret (JStr (List.concat (List.map toupper s)))
  | _ => raise (no_attribute vote "upper")
  end.

(** [for x in l: f(x)] *)
Fixpoint for_each {A : Type} (f : A -> M callback unit) (l : list A) : M callback unit :=
  match l with
  | [] => ret tt
  | x :: rest => f x ;; for_each f rest
  end.

Definition print_hint (hint : json) : M callback unit :=
  pair <- unpack2 hint ;;
  shout <- str_upper (fst pair) ;;
  print_args [JStr (py "   "); shout; snd pair].

Definition print_key (entry : list N * json) : M callback unit :=
  print_args [JStr (py "- " ++ fst entry)] ;;
  hints <- star (snd entry) ;;
  for_each print_hint hints.

(** [sub in s] on two strings: [sub] stands somewhere in [s]. *)
Fixpoint contains (s sub : list N) : bool :=
  startswith s sub
  || match s with
     | [] => false
     | _ :: s' => contains s' sub
     end.

(** The prompt of [input]: written as it is, with no newline. *)
Definition show_prompt (prompt : list N) : M callback unit :=
  fun w =>
    Ok tt (World (c_stdout w) (c_stdin w) (terminal w ++ prompt) (next_ticket w) (callbacks w)).

(** What [input] raises at the end of the input. *)
Definition end_of_input : exn := Failure "EOFError" (py "EOF when reading a line").

(** The loop that ends [do_confirm_keys],
    [while True: r = input(...); if r in 'Yy': ...; if r in 'Nn': ...],
    where [trusted] is [list(keys)].  Every turn of it writes the prompt
    and takes a line; at the end of the input [input] raises. *)
Fixpoint ask (trusted : json) (keyboard : list (list N))
  : M callback (json * list (list N)) :=
  match keyboard with
  | [] => show_prompt (py "Trust these keys? [YN]") ;; raise end_of_input
  | r :: rest =>
      show_prompt (py "Trust these keys? [YN]") ;;
      if contains (py "Yy") r then ret (trusted, rest)
      else if contains (py "Nn") r then ret (JList [], rest)
      else ask trusted rest
  end.

Definition do_confirm_keys (feed keys : json) (keyboard : list (list N))
  : M callback (json * list (list N)) :=
  print_args [JStr (py "Feed:"); feed] ;;
  print_args [JStr (py "The feed is correctly signed with the following keys:")] ;;
  entries <- items keys ;;
  for_each print_key entries ;;
  ask (JList (List.map (fun kv => JStr (fst kv)) entries)) keyboard.

(** [do_confirm_keys] on the positional arguments of a call, as
    [handlers] holds it, in a turn that starts with [keyboard] to read. *)
Definition confirm_keys (keyboard : list (list N)) (positional : list json) : M callback json :=
  match positional with
  | [feed; keys] => answer <- do_confirm_keys feed keys keyboard ;; ret (fst answer)
  | _ => raise TypeError
  end.

End ConfirmKeys.

(** *** The program

    [argv] is [sys.argv].  With one argument the program starts the
    slave and runs [client]; otherwise it prints how it is called and
    leaves with the code 1. *)
Definition main (isprintable : N -> bool)
    (do_confirm_keys : list json -> M client_callback json) (argv : list (list N)) (n : nat)
  : M client_callback unit :=
  match argv with
  | [_; iface] => client isprintable do_confirm_keys iface n
  | prog :: _ =>
      print isprintable (JStr (py "Usage: " ++ prog ++ py " IFACE")) ;; raise (SystemExit 1)
  | [] => raise IndexError
  end.

(** * The vocabulary of the statements

    Definitions that the program does not have and the theorems are
    stated with: what a text may look like, which values Python can
    build, what a call leaves behind, and the scenarios the theorems
    are tried on. *)

(** ** Numerals and text *)

(** The value of digits given least significant first. *)
Definition value_le (base : N) (ds : list N) : N :=
  fold_right (fun d acc => d + base * acc) 0 ds.

(** A hexadecimal digit, in either case. *)
Definition is_hex (c : N) : bool :=
  match hex_value c with
  | Some _ => true
  | None => false
  end.

(** A hexadecimal digit as [%x] writes it. *)
Definition lower_hex (c : N) : bool := is_digit c || ((97 <=? c) && (c <=? 102)).

(** The number a run of hexadecimal digits denotes. *)
Definition hex_number (ds : list N) : N :=
  fold_left (fun a c => 16 * a + default 0 (hex_value c)) ds 0.

Definition ascii_only (s : list N) : Prop := Forall (fun c => c < 128) s.

(** A text written with apostrophes where it has double quotes. *)
Definition dq (s : string) : list N :=
  List.map (fun c => if c =? 39 then 34 else c) (py s).

(** What may follow a value in a text that [json.dumps] wrote: the end,
    a comma, or a closing bracket or brace. *)
Definition follows (rest : list N) : Prop :=
  match rest with
  | [] => True
  | c :: _ => c = 44 \/ c = 93 \/ c = 125
  end.

(** A text that starts with a character of a value: no white space and
    no closing bracket or brace. *)
Definition head_ok (s : list N) : Prop :=
  match s with
  | c :: _ => is_ws c = false /\ c <> 93 /\ c <> 125
  | [] => False
  end.

(** ** Strings *)

(** The code points of a Python [str] end at U+10FFFF. *)
Definition code_points (s : list N) : Prop := Forall (fun c => c < 1114112) s.

Definition text_ok (s : list N) : bool := forallb (fun c => c <? 1114112) s.

(** No high surrogate of [s] is followed by a low one.  Where one is,
    the text [json.dumps] writes for [s] denotes another string: the two
    escapes are read as one code point above the basic plane. *)
Fixpoint unpaired (s : list N) : bool :=
  match s with
  | c :: s' =>
      match s' with
      | d :: _ => negb (is_high_surrogate c && is_low_surrogate d) && unpaired s'
      | [] => true
      end
  | [] => true
  end.

(** The text of a string between its quotes. *)
Definition escaped (s : list N) : list N := List.concat (List.map escape_char s).

(** The four shapes of [escape_char c]. *)
Inductive escape_shape (c : N) : list N -> Prop :=
| shape_plain :
    32 <= c -> c <> 34 -> c <> 92 -> escape_shape c [c]
| shape_short e :
    e <> 117 -> unescape e = Some c -> escape_shape c [92; e]
| shape_u h1 h2 h3 h4 :
    c < 65536 -> hex4 h1 h2 h3 h4 = Some c -> escape_shape c [92; 117; h1; h2; h3; h4]
| shape_pair h1 h2 h3 h4 l1 l2 l3 l4 hi lo :
    hex4 h1 h2 h3 h4 = Some hi -> hex4 l1 l2 l3 l4 = Some lo ->
    is_high_surrogate hi = true -> is_low_surrogate lo = true ->
    join_surrogates hi lo = c ->
    escape_shape c [92; 117; h1; h2; h3; h4; 92; 117; l1; l2; l3; l4].

(** No escaped low surrogate stands at the head of [X]. *)
Definition no_low_ahead (X : list N) : Prop :=
  match X with
  | b :: u :: l1 :: l2 :: l3 :: l4 :: _ =>
      (b =? 92) && (u =? 117) = false
      \/ exists uni2, hex4 l1 l2 l3 l4 = Some uni2 /\ is_low_surrogate uni2 = false
  | _ => True
  end.

(** ** Values *)

(** The values Python can build: code points end at U+10FFFF and the
    keys of a mapping are distinct. *)
Fixpoint is_value (v : json) : bool :=
  match v with
  | JStr s => text_ok s
  | JList l => forallb is_value l
  | JDict d =>
      forallb (fun kv => text_ok (fst kv) && is_value (snd kv)) d
      && bool_decide (NoDup (List.map fst d))
  | _ => true
  end.

(** No string of the value, key or not, has a high surrogate followed
    by a low one. *)
Fixpoint unpaired_strings (v : json) : bool :=
  match v with
  | JStr s => unpaired s
  | JList l => forallb unpaired_strings l
  | JDict d => forallb (fun kv => unpaired (fst kv) && unpaired_strings (snd kv)) d
  | _ => true
  end.

(** The fuel the descent into [json_dumps v] takes. *)
Fixpoint json_size (v : json) : nat :=
  match v with
  | JList l => S (list_sum (List.map (fun x => S (json_size x)) l))
  | JDict d => S (list_sum (List.map (fun kv => S (json_size (snd kv))) d))
  | _ => 1
  end.

(** [scan_once] gives [v] back from the text of [v], whatever follows
    it in a text of [json_dumps]. *)
Definition reads_back (v : json) : Prop :=
  forall fuel rest,
    follows rest -> (json_size v <= fuel)%nat ->
    scan_once fuel (json_dumps v ++ rest) = Parsed v rest.

(** The text of one member of a mapping. *)
Definition member_text (kv : list N * json) : list N :=
  encode_basestring_ascii (fst kv) ++ 58 :: 32 :: json_dumps (snd kv).

(** A scan that had fuel and, when it read a value, left less than it
    was given. *)
Definition consumes {A : Type} (p : parse A) (s : list N) : Prop :=
  match p with
  | Parsed _ r => (length r < length s)%nat
  | NoFuel => False
  | _ => True
  end.

(** A scan that left less than it was given, fuel or not. *)
Definition shortens {A : Type} (p : parse A) (s : list N) : Prop :=
  match p with
  | Parsed _ r => (length r < length s)%nat
  | _ => True
  end.

(** ** Frames and worlds *)

(** The bytes [send_chunk value] writes. *)
Definition frame (value : json) : list N := frame_text (json_dumps value).

(** What the payload of a frame decodes to:
    [json.loads(raw.decode('utf-8'))]. *)
Definition decode_payload {callback : Type} (raw : list N) : M callback json :=
  text <- or_raise UnicodeDecodeError (utf8_decode raw) ;; loads text.

(** The world after the client has read up to [rest]. *)
Definition with_stdout {callback : Type} (rest : list N) (w : world callback) : world callback :=
  World rest (c_stdin w) (terminal w) (next_ticket w) (callbacks w).

(** The world after the client has written [b]. *)
Definition with_written {callback : Type} (b : list N) (w : world callback) : world callback :=
  World (c_stdout w) (c_stdin w ++ b) (terminal w) (next_ticket w) (callbacks w).

(** The world after [callbacks.pop(k)]. *)
Definition without_ticket {callback : Type} (k : list N) (w : world callback) : world callback :=
  World (c_stdout w) (c_stdin w) (terminal w) (next_ticket w) (delete k (callbacks w)).

(** The world after [invoke] has taken a ticket and stored the callback. *)
Definition registered {callback : Type} (on_success : callback) (w : world callback)
  : world callback :=
  World (c_stdout w) (c_stdin w) (terminal w) (next_ticket w + 1)%Z
        (<[str_int (next_ticket w) := on_success]> (callbacks w)).

(** The two messages of the protocol. *)
Definition invocation (ticket : list N) (op : json) (args : list json) : json :=
  JList [JStr (py "invoke"); JStr ticket; op; JList args].

Definition reply (ticket : json) (status : string) (payload : json) : json :=
  JList [JStr (py "return"); ticket; JStr (py status); payload].

(** ** Tickets *)

(** Calls of [invoke] one after the other, with the tickets they return. *)
Fixpoint invoke_all {callback : Type} (calls : list (callback * json * list json))
  : M callback (list (list N)) :=
  match calls with
  | [] => ret []
  | (on_success, op, args) :: rest =>
      ticket <- invoke on_success op args ;;
      tickets <- invoke_all rest ;;
      ret (ticket :: tickets)
  end.

(** The tickets of [count] calls of [invoke] from the counter [n] on. *)
Definition tickets_from (n : Z) (count : nat) : list (list N) :=
  List.map (fun i => str_int (n + Z.of_nat i)) (seq 0 count).

(** Every pending ticket is the text of a number below the counter:
    true of the program's first world and kept by [invoke] and by
    [callbacks.pop]. *)
Definition pending_below {callback : Type} (w : world callback) : Prop :=
  forall k, is_Some (callbacks w !! k) ->
            exists i, (i < next_ticket w)%Z /\ k = str_int i.

(** ** Scenarios *)

(** A table for [repr] that calls every code point printable; the
    scenarios hold ASCII only, where the table is not consulted. *)
Definition all_printable (c : N) : bool := true.

(** A user who trusts no key. *)
Definition trust_none (positional : list json) : M client_callback json := ret (JList []).

(** A handler that returns its first argument. *)
Definition echo {callback : Type} (positional : list json) : M callback json :=
  match positional with
  | a :: _ => ret a
  | [] => raise TypeError
  end.

(** A handler that ends in [raise Exception("x")]. *)
Definition boom {callback : Type} (positional : list json) : M callback json :=
  raise (PyException (JStr (py "x"))).

(** The handlers of the program with [echo] and [boom] beside them. *)
Definition scenario_handlers : gmap (list N) (list json -> M client_callback json) :=
  <[py "echo" := echo]> (<[py "boom" := boom]> (handlers trust_none)).

(** One turn of the dispatcher in the scenarios. *)
Definition turn : M client_callback unit :=
  handle_next_chunk all_printable (call_client_callback all_printable) scenario_handlers.

(** The world the program starts in, with the bytes [inp] to read. *)
Definition first_world (inp : list N) : world client_callback := World inp [] [] 1 ∅.

(** The world after the program's call of [invoke], with the bytes
    [inp] to read. *)
Definition waiting (inp : list N) : world client_callback :=
  World inp [] [] 2 {[py "1" := show_selections]}.

(** A string of 4294967294 letters: its JSON text has 2^32 characters. *)
Definition long_text : json := JStr (repeat 97 (N.to_nat 4294967294)).

(** The messages of the scenarios. *)
Definition select_call : json :=
  invocation (py "1") (JStr (py "select"))
             [JDict [(py "interface", JStr (py "http://example.com/prog.xml"))]; JBool false].

Definition echo_call : json :=
  invocation (py "5") (JStr (py "echo")) [JStr (py "hi")].

Definition frob_call : json :=
  invocation (py "5") (JStr (py "frob")) [JStr (py "hi")].

Definition selections_reply : json :=
  reply (JStr (py "1")) "ok" (JList [JStr (py "ok"); JStr (py "sels")]).

(** ** Streams of frames *)

(** Calls of [send_chunk] one after the other. *)
Fixpoint send_chunks {callback : Type} (values : list json) : M callback unit :=
  match values with
  | [] => ret tt
  | v :: rest => send_chunk v ;; send_chunks rest
  end.

(** [n] calls of [get_chunk] one after the other, with what they return. *)
Fixpoint get_chunks {callback : Type} (n : nat) : M callback (list json) :=
  match n with
  | O => ret []
  | S k => v <- get_chunk ;; vs <- get_chunks k ;; ret (v :: vs)
  end.

(** The bytes [b] are a frame that [get_chunk] reads as [v]: a header
    of hexadecimal digits that gives the number of the bytes after it,
    and a payload that is the UTF-8 encoding of a JSON text of [v]. *)
Definition carries (b : list N) (v : json) : Prop :=
  exists ds text raw tail,
    b = 48 :: 120 :: ds ++ 10 :: raw
    /\ ds <> [] /\ forallb is_hex ds = true
    /\ N.of_nat (length raw) = hex_number ds
    /\ utf8_encode text = Some raw
    /\ json_loads text = Parsed v tail.

(** ** Messages *)

(** A message that is neither an invocation nor a reply: anything but a
    list that starts with [invoke] or [return]. *)
Definition stray (msg : json) : bool :=
  match msg with
  | JList (tag :: _) => negb (eq_str tag (py "invoke")) && negb (eq_str tag (py "return"))
  | _ => true
  end.

(** What a stray message raises in [handle_next_chunk]: the error of
    [api_request[0]] where there is no such item, the [assert 0] of the
    last branch where there is one. *)
Definition stray_error (msg : json) : exn :=
  match msg with
  | JList [] => IndexError
  | JStr [] => IndexError
  | JList _ => AssertionError (Some msg)
  | JStr _ => AssertionError (Some msg)
  | JDict _ => KeyError (JInt 0)
  | _ => TypeError
  end.

(** ** What a call leaves alone *)

(** A call that prints at most: the pipes, the counter and the pending
    callbacks are as they were, whether it returns or raises. *)
Definition prints_only {callback A : Type} (m : M callback A) : Prop :=
  forall w,
    match m w with
    | Ok _ w' | Raise _ w' =>
        c_stdout w' = c_stdout w /\ c_stdin w' = c_stdin w
        /\ next_ticket w' = next_ticket w /\ callbacks w' = callbacks w
    | Unmodelled => True
    end.

(** The world after the client has printed [text]. *)
Definition with_printed {callback : Type} (text : list N) (w : world callback) : world callback :=
  World (c_stdout w) (c_stdin w) (terminal w ++ text) (next_ticket w) (callbacks w).

(** ** The user at the terminal *)

(** The answers [do_confirm_keys] takes: a line that stands in [Yy],
    and one that does not and stands in [Nn]. *)
Definition says_yes (r : list N) : bool := contains (py "Yy") r.

Definition says_no (r : list N) : bool := negb (contains (py "Yy") r) && contains (py "Nn") r.

(** The prompt of [do_confirm_keys], as many times as it is shown. *)
Fixpoint prompts (n : nat) : list N :=
  match n with
  | O => []
  | S k => py "Trust these keys? [YN]" ++ prompts k
  end.

(** What [do_confirm_keys] prints for one hint and for one key. *)
Definition hint_text (isprintable : N -> bool) (toupper : N -> list N)
    (hint : list N * json) : list N :=
  py "    " ++ List.concat (List.map toupper (fst hint)) ++ 32 :: py_str isprintable (snd hint) ++ [10].

Definition key_text (isprintable : N -> bool) (toupper : N -> list N)
    (entry : list N * list (list N * json)) : list N :=
  py "- " ++ fst entry ++ 10 :: List.concat (List.map (hint_text isprintable toupper) (snd entry)).

(** The argument [keys] of [confirm-keys] as the slave sends it: every
    key with the list of its hints, each hint the list of a vote and a
    message. *)
Definition keys_value (entries : list (list N * list (list N * json))) : json :=
  JDict (List.map (fun e => (fst e, JList (List.map (fun h => JList [JStr (fst h); snd h]) (snd e))))
                  entries).

(** Upper case for the letters of ASCII, for the scenarios. *)
Definition ascii_upper (c : N) : list N :=
  if (97 <=? c) && (c <=? 122) then [c - 32] else [c].

(** What a reply for a pending ticket raises when it is cut short after
    the ticket or after the status, or when its status is neither [ok]
    nor [fail]; [None] for a reply that has its status and a payload. *)
Definition reply_error (msg : json) (after_ticket : list json) : option exn :=
  match after_ticket with
  | [] => Some IndexError
  | status :: rest =>
      if eq_str status (py "ok") || eq_str status (py "fail") then
        match rest with
        | [] => Some IndexError
        | _ :: _ => None
        end
      else Some (AssertionError (Some msg))
  end.

(** What [callbacks.pop] raises for a ticket that is no string. *)
Definition pop_error {callback : Type} (ticket : json) (w : world callback) : exn :=
  if bool_decide (callbacks w = ∅) || hashable ticket then KeyError ticket else TypeError.

(** ** What a turn has done *)

(** From [w] to [w']: one reply was written, and the pending callbacks
    are as they were. *)
Definition answered {callback : Type} (w w' : world callback) : Prop :=
  exists ticket status payload,
    (status = "ok" \/ status = "fail")%string
    /\ c_stdin w' = c_stdin w ++ frame (reply ticket status payload)
    /\ callbacks w' = callbacks w.

(** From [w] to [w']: nothing was written, and at most one ticket was
    taken out of the pending callbacks. *)
Definition silent {callback : Type} (w w' : world callback) : Prop :=
  c_stdin w' = c_stdin w
  /\ (callbacks w' = callbacks w \/ exists k, callbacks w' = delete k (callbacks w)).

(** What a turn that started in [w] may have done: when it returns, it
    has answered or it has been silent; when it raises, it has been
    silent.  The counter is where it was. *)
Definition turn_done {callback : Type} (w : world callback) (o : outcome callback unit) : Prop :=
  match o with
  | Ok _ w' => next_ticket w' = next_ticket w /\ (answered w w' \/ silent w w')
  | Raise _ w' => next_ticket w' = next_ticket w /\ silent w w'
  | Unmodelled => True
  end.

(** A line that is no answer: [do_confirm_keys] asks again. *)
Definition no_answer (r : list N) : bool := negb (says_yes r) && negb (says_no r).

(** What [do_confirm_keys] prints before it asks. *)
Definition keys_text (isprintable : N -> bool) (toupper : N -> list N) (feed : json)
    (entries : list (list N * list (list N * json))) : list N :=
  py "Feed: " ++ py_str isprintable feed
  ++ 10 :: py "The feed is correctly signed with the following keys:"
  ++ 10 :: List.concat (List.map (key_text isprintable toupper) entries).

(** [list(keys)] for the keys the user trusts: all of them after a
    yes, none after a no. *)
Definition trusted_keys (entries : list (list N * list (list N * json))) (answer : list N) : json :=
  if says_yes answer then JList (List.map (fun e => JStr (fst e)) entries) else JList [].

Definition is_dict (v : json) : bool :=
  match v with
  | JDict _ => true
  | _ => false
  end.

(** The invocation of [confirm-keys] for a feed and its keys. *)
Definition confirm_call (ticket feed : json) (entries : list (list N * list (list N * json)))
  : json :=
  JList [JStr (py "invoke"); ticket; JStr (py "confirm-keys"); JList [feed; keys_value entries]].

(** * Numerals *)

Lemma digits_le_value base fuel n :
  2 <= base -> n < 2 ^ N.of_nat fuel -> value_le base (digits_le base fuel n) = n.
Proof.
  intros Hb. revert n. induction fuel as [|f IH]; intros n Hn.
  - simpl in Hn. assert (n = 0) by lia. subst. reflexivity.
  - cbn [digits_le value_le fold_right]. destruct (N.ltb_spec n base) as [Hlt|Hge].
    + cbn. rewrite N.mod_small by lia. lia.
    + fold (value_le base (digits_le base f (n / base))). rewrite IH.
      * pose proof (N.div_mod n base ltac:(lia)). lia.
      * rewrite Nat2N.inj_succ, N.pow_succ_r' in Hn.
        apply N.Div0.div_lt_upper_bound. nia.
Qed.

Lemma digit_fuel_enough n : n < 2 ^ N.of_nat (digit_fuel n).
Proof.
  unfold digit_fuel. rewrite Nat2N.inj_succ, N2Nat.id.
  destruct (N.eq_dec n 0) as [->|Hn]; [reflexivity|].
  apply N.log2_spec. lia.
Qed.

Lemma digits_le_bound base fuel n :
  0 < base -> Forall (fun d => d < base) (digits_le base fuel n).
Proof.
  intros Hb. revert n. induction fuel as [|f IH]; intros n; cbn [digits_le].
  - constructor.
  - constructor; [apply N.mod_lt; lia|]. destruct (n <? base); [constructor|apply IH].
Qed.

Lemma digits_le_length_le base fuel n k :
  2 <= base -> n < base ^ N.of_nat (S k) -> (length (digits_le base fuel n) <= S k)%nat.
Proof.
  intros Hb. revert n k. induction fuel as [|f IH]; intros n k Hn; cbn [digits_le length].
  - lia.
  - destruct (N.ltb_spec n base) as [Hlt|Hge]; [cbn; lia|].
    destruct k as [|k].
    + cbn in Hn. rewrite N.pow_1_r in Hn. lia.
    + apply le_n_S, IH. rewrite Nat2N.inj_succ, N.pow_succ_r' in Hn.
      apply N.Div0.div_lt_upper_bound. lia.
Qed.

Lemma digits_le_length_gt base fuel n k :
  2 <= base -> n < 2 ^ N.of_nat fuel -> base ^ N.of_nat k <= n ->
  (k < length (digits_le base fuel n))%nat.
Proof.
  intros Hb. revert n k. induction fuel as [|f IH]; intros n k Hn Hk.
  - cbn in Hn. assert (0 < base ^ N.of_nat k) by (apply N.neq_0_lt_0, N.pow_nonzero; lia). lia.
  - cbn [digits_le length]. destruct k as [|k]; [lia|].
    apply -> Nat.succ_lt_mono.
    rewrite Nat2N.inj_succ, N.pow_succ_r' in Hk.
    assert (0 < base ^ N.of_nat k) by (apply N.neq_0_lt_0, N.pow_nonzero; lia).
    destruct (N.ltb_spec n base) as [Hlt|Hge]; [nia|].
    apply IH.
    + rewrite Nat2N.inj_succ, N.pow_succ_r' in Hn. apply N.Div0.div_lt_upper_bound. nia.
    + apply N.div_le_lower_bound; lia.
Qed.

(** The most significant digit of a positive number is not zero. *)
Lemma digits_le_last base fuel n :
  2 <= base -> 0 < n -> n < 2 ^ N.of_nat fuel ->
  exists d, last (digits_le base fuel n) = Some d /\ 0 < d.
Proof.
  intros Hb. revert n. induction fuel as [|f IH]; intros n Hpos Hn.
  - cbn in Hn. lia.
  - cbn [digits_le]. destruct (N.ltb_spec n base) as [Hlt|Hge].
    + exists (n mod base). cbn. rewrite N.mod_small by lia. auto.
    + destruct (IH (n / base)) as (d & Hd & Hd0).
      * apply N.div_str_pos. lia.
      * rewrite Nat2N.inj_succ, N.pow_succ_r' in Hn. apply N.Div0.div_lt_upper_bound. nia.
      * exists d. split; [|exact Hd0].
        destruct (digits_le base f (n / base)) eqn:E; [discriminate|]. 
        rewrite last_cons. rewrite Hd. reflexivity.
Qed.

Lemma hex_value_digit_char d : d < 16 -> hex_value (digit_char d) = Some d.
Proof.
  intros Hd. unfold hex_value, digit_char.
  destruct (N.ltb_spec d 10).
  - replace ((48 <=? 48 + d) && (48 + d <=? 57)) with true
      by (symmetry; apply andb_true_intro; split; apply N.leb_le; lia).
    f_equal. lia.
  - replace ((48 <=? 87 + d) && (87 + d <=? 57)) with false
      by (symmetry; apply andb_false_intro2, N.leb_gt; lia).
    replace ((97 <=? 87 + d) && (87 + d <=? 102)) with true
      by (symmetry; apply andb_true_intro; split; apply N.leb_le; lia).
    f_equal. lia.
Qed.

Lemma is_digit_digit_char d : d < 10 -> is_digit (digit_char d) = true /\ digit_char d - 48 = d.
Proof.
  intros Hd. unfold is_digit, digit_char.
  destruct (N.ltb_spec d 10); [|lia].
  split; [apply andb_true_intro; split; apply N.leb_le; lia|lia].
Qed.

Lemma digit_char_ascii d : d < 16 -> 48 <= digit_char d < 103.
Proof. unfold digit_char. destruct (N.ltb_spec d 10); lia. Qed.

Lemma numeral_unfold base n :
  numeral base n = List.map digit_char (rev (digits_le base (digit_fuel n) n)).
Proof. unfold numeral. symmetry. apply map_rev. Qed.

(** Most significant first, the digits of [n] give [n] back. *)
Lemma value_be_digits base n :
  2 <= base ->
  fold_left (fun a d => base * a + d) (rev (digits_le base (digit_fuel n) n)) 0 = n.
Proof.
  intros Hb.
  transitivity (value_le base (digits_le base (digit_fuel n) n)).
  - generalize (digits_le base (digit_fuel n) n). intros l.
    induction l as [|d l IH]; [reflexivity|].
    cbn [rev value_le fold_right]. rewrite fold_left_app. cbn [fold_left].
    rewrite IH. unfold value_le. lia.
  - apply digits_le_value; [exact Hb|apply digit_fuel_enough].
Qed.

Lemma hex_fold_digit_chars be acc :
  Forall (fun d => d < 16) be ->
  fold_left (fun a c => 16 * a + default 0 (hex_value c)) (List.map digit_char be) acc
  = fold_left (fun a d => 16 * a + d) be acc.
Proof.
  intros H. revert acc. induction H as [|d be Hd _ IH]; intros acc; [reflexivity|].
  cbn [List.map fold_left]. rewrite hex_value_digit_char by exact Hd. apply IH.
Qed.

Lemma fold_left_zeros (f : N -> N -> N) k acc :
  f acc 48 = acc -> fold_left f (repeat 48 k) acc = acc.
Proof. intros H. induction k; cbn; [reflexivity|]. rewrite H. exact IHk. Qed.

Lemma hex_number_zero_pad w ds : hex_number (zero_pad w ds) = hex_number ds.
Proof.
  unfold hex_number, zero_pad. rewrite fold_left_app.
  rewrite (fold_left_zeros _ _ 0) by reflexivity. reflexivity.
Qed.

Lemma Forall_rev_digits base n :
  0 < base -> Forall (fun d => d < base) (rev (digits_le base (digit_fuel n) n)).
Proof. intros. apply Forall_rev, digits_le_bound. assumption. Qed.

Lemma hex_number_numeral n : hex_number (numeral 16 n) = n.
Proof.
  unfold hex_number. rewrite numeral_unfold, hex_fold_digit_chars.
  - apply value_be_digits. lia.
  - apply Forall_rev_digits. lia.
Qed.

Lemma hex_number_format_08x n : hex_number (format_08x n) = n.
Proof. unfold format_08x. rewrite hex_number_zero_pad. apply hex_number_numeral. Qed.

Lemma is_hex_numeral n : forallb is_hex (numeral 16 n) = true.
Proof.
  rewrite numeral_unfold. apply forallb_forall. intros c Hc.
  apply in_map_iff in Hc as (d & <- & Hd).
  pose proof (Forall_rev_digits 16 n ltac:(lia)) as HF.
  rewrite List.Forall_forall in HF. unfold is_hex.
  rewrite hex_value_digit_char; [reflexivity|]. apply HF. exact Hd.
Qed.

Lemma is_hex_zero_pad w ds : forallb is_hex ds = true -> forallb is_hex (zero_pad w ds) = true.
Proof.
  intros H. unfold zero_pad. rewrite forallb_app, H, andb_true_r.
  induction (w - length ds)%nat; [reflexivity|exact IHn].
Qed.

Lemma numeral_nonempty base n : numeral base n <> [].
Proof.
  rewrite numeral_unfold. unfold digit_fuel. cbn [digits_le].
  intros H. apply map_eq_nil in H. 
  apply (f_equal (@length N)) in H. rewrite length_rev in H. cbn in H. lia.
Qed.

Lemma zero_pad_nonempty w ds : ds <> [] -> zero_pad w ds <> [].
Proof. unfold zero_pad. destruct (repeat c_zero (w - length ds)); [auto|discriminate]. Qed.

(** ** [int(text, 16)] on a run of digits *)

Lemma is_hex_not_space c : is_hex c = true -> is_space c = false.
Proof.
  unfold is_hex, hex_value, is_space. intros H.
  destruct (N.eqb_spec c 32) as [->|]; [discriminate H|].
  destruct (N.leb_spec 9 c), (N.leb_spec c 13); cbn; try reflexivity.
  exfalso.
  destruct (N.leb_spec 48 c); [lia|]. cbn in H.
  destruct (N.leb_spec 97 c); [lia|]. cbn in H.
  destruct (N.leb_spec 65 c); [lia|]. cbn in H. discriminate.
Qed.

Lemma is_hex_range c :
  is_hex c = true -> 48 <= c <= 57 \/ 97 <= c <= 102 \/ 65 <= c <= 70.
Proof.
  unfold is_hex, hex_value. intros H.
  destruct (N.leb_spec 48 c), (N.leb_spec c 57); cbn in H; try lia;
  destruct (N.leb_spec 97 c), (N.leb_spec c 102); cbn in H; try lia;
  destruct (N.leb_spec 65 c), (N.leb_spec c 70); cbn in H; try lia; discriminate.
Qed.

Lemma scan_hex_run ds acc :
  forallb is_hex ds = true ->
  scan_hex ds acc = Some (fold_left (fun a c => 16 * a + default 0 (hex_value c)) ds acc, []).
Proof.
  revert acc. induction ds as [|c ds IH]; intros acc H; [reflexivity|].
  cbn [forallb] in H. apply andb_prop in H as [Hc Hds].
  cbn [scan_hex fold_left]. unfold is_hex in Hc.
  destruct (hex_value c) as [d|]; [|discriminate]. cbn [default]. apply IH, Hds.
Qed.

Lemma int16_unsigned_run ds :
  ds <> [] -> forallb is_hex ds = true -> int16_unsigned ds = Some (hex_number ds).
Proof.
  intros Hne H. destruct ds as [|c ds]; [congruence|]. clear Hne.
  cbn [forallb] in H. apply andb_prop in H as [Hc Hds].
  assert (Hs1 : match c :: ds with
                | z :: x :: s' =>
                    if (z =? 48) && ((x =? 120) || (x =? 88))
                    then match s' with u :: s'' => if u =? 95 then s'' else s' | [] => s' end
                    else c :: ds
                | _ => c :: ds
                end = c :: ds).
  { destruct ds as [|x s']; [reflexivity|].
    cbn [forallb] in Hds. apply andb_prop in Hds as [Hx _].
    apply is_hex_range in Hx.
    destruct (N.eqb_spec x 120); [lia|]. destruct (N.eqb_spec x 88); [lia|].
    rewrite andb_false_r. reflexivity. }
  unfold int16_unsigned. rewrite Hs1. unfold hex_number. cbn [fold_left].
  unfold is_hex in Hc. destruct (hex_value c) as [d|]; [|discriminate]. cbn [default].
  rewrite scan_hex_run by exact Hds. cbn [lstrip]. f_equal. 
Qed.

Lemma int16_run ds :
  ds <> [] -> forallb is_hex ds = true -> int16 ds = Some (Z.of_N (hex_number ds)).
Proof.
  intros Hne H. pose proof (int16_unsigned_run ds Hne H) as Hu.
  destruct ds as [|c ds]; [congruence|].
  cbn [forallb] in H. apply andb_prop in H as [Hc _].
  unfold int16. cbn [lstrip]. rewrite (is_hex_not_space c Hc).
  apply is_hex_range in Hc.
  destruct (N.eqb_spec c 45); [lia|]. destruct (N.eqb_spec c 43); [lia|].
  rewrite Hu. reflexivity.
Qed.

Lemma int16_format_08x n : int16 (format_08x n) = Some (Z.of_N n).
Proof.
  rewrite int16_run.
  - rewrite hex_number_format_08x. reflexivity.
  - apply zero_pad_nonempty, numeral_nonempty.
  - apply is_hex_zero_pad, is_hex_numeral.
Qed.

Lemma length_zero_pad w s : length (zero_pad w s) = Nat.max w (length s).
Proof. unfold zero_pad. rewrite length_app, repeat_length. lia. Qed.

Lemma length_numeral_le base n k :
  2 <= base -> n < base ^ N.of_nat (S k) -> (length (numeral base n) <= S k)%nat.
Proof.
  intros Hb Hn. rewrite numeral_unfold, length_map, length_rev.
  apply digits_le_length_le; assumption.
Qed.

Lemma length_numeral_gt base n k :
  2 <= base -> base ^ N.of_nat k <= n -> (k < length (numeral base n))%nat.
Proof.
  intros Hb Hn. rewrite numeral_unfold, length_map, length_rev.
  apply digits_le_length_gt; [assumption|apply digit_fuel_enough|assumption].
Qed.

Lemma length_format_08x_small n : n < 4294967296 -> length (format_08x n) = 8%nat.
Proof.
  intros Hn. unfold format_08x. rewrite length_zero_pad.
  pose proof (length_numeral_le 16 n 7 ltac:(lia) Hn). lia.
Qed.

Lemma length_format_08x_large n : 4294967296 <= n -> (8 < length (format_08x n))%nat.
Proof.
  intros Hn. unfold format_08x. rewrite length_zero_pad.
  pose proof (length_numeral_gt 16 n 8 ltac:(lia) Hn). lia.
Qed.

Lemma hex4_number a b c d :
  forallb is_hex [a; b; c; d] = true -> hex4 a b c d = Some (hex_number [a; b; c; d]).
Proof.
  cbn [forallb]. unfold is_hex, hex4, hex_number. cbn [fold_left].
  destruct (hex_value a), (hex_value b), (hex_value c), (hex_value d);
    cbn; intros H; try discriminate. f_equal. lia.
Qed.

Lemma format_04x_hex4 n :
  n < 65536 ->
  exists a b c d, format_04x n = [a; b; c; d] /\ hex4 a b c d = Some n.
Proof.
  intros Hn.
  assert (Hlen : length (format_04x n) = 4%nat).
  { unfold format_04x. rewrite length_zero_pad.
    pose proof (length_numeral_le 16 n 3 ltac:(lia) Hn). lia. }
  assert (Hhex : forallb is_hex (format_04x n) = true)
    by apply is_hex_zero_pad, is_hex_numeral.
  assert (Hval : hex_number (format_04x n) = n).
  { unfold format_04x. rewrite hex_number_zero_pad. apply hex_number_numeral. }
  destruct (format_04x n) as [|a [|b [|c [|d [|]]]]]; try discriminate Hlen.
  exists a, b, c, d. split; [reflexivity|].
  rewrite hex4_number by exact Hhex. rewrite Hval. reflexivity.
Qed.

(** ** Decimal numerals *)

Lemma scan_digits_run be acc rest :
  Forall (fun d => d < 10) be ->
  match rest with c :: _ => is_digit c = false | [] => True end ->
  scan_digits (List.map digit_char be ++ rest) acc
  = (fold_left (fun a d => 10 * a + d) be acc, rest).
Proof.
  intros H Hrest. revert acc. induction H as [|d be Hd _ IH]; intros acc.
  - cbn [List.map app fold_left]. destruct rest as [|c rest]; [reflexivity|].
    cbn [scan_digits]. rewrite Hrest. reflexivity.
  - cbn [List.map app scan_digits fold_left].
    destruct (is_digit_digit_char d Hd) as [-> ->]. apply IH.
Qed.

Lemma rev_digits_head base n :
  2 <= base -> 0 < n ->
  exists d be, rev (digits_le base (digit_fuel n) n) = d :: be /\ 0 < d.
Proof.
  intros Hb Hn.
  destruct (digits_le_last base (digit_fuel n) n Hb Hn (digit_fuel_enough n))
    as (d & Hd & Hpos).
  apply last_Some in Hd as [l' Hl]. rewrite Hl, rev_app_distr. cbn. eauto.
Qed.

Lemma scan_natural_numeral n rest :
  match rest with c :: _ => is_digit c = false | [] => True end ->
  scan_natural (numeral 10 n ++ rest) = Some (n, rest).
Proof.
  intros Hrest. destruct (N.eq_dec n 0) as [->|Hn0].
  - reflexivity.
  - pose proof (value_be_digits 10 n ltac:(lia)) as Hval.
    pose proof (Forall_rev_digits 10 n ltac:(lia)) as HF.
    rewrite numeral_unfold.
    destruct (rev_digits_head 10 n ltac:(lia) ltac:(lia)) as (d & be & Hrev & Hd).
    rewrite Hrev in *. apply Forall_cons_1 in HF as [Hd10 HF].
    cbn [List.map app scan_natural]. cbn [fold_left] in Hval.
    destruct (is_digit_digit_char d Hd10) as [Hdig Hsub].
    assert ((digit_char d =? 48) = false) as ->.
    { apply N.eqb_neq. unfold digit_char. destruct (d <? 10); lia. }
    rewrite Hdig, Hsub. rewrite scan_digits_run by assumption.
    replace (10 * 0 + d) with d in Hval by lia. rewrite Hval. reflexivity.
Qed.

Lemma follows_not_digit rest :
  follows rest -> match rest with c :: _ => is_digit c = false | [] => True end.
Proof. destruct rest as [|c rest]; [auto|]. intros [->|[->| ->]]; reflexivity. Qed.

Lemma follows_not_float rest : follows rest -> float_follows rest = false.
Proof.
  destruct rest as [|c [|d rest]]; [reflexivity..|].
  intros [->|[->| ->]]; reflexivity.
Qed.

Lemma numeral_head_digit n :
  exists c s, numeral 10 n = c :: s /\ is_digit c = true.
Proof.
  rewrite numeral_unfold.
  pose proof (Forall_rev_digits 10 n ltac:(lia)) as HF.
  destruct (rev (digits_le 10 (digit_fuel n) n)) as [|d be] eqn:E.
  - exfalso. apply (numeral_nonempty 10 n). rewrite numeral_unfold, E. reflexivity.
  - apply Forall_cons_1 in HF as [Hd _]. cbn [List.map].
    eexists _, _. split; [reflexivity|]. apply is_digit_digit_char, Hd.
Qed.

Lemma scan_number_str_int z rest :
  follows rest -> scan_number (str_int z ++ rest) = Parsed (JInt z) rest.
Proof.
  intros Hrest. unfold str_int, scan_number.
  destruct (Z.ltb_spec z 0) as [Hneg|Hpos].
  - cbn [app]. unfold c_minus. rewrite N.eqb_refl.
    rewrite scan_natural_numeral by apply follows_not_digit, Hrest.
    rewrite follows_not_float by exact Hrest. f_equal. f_equal.
    rewrite N2Z.inj_abs_N. lia.
  - destruct (numeral_head_digit (Z.abs_N z)) as (c & s & Hs & Hc).
    pose proof (scan_natural_numeral (Z.abs_N z) rest (follows_not_digit rest Hrest)) as Hscan.
    rewrite Hs in *. cbn [app] in *.
    assert ((c =? 45) = false) as ->.
    { apply N.eqb_neq. intros ->. discriminate Hc. }
    rewrite Hscan. rewrite follows_not_float by exact Hrest. f_equal. f_equal.
    rewrite N2Z.inj_abs_N. lia.
Qed.

Lemma str_int_inj z1 z2 : str_int z1 = str_int z2 -> z1 = z2.
Proof.
  intros H.
  pose proof (scan_number_str_int z1 [] I) as H1.
  pose proof (scan_number_str_int z2 [] I) as H2.
  rewrite H in H1. rewrite H1 in H2. congruence.
Qed.

(** ** Numerals are ASCII *)

Lemma numeral_ascii base n : 0 < base <= 16 -> ascii_only (numeral base n).
Proof.
  intros Hb. rewrite numeral_unfold. apply List.Forall_forall. intros c Hc.
  apply in_map_iff in Hc as (d & <- & Hd).
  pose proof (Forall_rev_digits base n ltac:(lia)) as HF.
  rewrite List.Forall_forall in HF. specialize (HF d Hd). cbv beta in HF.
  pose proof (digit_char_ascii d ltac:(lia)). lia.
Qed.

Lemma zero_pad_ascii w s : ascii_only s -> ascii_only (zero_pad w s).
Proof.
  intros H. apply Forall_app. split; [|exact H].
  apply List.Forall_forall. intros c Hc. apply repeat_spec in Hc. subst. reflexivity.
Qed.

Lemma str_int_ascii z : ascii_only (str_int z).
Proof.
  unfold str_int. destruct (z <? 0)%Z.
  - constructor; [reflexivity|]. apply numeral_ascii. lia.
  - apply numeral_ascii. lia.
Qed.

(** * Surrogate pairs *)

Lemma lor_pow2_add a b k : b < 2 ^ k -> N.lor (a * 2 ^ k) b = a * 2 ^ k + b.
Proof.
  intros Hb.
  assert (Hland : N.land (a * 2 ^ k) b = 0).
  { apply N.bits_inj. intros m. rewrite N.land_spec, N.bits_0.
    destruct (N.lt_ge_cases m k) as [Hm|Hm].
    - rewrite N.mul_pow2_bits_low by exact Hm. reflexivity.
    - rewrite <- (N.mod_small b (2 ^ k)) by exact Hb.
      rewrite N.mod_pow2_bits_high by exact Hm. apply andb_false_r. }
  rewrite <- N.lxor_lor by exact Hland. symmetry. apply N.add_nocarry_lxor, Hland.
Qed.

Lemma high_half n :
  n < 1048576 -> N.lor 55296 (N.land (N.shiftr n 10) 1023) = 55296 + n / 1024.
Proof.
  intros Hn. change 1023 with (N.ones 10). rewrite N.land_ones, N.shiftr_div_pow2.
  change (2 ^ 10) with 1024.
  assert (n / 1024 < 1024) by (apply N.Div0.div_lt_upper_bound; lia).
  rewrite N.mod_small by assumption.
  change 55296 with (54 * 2 ^ 10). apply lor_pow2_add. assumption.
Qed.

Lemma low_half n : N.lor 56320 (N.land n 1023) = 56320 + n mod 1024.
Proof.
  change 1023 with (N.ones 10). rewrite N.land_ones. change (2 ^ 10) with 1024.
  change 56320 with (55 * 2 ^ 10). apply lor_pow2_add. apply N.mod_lt. lia.
Qed.

Lemma join_halves n :
  n < 1048576 -> join_surrogates (55296 + n / 1024) (56320 + n mod 1024) = 65536 + n.
Proof.
  intros Hn. unfold join_surrogates.
  rewrite (N.add_comm 55296), (N.add_comm 56320), !N.add_sub.
  rewrite N.shiftl_mul_pow2.
  rewrite lor_pow2_add by (change (2 ^ 10) with 1024; apply N.mod_lt; lia).
  change (2 ^ 10) with 1024. pose proof (N.div_mod n 1024 ltac:(lia)). lia.
Qed.

(** * [scanstring] reads what [encode_basestring_ascii] wrote *)

Lemma escape_char_shape c : c < 1114112 -> escape_shape c (escape_char c).
Proof.
  intros Hc. unfold escape_char.
  destruct (N.leb_spec 32 c); cbn [andb];
  [destruct (N.leb_spec c 126); cbn [andb];
   [destruct (N.eqb_spec c 34) as [->|]; cbn [negb andb];
    [|destruct (N.eqb_spec c 92) as [->|]; cbn [negb andb]]|]|].
  - apply shape_short; [lia|reflexivity].
  - apply shape_short; [lia|reflexivity].
  - apply shape_plain; assumption.
  - destruct (N.eqb_spec c 92); [lia|]. destruct (N.eqb_spec c 34); [lia|].
    destruct (N.eqb_spec c 8); [lia|]. destruct (N.eqb_spec c 12); [lia|].
    destruct (N.eqb_spec c 10); [lia|]. destruct (N.eqb_spec c 13); [lia|].
    destruct (N.eqb_spec c 9); [lia|].
    destruct (N.ltb_spec c 65536) as [Hlt|Hge].
    + destruct (format_04x_hex4 c Hlt) as (h1 & h2 & h3 & h4 & -> & Hh).
      apply shape_u; assumption.
    + cbv zeta.
      assert (Hn : c - 65536 < 1048576) by lia.
      rewrite high_half, low_half by exact Hn.
      assert (Hq : (c - 65536) / 1024 < 1024) by (apply N.Div0.div_lt_upper_bound; lia).
      assert (Hr : (c - 65536) mod 1024 < 1024) by (apply N.mod_lt; lia).
      pose proof (join_halves (c - 65536) Hn) as Hjoin.
      set (q := (c - 65536) / 1024) in *. set (r := (c - 65536) mod 1024) in *.
      destruct (format_04x_hex4 (55296 + q) ltac:(lia)) as (h1 & h2 & h3 & h4 & -> & Hh).
      destruct (format_04x_hex4 (56320 + r) ltac:(lia)) as (l1 & l2 & l3 & l4 & -> & Hl).
      cbn [app]. eapply shape_pair; [exact Hh|exact Hl|..].
      * unfold is_high_surrogate. apply andb_true_intro. split; apply N.leb_le; lia.
      * unfold is_low_surrogate. apply andb_true_intro. split; apply N.leb_le; lia.
      * rewrite Hjoin. lia.
  - destruct (N.eqb_spec c 92); [lia|]. destruct (N.eqb_spec c 34); [lia|].
    destruct (N.eqb_spec c 8) as [->|]; [apply shape_short; [lia|reflexivity]|].
    destruct (N.eqb_spec c 12) as [->|]; [apply shape_short; [lia|reflexivity]|].
    destruct (N.eqb_spec c 10) as [->|]; [apply shape_short; [lia|reflexivity]|].
    destruct (N.eqb_spec c 13) as [->|]; [apply shape_short; [lia|reflexivity]|].
    destruct (N.eqb_spec c 9) as [->|]; [apply shape_short; [lia|reflexivity]|].
    destruct (N.ltb_spec c 65536) as [Hlt|Hge]; [|lia].
    destruct (format_04x_hex4 c Hlt) as (h1 & h2 & h3 & h4 & -> & Hh).
    apply shape_u; assumption.
Qed.

Lemma scan_plain c X :
  32 <= c -> c <> 34 -> c <> 92 ->
  scanstring (c :: X) = parse_map (cons c) (scanstring X).
Proof.
  intros H32 H34 H92. cbn [scanstring].
  destruct (N.eqb_spec c 34); [contradiction|].
  destruct (N.eqb_spec c 92); [contradiction|].
  destruct (N.ltb_spec c 32); [lia|]. reflexivity.
Qed.

Lemma scan_short e ch X :
  e <> 117 -> unescape e = Some ch ->
  scanstring (92 :: e :: X) = parse_map (cons ch) (scanstring X).
Proof.
  intros He Hu. cbn [scanstring]. change (92 =? 34) with false. change (92 =? 92) with true.
  cbv iota. destruct (N.eqb_spec e 117); [contradiction|]. rewrite Hu. reflexivity.
Qed.

Lemma scan_u h1 h2 h3 h4 uni X :
  hex4 h1 h2 h3 h4 = Some uni ->
  is_high_surrogate uni = false \/ no_low_ahead X ->
  scanstring (92 :: 117 :: h1 :: h2 :: h3 :: h4 :: X) = parse_map (cons uni) (scanstring X).
Proof.
  intros Hh Hcase. cbn [scanstring].
  change (92 =? 34) with false. change (92 =? 92) with true.
  change (117 =? 117) with true. cbv iota. rewrite Hh.
  destruct (is_high_surrogate uni); [|reflexivity].
  destruct Hcase as [Hc|Hc]; [discriminate|].
  destruct X as [|b [|u [|l1 [|l2 [|l3 [|l4 s4]]]]]]; try reflexivity.
  cbn [no_low_ahead] in Hc. destruct Hc as [->|(uni2 & -> & ->)]; [reflexivity|].
  destruct ((b =? 92) && (u =? 117)); reflexivity.
Qed.

Lemma scan_pair h1 h2 h3 h4 l1 l2 l3 l4 hi lo X :
  hex4 h1 h2 h3 h4 = Some hi -> hex4 l1 l2 l3 l4 = Some lo ->
  is_high_surrogate hi = true -> is_low_surrogate lo = true ->
  scanstring (92 :: 117 :: h1 :: h2 :: h3 :: h4 :: 92 :: 117 :: l1 :: l2 :: l3 :: l4 :: X)
  = parse_map (cons (join_surrogates hi lo)) (scanstring X).
Proof.
  intros Hh Hl Hhi Hlo. cbn [scanstring].
  change (92 =? 34) with false. change (92 =? 92) with true.
  change (117 =? 117) with true. cbv iota. rewrite Hh, Hhi. cbn [andb].
  rewrite Hl, Hlo. reflexivity.
Qed.

Lemma no_low_ahead_head b X : b <> 92 -> no_low_ahead (b :: X).
Proof.
  intros Hb. destruct X as [|u [|l1 [|l2 [|l3 [|l4 s4]]]]]; cbn; auto.
  left. destruct (N.eqb_spec b 92); [contradiction|reflexivity].
Qed.

Lemma no_low_ahead_second e X : e <> 117 -> no_low_ahead (92 :: e :: X).
Proof.
  intros He. destruct X as [|l1 [|l2 [|l3 [|l4 s4]]]]; cbn; auto.
  left. destruct (N.eqb_spec e 117); [contradiction|reflexivity].
Qed.

Lemma high_not_low c : is_high_surrogate c = true -> is_low_surrogate c = false.
Proof.
  unfold is_high_surrogate, is_low_surrogate. intros H. apply andb_prop in H as [_ H].
  apply N.leb_le in H. destruct (N.leb_spec 56320 c); [lia|reflexivity].
Qed.

Lemma escaped_no_low_ahead s rest :
  code_points s ->
  match s with d :: _ => is_low_surrogate d = false | [] => True end ->
  no_low_ahead (escaped s ++ 34 :: rest).
Proof.
  intros Hcp Hd. destruct s as [|d s].
  - apply no_low_ahead_head. lia.
  - apply Forall_cons_1 in Hcp as [Hdcp _].
    unfold escaped. cbn [List.map List.concat]. rewrite <- app_assoc.
    destruct (escape_char_shape d Hdcp).
    + apply no_low_ahead_head. assumption.
    + apply no_low_ahead_second. assumption.
    + cbn. right. eauto.
    + cbn. right. eexists. split; [eassumption|]. apply high_not_low. assumption.
Qed.

Lemma scanstring_escaped s rest :
  code_points s -> unpaired s = true ->
  scanstring (escaped s ++ 34 :: rest) = Parsed s rest.
Proof.
  induction s as [|c s IH]; intros Hcp Hun.
  - reflexivity.
  - pose proof Hcp as Hcp'. apply Forall_cons_1 in Hcp' as [Hc Hs].
    assert (Hs' : unpaired s = true).
    { cbn [unpaired] in Hun. destruct s; [reflexivity|]. apply andb_prop in Hun. tauto. }
    specialize (IH Hs Hs').
    assert (Hahead : is_high_surrogate c = false \/ no_low_ahead (escaped s ++ 34 :: rest)).
    { destruct (is_high_surrogate c) eqn:Hhi; [right|left; reflexivity].
      apply escaped_no_low_ahead; [exact Hs|].
      cbn [unpaired] in Hun. destruct s as [|d s]; [exact I|].
      apply andb_prop in Hun as [Hun _]. rewrite Hhi in Hun. cbn in Hun.
      destruct (is_low_surrogate d); [discriminate|reflexivity]. }
    unfold escaped in *. cbn [List.map List.concat]. rewrite <- app_assoc.
    destruct (escape_char_shape c Hc) as [| | |h1 h2 h3 h4 l1 l2 l3 l4 hi lo Hh Hl Hhi Hlo Hj].
    + cbn [app]. rewrite scan_plain by assumption. rewrite IH. reflexivity.
    + cbn [app]. erewrite scan_short by eassumption. rewrite IH. reflexivity.
    + cbn [app]. erewrite scan_u by eassumption. rewrite IH. reflexivity.
    + cbn [app]. erewrite scan_pair by eassumption. rewrite IH, Hj. reflexivity.
Qed.

Lemma scanstring_encode s rest :
  code_points s -> unpaired s = true ->
  exists t, encode_basestring_ascii s ++ rest = 34 :: t /\ scanstring t = Parsed s rest.
Proof.
  intros Hcp Hun. exists (escaped s ++ 34 :: rest). split.
  - unfold encode_basestring_ascii, escaped. cbn [app]. rewrite <- app_assoc. reflexivity.
  - apply scanstring_escaped; assumption.
Qed.

(** ** What [json.dumps] writes is ASCII *)

Lemma is_hex_ascii c : is_hex c = true -> c < 128.
Proof. intros H. apply is_hex_range in H. lia. Qed.

Lemma escape_char_ascii c : ascii_only (escape_char c).
Proof.
  assert (Hfmt : forall n, ascii_only (format_04x n))
    by (intros n; apply zero_pad_ascii, numeral_ascii; lia).
  unfold escape_char, ascii_only.
  destruct ((32 <=? c) && (c <=? 126) && negb (c =? 34) && negb (c =? 92)) eqn:Hplain.
  - apply andb_prop in Hplain as [Hplain _]. apply andb_prop in Hplain as [Hplain _].
    apply andb_prop in Hplain as [_ Hplain]. apply N.leb_le in Hplain.
    constructor; [lia|constructor].
  - repeat match goal with
    | |- Forall _ (if ?b then _ else _) => destruct b
    end; cbv zeta; rewrite ?Forall_app;
    repeat match goal with
    | |- _ /\ _ => split
    | |- Forall _ (_ :: _) => constructor; [reflexivity|]
    | |- Forall _ [] => constructor
    | |- Forall _ (format_04x _) => apply Hfmt
    end.
Qed.

Lemma encode_basestring_ascii_ascii s : ascii_only (encode_basestring_ascii s).
Proof.
  unfold encode_basestring_ascii. apply Forall_cons. split; [reflexivity|].
  apply Forall_app. split; [|repeat constructor].
  induction s as [|c s IH]; [constructor|].
  cbn [List.map List.concat]. apply Forall_app. split; [apply escape_char_ascii|exact IH].
Qed.

(** * Values *)

Lemma json_induction (P : json -> Prop) :
  P JNull -> (forall b, P (JBool b)) -> (forall z, P (JInt z)) -> (forall s, P (JStr s)) ->
  (forall l, Forall P l -> P (JList l)) ->
  (forall d, Forall (fun kv => P (snd kv)) d -> P (JDict d)) ->
  forall v, P v.
Proof.
  intros Hnull Hbool Hint Hstr Hlist Hdict.
  fix IH 1. intros [| b | z | s | l | d].
  - exact Hnull.
  - apply Hbool.
  - apply Hint.
  - apply Hstr.
  - apply Hlist. induction l as [|x l IHl]; constructor; [apply IH|exact IHl].
  - apply Hdict. induction d as [|[k x] d IHd]; constructor; [apply IH|exact IHd].
Qed.

Lemma text_ok_code_points s : text_ok s = true -> code_points s.
Proof.
  unfold text_ok, code_points. intros H. apply List.Forall_forall. intros c Hc.
  rewrite forallb_forall in H. apply N.ltb_lt, H, Hc.
Qed.

(** ** The head of a text *)

Lemma head_ok_char c s :
  (c =? 32) = false -> (c =? 9) = false -> (c =? 10) = false -> (c =? 13) = false ->
  (c =? 93) = false -> (c =? 125) = false -> head_ok (c :: s).
Proof.
  intros H1 H2 H3 H4 H5 H6. cbn. unfold is_ws. rewrite H1, H2, H3, H4.
  apply N.eqb_neq in H5, H6. auto.
Qed.

Lemma json_dumps_head v rest : head_ok (json_dumps v ++ rest).
Proof.
  destruct v as [| [|] | z | s | l | d]; cbn [json_dumps encode_basestring_ascii app];
    try (apply head_ok_char; reflexivity).
  unfold str_int. destruct (z <? 0)%Z; [apply head_ok_char; reflexivity|].
  destruct (numeral_head_digit (Z.abs_N z)) as (c & s & -> & Hc). cbn [app].
  unfold is_digit in Hc. apply andb_prop in Hc as [H1 H2].
  apply N.leb_le in H1, H2. apply head_ok_char; apply N.eqb_neq; lia.
Qed.

Lemma skip_ws_head s : head_ok s -> skip_ws s = s.
Proof. destruct s as [|c s]; [contradiction|]. intros (H & _). cbn. rewrite H. reflexivity. Qed.

Lemma skip_ws_follows s : follows s -> skip_ws s = s.
Proof.
  destruct s as [|c s]; [reflexivity|]. intros [->|[->| ->]]; reflexivity.
Qed.

(** ** [dict(pairs)] of distinct keys *)

Lemma dict_set_fresh k v d : k ∉ List.map fst d -> dict_set k v d = d ++ [(k, v)].
Proof.
  induction d as [|[k' v'] d IH]; intros Hk; [reflexivity|].
  cbn [dict_set]. cbn in Hk. apply not_elem_of_cons in Hk as [Hne Hk].
  destruct (decide (k' = k)); [congruence|]. rewrite IH by exact Hk. reflexivity.
Qed.

Lemma dict_of_pairs_app acc ps :
  NoDup (List.map fst (acc ++ ps)) ->
  fold_left (fun d kv => dict_set (fst kv) (snd kv) d) ps acc = acc ++ ps.
Proof.
  revert acc. induction ps as [|[k v] ps IH]; intros acc Hnd.
  - rewrite app_nil_r. reflexivity.
  - cbn [fold_left fst snd]. rewrite dict_set_fresh.
    + rewrite IH; rewrite <- app_assoc; [reflexivity|exact Hnd].
    + rewrite map_app in Hnd. apply NoDup_app in Hnd as (_ & Hdis & _).
      intros Hin. apply (Hdis k Hin). cbn. left.
Qed.

Lemma dict_of_pairs_distinct d : NoDup (List.map fst d) -> dict_of_pairs d = d.
Proof. intros H. unfold dict_of_pairs. apply (dict_of_pairs_app [] d H). Qed.

(** * [scan_once] reads what [json_dumps] wrote *)

Lemma list_sum_cons a l : list_sum (a :: l) = (a + list_sum l)%nat.
Proof. reflexivity. Qed.

Lemma skip_ws_space s : skip_ws (32 :: s) = skip_ws s.
Proof. reflexivity. Qed.

Lemma skip_ws_comma s : skip_ws (44 :: s) = 44 :: s.
Proof. reflexivity. Qed.

Lemma skip_ws_colon s : skip_ws (58 :: s) = 58 :: s.
Proof. reflexivity. Qed.

Lemma skip_ws_bracket s : skip_ws (93 :: s) = 93 :: s.
Proof. reflexivity. Qed.

Lemma skip_ws_brace s : skip_ws (125 :: s) = 125 :: s.
Proof. reflexivity. Qed.

(** Rewriting by what [skip_ws] does at the separators [json.dumps]
    writes. *)
Ltac skip_separators :=
  rewrite ?skip_ws_comma, ?skip_ws_colon, ?skip_ws_bracket, ?skip_ws_brace, ?skip_ws_space;
  change (44 =? 93) with false; change (44 =? 44) with true;
  change (44 =? 125) with false; change (93 =? 93) with true;
  change (125 =? 125) with true; change (58 =? 58) with true; cbv iota.

Lemma join_comma_cons2 p q parts :
  join_comma (p :: q :: parts) = p ++ 44 :: 32 :: join_comma (q :: parts).
Proof. reflexivity. Qed.

Lemma join_comma_head_ok x l rest :
  head_ok (join_comma (List.map json_dumps (x :: l)) ++ rest).
Proof.
  destruct l as [|y l]; cbn [List.map].
  - apply json_dumps_head.
  - rewrite join_comma_cons2, <- app_assoc. apply json_dumps_head.
Qed.

Lemma scan_elements_dumps l :
  l <> [] -> Forall reads_back l ->
  forall fuel rest,
    (list_sum (List.map (fun x => S (json_size x)) l) <= fuel)%nat ->
    scan_elements fuel (join_comma (List.map json_dumps l) ++ 93 :: rest) = Parsed l rest.
Proof.
  induction l as [|x l IH]; [congruence|]. intros _ HF fuel rest Hfuel.
  apply Forall_cons_1 in HF as [Hx HF].
  cbn [List.map] in Hfuel. rewrite list_sum_cons in Hfuel. destruct fuel as [|f]; [lia|].
  destruct l as [|y l].
  - cbn [List.map join_comma scan_elements].
    rewrite Hx by (cbn; auto || lia). skip_separators. reflexivity.
  - cbn [List.map]. rewrite join_comma_cons2, <- app_assoc. cbn [app scan_elements].
    rewrite Hx by (cbn; auto || lia). skip_separators.
    rewrite skip_ws_head by apply (join_comma_head_ok y l).
    change (List.map json_dumps (y :: l)) with (json_dumps y :: List.map json_dumps l) in IH.
    rewrite IH; [reflexivity|congruence|exact HF|cbn [List.map] in *; rewrite ?list_sum_cons in *; lia].
Qed.

Lemma member_text_scan k v f tail :
  code_points k -> unpaired k = true -> reads_back v -> follows tail -> (json_size v <= f)%nat ->
  exists t,
    member_text (k, v) ++ tail = 34 :: t
    /\ scanstring t = Parsed k (58 :: 32 :: json_dumps v ++ tail)
    /\ scan_once f (skip_ws (json_dumps v ++ tail)) = Parsed v tail.
Proof.
  intros Hcp Hun Hv Htail Hf.
  destruct (scanstring_encode k (58 :: 32 :: json_dumps v ++ tail) Hcp Hun) as (t & Ht & Hscan).
  exists t. split; [|split].
  - unfold member_text. cbn [fst snd]. rewrite <- app_assoc. exact Ht.
  - exact Hscan.
  - rewrite skip_ws_head by apply json_dumps_head. apply Hv; assumption.
Qed.

Lemma scan_members_dumps d :
  d <> [] ->
  Forall (fun kv => code_points (fst kv) /\ unpaired (fst kv) = true /\ reads_back (snd kv)) d ->
  forall fuel rest,
    (list_sum (List.map (fun kv => S (json_size (snd kv))) d) <= fuel)%nat ->
    scan_members fuel (join_comma (List.map member_text d) ++ 125 :: rest) = Parsed d rest.
Proof.
  induction d as [|[k v] d IH]; [congruence|]. intros _ HF fuel rest Hfuel.
  apply Forall_cons_1 in HF as [(Hcp & Hun & Hv) HF]. cbn [fst snd] in *.
  cbn [List.map snd] in Hfuel. rewrite list_sum_cons in Hfuel. destruct fuel as [|f]; [lia|].
  destruct d as [|kv d].
  - cbn [List.map join_comma].
    destruct (member_text_scan k v f (125 :: rest) Hcp Hun Hv) as (t & -> & Hs & Hval);
      [cbn; auto|lia|].
    cbn [scan_members]. change (34 =? 34) with true. cbv iota.
    rewrite Hs. skip_separators. rewrite Hval. skip_separators. reflexivity.
  - cbn [List.map]. rewrite join_comma_cons2, <- app_assoc.
    destruct (member_text_scan k v f
                (44 :: 32 :: join_comma (List.map member_text (kv :: d)) ++ 125 :: rest)
                Hcp Hun Hv) as (t & Ht & Hs & Hval); [cbn; auto|lia|].
    cbn [app List.map] in *. rewrite Ht.
    cbn [scan_members]. change (34 =? 34) with true. cbv iota.
    rewrite Hs. skip_separators. rewrite Hval. skip_separators.
    assert (Hhead : head_ok (join_comma (List.map member_text (kv :: d)) ++ 125 :: rest)).
    { destruct d as [|kv' d]; cbn [List.map join_comma];
        [|rewrite <- app_assoc]; unfold member_text, encode_basestring_ascii;
        cbn [app]; apply head_ok_char; reflexivity. }
    rewrite skip_ws_head by exact Hhead.
    rewrite IH; [reflexivity|congruence|exact HF|cbn [List.map] in *; rewrite ?list_sum_cons in *; lia].
Qed.

Lemma after_prefix_head p c s a :
  a <> c -> after_prefix (a :: p) (c :: s) = None.
Proof. intros H. cbn. destruct (N.eqb_spec a c); [contradiction|reflexivity]. Qed.

Theorem scan_once_dumps v :
  is_value v = true -> unpaired_strings v = true -> reads_back v.
Proof.
  induction v as [| b | z | s | l IHl | d IHd] using json_induction;
    intros Hval Hun fuel rest Hrest Hfuel; (destruct fuel as [|f]; [cbn in Hfuel; lia|]).
  - reflexivity.
  - destruct b; reflexivity.
  - pose proof (json_dumps_head (JInt z) rest) as Hhead.
    pose proof (scan_number_str_int z rest Hrest) as Hnum.
    cbn [json_dumps] in *. destruct (str_int z ++ rest) as [|c t] eqn:E; [contradiction|].
    assert (Hc : c = 45 \/ 48 <= c <= 57).
    { unfold str_int in E. destruct (z <? 0)%Z; [injection E as <- _; auto|].
      destruct (numeral_head_digit (Z.abs_N z)) as (c' & s' & Hs & Hd).
      rewrite Hs in E. injection E as <- _. unfold is_digit in Hd.
      apply andb_prop in Hd as [H1 H2]. apply N.leb_le in H1, H2. auto. }
    cbn [scan_once].
    destruct (N.eqb_spec c 34); [lia|]. destruct (N.eqb_spec c 123); [lia|].
    destruct (N.eqb_spec c 91); [lia|].
    rewrite !after_prefix_head by lia. exact Hnum.
  - cbn [is_value unpaired_strings] in *.
    destruct (scanstring_encode s rest (text_ok_code_points s Hval) Hun) as (t & Ht & Hs).
    cbn [json_dumps]. rewrite Ht. cbn [scan_once]. change (34 =? 34) with true. cbv iota.
    rewrite Hs. reflexivity.
  - cbn [is_value unpaired_strings json_size] in *. cbn [json_dumps app]. rewrite <- app_assoc.
    cbn [app scan_once]. change (91 =? 34) with false. change (91 =? 123) with false.
    change (91 =? 91) with true. cbv iota.
    destruct l as [|x l].
    + reflexivity.
    + pose proof (join_comma_head_ok x l (93 :: rest)) as Hhead.
      rewrite skip_ws_head by exact Hhead.
      destruct (join_comma (List.map json_dumps (x :: l)) ++ 93 :: rest) as [|c1 s2] eqn:E;
        [contradiction|].
      destruct Hhead as (_ & H93 & _). destruct (N.eqb_spec c1 93); [contradiction|].
      rewrite <- E. rewrite scan_elements_dumps; [reflexivity|congruence| |lia].
      rewrite forallb_forall in Hval, Hun. rewrite List.Forall_forall in IHl |- *.
      intros y Hy. apply IHl; auto.
  - cbn [is_value unpaired_strings json_size] in *. apply andb_prop in Hval as [Hval Hnd].
    apply bool_decide_eq_true in Hnd.
    cbn [json_dumps app]. rewrite <- app_assoc.
    cbn [app scan_once]. change (123 =? 34) with false. change (123 =? 123) with true.
    cbv iota. fold member_text.
    destruct d as [|kv d].
    + reflexivity.
    + assert (Hhead : head_ok (join_comma (List.map member_text (kv :: d)) ++ 125 :: rest)).
      { destruct d as [|kv' d]; cbn [List.map join_comma];
          [|rewrite <- app_assoc]; unfold member_text, encode_basestring_ascii;
          cbn [app]; apply head_ok_char; reflexivity. }
      rewrite skip_ws_head by exact Hhead.
      destruct (join_comma (List.map member_text (kv :: d)) ++ 125 :: rest) as [|c1 s2] eqn:E;
        [contradiction|].
      destruct Hhead as (_ & _ & H125). destruct (N.eqb_spec c1 125); [contradiction|].
      rewrite <- E. rewrite scan_members_dumps; [|congruence| |lia].
      * cbn [parse_map]. rewrite dict_of_pairs_distinct by exact Hnd. reflexivity.
      * rewrite forallb_forall in Hval, Hun. rewrite List.Forall_forall in IHd |- *.
        intros y Hy. specialize (Hval y Hy). specialize (Hun y Hy).
        apply andb_prop in Hval as [Hk Hv]. apply andb_prop in Hun as [Hku Hvu].
        split; [apply text_ok_code_points, Hk|]. split; [exact Hku|]. apply IHd; auto.
Qed.

(** * The fuel of [json_loads] *)

Lemma consumes_map {A B : Type} (f : A -> B) (p : parse A) s s' :
  consumes p s -> (length s <= length s')%nat -> consumes (parse_map f p) s'.
Proof. destruct p; cbn; intros; (lia || auto). Qed.

Lemma shortens_map {A B : Type} (f : A -> B) (p : parse A) s s' :
  shortens p s -> (length s <= length s')%nat -> shortens (parse_map f p) s'.
Proof. destruct p; cbn; intros; (lia || auto). Qed.

Lemma consumes_shortens {A : Type} (p : parse A) s : consumes p s -> shortens p s.
Proof. destruct p; cbn; auto. Qed.

Lemma skip_ws_length s : (length (skip_ws s) <= length s)%nat.
Proof.
  induction s as [|c s IH]; [reflexivity|]. cbn [skip_ws]. destruct (is_ws c); cbn [length]; lia.
Qed.

Lemma scanstring_consumes s : consumes (scanstring s) s.
Proof.
  remember (length s) as n eqn:Hn. assert (Hle : (length s <= n)%nat) by lia. clear Hn.
  revert s Hle. induction n as [|n IH]; intros s Hle.
  - destruct s; [exact I|cbn in Hle; lia].
  - destruct s as [|c s1]; [exact I|]. cbn [scanstring]. cbn [length] in Hle.
    repeat match goal with
    | |- consumes (parse_map _ (scanstring ?t)) ?s =>
        apply (consumes_map _ _ t); [apply IH; cbn [length] in *; lia|cbn [length]; lia]
    | |- consumes Malformed _ => exact I
    | |- consumes (Parsed _ _) _ => cbn [consumes length]; lia
    | |- consumes (if ?b then _ else _) _ => destruct b
    | |- consumes (match ?x with _ => _ end) _ => destruct x
    end.
Qed.

Lemma scan_digits_length s acc : (length (snd (scan_digits s acc)) <= length s)%nat.
Proof.
  revert acc. induction s as [|c s IH]; intros acc; [reflexivity|].
  cbn [scan_digits]. destruct (is_digit c); cbn [snd length]; [specialize (IH (10 * acc + (c - 48))); lia|lia].
Qed.

Lemma scan_number_consumes s : consumes (scan_number s) s.
Proof.
  unfold scan_number.
  assert (Hnat : forall t, match scan_natural t with
                           | Some (_, r) => (length r < length t)%nat
                           | None => True
                           end).
  { intros [|c t]; [exact I|]. cbn [scan_natural]. destruct (c =? 48); [cbn; lia|].
    destruct (is_digit c); [|exact I].
    pose proof (scan_digits_length t (c - 48)) as H.
    destruct (scan_digits t (c - 48)). cbn in *. lia. }
  destruct s as [|c s'].
  - cbn. exact I.
  - destruct (c =? 45).
    + specialize (Hnat s'). destruct (scan_natural s') as [[n r]|].
      * destruct (float_follows r); [exact I|cbn; lia].
      * destruct (_ || _); exact I.
    + specialize (Hnat (c :: s')). destruct (scan_natural (c :: s')) as [[n r]|].
      * destruct (float_follows r); [exact I|cbn in *; lia].
      * destruct (_ || _); exact I.
Qed.

Lemma after_prefix_length p s r :
  p <> [] -> after_prefix p s = Some r -> (length r < length s)%nat.
Proof.
  revert s. induction p as [|a p IH]; intros s Hne H; [congruence|].
  destruct s as [|b s]; [discriminate|]. cbn [after_prefix] in H.
  destruct (a =? b); [|discriminate]. destruct p as [|a' p].
  - cbn in H. injection H as <-. cbn. lia.
  - specialize (IH s ltac:(discriminate) H). cbn [length]. lia.
Qed.

(** Whatever the fuel, a value that is read takes at least one
    character. *)
Lemma scan_shortens fuel :
  (forall s, shortens (scan_once fuel s) s)
  /\ (forall s, shortens (scan_elements fuel s) s)
  /\ (forall s, shortens (scan_members fuel s) s).
Proof.
  induction fuel as [|f (IHv & IHe & IHm)]; [repeat split; intros; exact I|].
  assert (Hv : forall s, shortens (scan_once (S f) s) s).
  { intros [|c s']; [exact I|]. cbn [scan_once].
    destruct (c =? 34).
    { apply (shortens_map _ _ s'); [apply consumes_shortens, scanstring_consumes|cbn; lia]. }
    destruct (c =? 123).
    { pose proof (skip_ws_length s') as Hws. destruct (skip_ws s') as [|c1 s2]; [exact I|].
      cbn [length] in Hws. destruct (c1 =? 125); [cbn; lia|].
      apply (shortens_map _ _ (c1 :: s2)); [apply IHm|cbn [length]; lia]. }
    destruct (c =? 91).
    { pose proof (skip_ws_length s') as Hws. destruct (skip_ws s') as [|c1 s2]; [exact I|].
      cbn [length] in Hws. destruct (c1 =? 93); [cbn; lia|].
      apply (shortens_map _ _ (c1 :: s2)); [apply IHe|cbn [length]; lia]. }
    destruct (after_prefix [110; 117; 108; 108] (c :: s')) eqn:E1.
    { apply after_prefix_length in E1; [exact E1|discriminate]. }
    destruct (after_prefix [116; 114; 117; 101] (c :: s')) eqn:E2.
    { apply after_prefix_length in E2; [exact E2|discriminate]. }
    destruct (after_prefix [102; 97; 108; 115; 101] (c :: s')) eqn:E3.
    { apply after_prefix_length in E3; [exact E3|discriminate]. }
    apply consumes_shortens, scan_number_consumes. }
  split; [exact Hv|]. split.
  - intros s. cbn [scan_elements]. specialize (IHv s).
    destruct (scan_once f s) as [v r| | |]; try exact I. cbn [shortens] in IHv.
    pose proof (skip_ws_length r) as Hws. destruct (skip_ws r) as [|c r']; [exact I|].
    cbn [length] in Hws. destruct (c =? 93); [cbn; lia|]. destruct (c =? 44); [|exact I].
    apply (shortens_map _ _ (skip_ws r')); [apply IHe|].
    pose proof (skip_ws_length r'). lia.
  - intros s. cbn [scan_members]. destruct s as [|q s0]; [exact I|].
    destruct (q =? 34); [|exact I].
    pose proof (scanstring_consumes s0) as Hk.
    destruct (scanstring s0) as [k r0| | |]; try exact I. cbn [consumes] in Hk.
    pose proof (skip_ws_length r0) as Hws0. destruct (skip_ws r0) as [|colon r1]; [exact I|].
    cbn [length] in Hws0. destruct (colon =? 58); [|exact I].
    specialize (IHv (skip_ws r1)). pose proof (skip_ws_length r1) as Hws1.
    destruct (scan_once f (skip_ws r1)) as [v r| | |]; try exact I. cbn [shortens] in IHv.
    pose proof (skip_ws_length r) as Hws. destruct (skip_ws r) as [|c r']; [exact I|].
    cbn [length] in Hws. destruct (c =? 125); [cbn [shortens length]; lia|].
    destruct (c =? 44); [|exact I].
    apply (shortens_map _ _ (skip_ws r')); [apply IHm|].
    pose proof (skip_ws_length r'). cbn [length]. lia.
Qed.

(** Two units of fuel for each character are enough. *)
Lemma scan_fuelled fuel :
  (forall s, (2 * length s + 1 <= fuel)%nat -> scan_once fuel s <> NoFuel)
  /\ (forall s, (2 * length s + 2 <= fuel)%nat -> scan_elements fuel s <> NoFuel)
  /\ (forall s, (2 * length s + 2 <= fuel)%nat -> scan_members fuel s <> NoFuel).
Proof.
  induction fuel as [|f (IHv & IHe & IHm)]; [repeat split; intros; lia|].
  assert (Hmap : forall (A B : Type) (g : A -> B) (p : parse A),
             p <> NoFuel -> parse_map g p <> NoFuel).
  { intros A B g [| | |]; cbn; congruence. }
  split; [|split].
  - intros [|c s'] Hf; [discriminate|]. cbn [scan_once]. cbn [length] in Hf.
    destruct (c =? 34).
    { apply Hmap. pose proof (scanstring_consumes s') as H. destruct (scanstring s'); cbn in H; congruence || tauto. }
    destruct (c =? 123).
    { pose proof (skip_ws_length s') as Hws. destruct (skip_ws s') as [|c1 s2]; [discriminate|].
      cbn [length] in Hws. destruct (c1 =? 125); [discriminate|].
      apply Hmap, IHm. cbn [length]. lia. }
    destruct (c =? 91).
    { pose proof (skip_ws_length s') as Hws. destruct (skip_ws s') as [|c1 s2]; [discriminate|].
      cbn [length] in Hws. destruct (c1 =? 93); [discriminate|].
      apply Hmap, IHe. cbn [length]. lia. }
    destruct (after_prefix [110; 117; 108; 108] (c :: s')); [discriminate|].
    destruct (after_prefix [116; 114; 117; 101] (c :: s')); [discriminate|].
    destruct (after_prefix [102; 97; 108; 115; 101] (c :: s')); [discriminate|].
    pose proof (scan_number_consumes (c :: s')) as H.
    destruct (scan_number (c :: s')); cbn in H; congruence || tauto.
  - intros s Hf. cbn [scan_elements].
    pose proof (proj1 (scan_shortens f) s) as Hs. specialize (IHv s ltac:(lia)).
    destruct (scan_once f s) as [v r| | |]; try discriminate; [|congruence].
    cbn [shortens] in Hs.
    pose proof (skip_ws_length r) as Hws. destruct (skip_ws r) as [|c r']; [discriminate|].
    cbn [length] in Hws. destruct (c =? 93); [discriminate|]. destruct (c =? 44); [|discriminate].
    apply Hmap, IHe. pose proof (skip_ws_length r'). lia.
  - intros s Hf. cbn [scan_members]. destruct s as [|q s0]; [discriminate|].
    cbn [length] in Hf. destruct (q =? 34); [|discriminate].
    pose proof (scanstring_consumes s0) as Hk.
    destruct (scanstring s0) as [k r0| | |]; try discriminate; [|contradiction].
    cbn [consumes] in Hk.
    pose proof (skip_ws_length r0) as Hws0. destruct (skip_ws r0) as [|colon r1]; [discriminate|].
    cbn [length] in Hws0. destruct (colon =? 58); [|discriminate].
    pose proof (skip_ws_length r1) as Hws1.
    pose proof (proj1 (scan_shortens f) (skip_ws r1)) as Hs.
    specialize (IHv (skip_ws r1) ltac:(lia)).
    destruct (scan_once f (skip_ws r1)) as [v r| | |]; try discriminate; [|congruence].
    cbn [shortens] in Hs.
    pose proof (skip_ws_length r) as Hws. destruct (skip_ws r) as [|c r']; [discriminate|].
    cbn [length] in Hws. destruct (c =? 125); [discriminate|]. destruct (c =? 44); [|discriminate].
    apply Hmap, IHm. pose proof (skip_ws_length r'). lia.
Qed.

Theorem json_loads_fuelled s : json_loads s <> NoFuel.
Proof.
  unfold json_loads. destruct (starts_with_bom s); [discriminate|].
  pose proof (proj1 (scan_fuelled (2 * length s + 2)) (skip_ws s)) as H.
  pose proof (skip_ws_length s) as Hws. specialize (H ltac:(lia)).
  destruct (scan_once (2 * length s + 2) (skip_ws s)) as [v r| | |]; try discriminate; [|congruence].
  destruct (skip_ws r); discriminate.
Qed.

(** * [json_loads] after [json_dumps] *)

Lemma length_join_comma_ge (parts : list (list N)) (sizes : list nat) :
  Forall2 (fun p n => (n <= length p)%nat) parts sizes ->
  (list_sum (List.map S sizes) <= length (join_comma parts) + 1)%nat.
Proof.
  induction 1 as [|p n parts sizes Hp HF IH]; [cbn; lia|].
  cbn [List.map]. rewrite list_sum_cons.
  destruct parts as [|q parts].
  - inversion HF; subst. cbn. lia.
  - rewrite join_comma_cons2, length_app. cbn [length]. lia.
Qed.

Lemma json_size_le_length v : (json_size v <= length (json_dumps v))%nat.
Proof.
  induction v as [| b | z | s | l IHl | d IHd] using json_induction.
  - cbn. lia.
  - destruct b; cbn; lia.
  - cbn [json_size json_dumps]. pose proof (json_dumps_head (JInt z) []) as H.
    cbn [json_dumps] in H. rewrite app_nil_r in H.
    destruct (str_int z); [contradiction|cbn; lia].
  - cbn. lia.
  - cbn [json_size json_dumps length]. rewrite length_app. cbn [length].
    pose proof (length_join_comma_ge (List.map json_dumps l) (List.map json_size l)) as H.
    rewrite map_map in H. 
    enough (list_sum (List.map (fun x => S (json_size x)) l)
            <= length (join_comma (List.map json_dumps l)) + 1)%nat by lia.
    apply H. clear H. induction IHl; constructor; auto.
  - cbn [json_size json_dumps length]. rewrite length_app. cbn [length].
    fold member_text.
    pose proof (length_join_comma_ge (List.map member_text d)
                  (List.map (fun kv => json_size (snd kv)) d)) as H.
    rewrite map_map in H.
    enough (list_sum (List.map (fun kv => S (json_size (snd kv))) d)
            <= length (join_comma (List.map member_text d)) + 1)%nat by lia.
    apply H. clear H. induction IHd as [|kv d Hkv _ IH]; constructor; auto.
    unfold member_text. rewrite length_app. cbn [length]. lia.
Qed.

Lemma join_comma_ascii parts : Forall ascii_only parts -> ascii_only (join_comma parts).
Proof.
  induction 1 as [|p parts Hp HF IH]; [constructor|].
  destruct parts as [|q parts]; [exact Hp|].
  rewrite join_comma_cons2. apply Forall_app. split; [exact Hp|].
  constructor; [reflexivity|]. constructor; [reflexivity|]. exact IH.
Qed.

Lemma json_dumps_ascii v : ascii_only (json_dumps v).
Proof.
  induction v as [| b | z | s | l IHl | d IHd] using json_induction.
  - repeat constructor.
  - destruct b; repeat constructor.
  - apply str_int_ascii.
  - apply encode_basestring_ascii_ascii.
  - cbn [json_dumps]. constructor; [reflexivity|]. apply Forall_app. split; [|repeat constructor].
    apply join_comma_ascii. induction IHl; constructor; auto.
  - cbn [json_dumps]. constructor; [reflexivity|]. apply Forall_app. split; [|repeat constructor].
    apply join_comma_ascii. induction IHd as [|kv d Hkv _ IH]; constructor; auto.
    apply Forall_app. split; [apply encode_basestring_ascii_ascii|].
    constructor; [reflexivity|]. constructor; [reflexivity|]. exact Hkv.
Qed.

Lemma ascii_not_bom s : ascii_only s -> starts_with_bom s = false.
Proof.
  destruct s as [|c s]; [reflexivity|]. intros H. apply Forall_cons_1 in H as [Hc _].
  cbn. apply N.eqb_neq. lia.
Qed.

Theorem json_loads_dumps v :
  is_value v = true -> unpaired_strings v = true ->
  json_loads (json_dumps v) = Parsed v [].
Proof.
  intros Hval Hun. unfold json_loads.
  rewrite ascii_not_bom by apply json_dumps_ascii.
  pose proof (json_dumps_head v []) as Hhead. rewrite app_nil_r in Hhead.
  rewrite skip_ws_head by exact Hhead.
  pose proof (scan_once_dumps v Hval Hun (2 * length (json_dumps v) + 2)%nat [] I) as H.
  rewrite app_nil_r in H. rewrite H; [reflexivity|].
  pose proof (json_size_le_length v). lia.
Qed.

(** * UTF-8 on ASCII *)

Lemma utf8_encode_ascii s : ascii_only s -> utf8_encode s = Some s.
Proof.
  induction 1 as [|c s Hc _ IH]; [reflexivity|].
  cbn [utf8_encode]. unfold utf8_encode_char.
  destruct (N.ltb_spec c 128); [|lia]. rewrite IH. reflexivity.
Qed.

Lemma utf8_decode_ascii s : ascii_only s -> utf8_decode s = Some s.
Proof.
  induction 1 as [|c s Hc _ IH]; [reflexivity|].
  cbn [utf8_decode]. destruct (N.ltb_spec c 128); [|lia]. rewrite IH. reflexivity.
Qed.

(** * The frame codec *)

Section Codec.

Context {callback : Type}.
Implicit Types w : world callback.

Lemma frame_text_ascii data : ascii_only data -> ascii_only (frame_text data).
Proof.
  intros H. unfold frame_text. constructor; [reflexivity|]. constructor; [reflexivity|].
  apply Forall_app. split.
  - apply zero_pad_ascii, numeral_ascii. lia.
  - constructor; [reflexivity|exact H].
Qed.

Theorem send_chunk_writes value w :
  send_chunk value w = Ok tt (with_written (frame value) w).
Proof.
  unfold send_chunk, bind, frame.
  rewrite utf8_encode_ascii by apply frame_text_ascii, json_dumps_ascii.
  reflexivity.
Qed.

Lemma split_line_digits ds tail :
  forallb is_hex ds = true -> split_line (ds ++ 10 :: tail) = (ds ++ [10], tail).
Proof.
  induction ds as [|c ds IH]; intros H; [reflexivity|].
  cbn [forallb] in H. apply andb_prop in H as [Hc Hds].
  cbn [app split_line]. apply is_hex_range in Hc.
  destruct (N.eqb_spec c 10); [lia|]. rewrite IH by exact Hds. reflexivity.
Qed.

Lemma endswith_newline_app l : endswith_newline (l ++ [10]) = true.
Proof. unfold endswith_newline. rewrite last_snoc. reflexivity. Qed.

Lemma slice_header ds : slice_2_m1 (48 :: 120 :: ds ++ [10]) = ds.
Proof.
  unfold slice_2_m1. simpl skipn. simpl length. rewrite length_app. simpl length.
  rewrite skipn_O.
  replace (S (S (length ds + 1)) - 3)%nat with (length ds) by lia.
  rewrite firstn_app, firstn_all, Nat.sub_diag. cbn. apply app_nil_r.
Qed.

(** A header of any number of hexadecimal digits is read as the length
    of the payload, and the payload is what is decoded. *)
Theorem get_chunk_frame ds payload rest w :
  ds <> [] -> forallb is_hex ds = true ->
  N.of_nat (length payload) = hex_number ds ->
  c_stdout w = 48 :: 120 :: ds ++ 10 :: payload ++ rest ->
  get_chunk w = decode_payload payload (with_stdout rest w).
Proof.
  intros Hne Hhex Hlen Hin.
  unfold get_chunk, decode_payload, bind at 1, readline. rewrite Hin.
  cbn [split_line]. change (48 =? 10) with false. change (120 =? 10) with false. cbv iota.
  rewrite split_line_digits by exact Hhex. cbv iota beta.
  unfold bind at 1, py_assert, startswith. cbn [after_prefix].
  change (48 =? 48) with true. change (120 =? 120) with true. cbv iota. unfold ret at 1.
  unfold bind at 1. change (48 :: 120 :: ds ++ [10]) with ([48; 120] ++ ds ++ [10]).
  rewrite app_assoc, endswith_newline_app. unfold ret at 1.
  rewrite <- app_assoc. cbn [app]. rewrite slice_header, int16_run by assumption.
  unfold bind at 1, or_raise, ret at 1.
  unfold bind at 1, read. rewrite <- Hlen.
  destruct (Z.leb_spec 0 (Z.of_N (N.of_nat (length payload)))) as [_|]; [|lia].
  cbn [c_stdout]. replace (Z.to_nat (Z.of_N (N.of_nat (length payload)))) with (length payload) by lia.
  rewrite firstn_app, firstn_all, Nat.sub_diag, firstn_0, app_nil_r.
  rewrite skipn_app, skipn_all, Nat.sub_diag, skipn_0. cbn [app].
  unfold with_stdout. cbn [c_stdin terminal next_ticket callbacks].
  cbv [bind or_raise ret raise].
  destruct (utf8_decode payload) as [text|]; [|reflexivity].
  destruct (loads text _); reflexivity.
Qed.

Lemma loads_dumps value w :
  is_value value = true -> unpaired_strings value = true ->
  loads (json_dumps value) w = Ok value w.
Proof. intros Hv Hu. unfold loads. rewrite json_loads_dumps by assumption. reflexivity. Qed.

Lemma decode_dumps value w :
  is_value value = true -> unpaired_strings value = true ->
  decode_payload (json_dumps value) w = Ok value w.
Proof.
  intros Hv Hu. unfold decode_payload, bind.
  rewrite utf8_decode_ascii by apply json_dumps_ascii. cbn [or_raise ret].
  apply loads_dumps; assumption.
Qed.

(** The frame of [send_chunk] is read back by [get_chunk]. *)
Theorem get_chunk_send_chunk value rest w :
  is_value value = true -> unpaired_strings value = true ->
  c_stdout w = frame value ++ rest ->
  get_chunk w = Ok value (with_stdout rest w).
Proof.
  intros Hv Hu Hin.
  rewrite (get_chunk_frame (format_08x (N.of_nat (length (json_dumps value))))
             (json_dumps value) rest w).
  - apply decode_dumps; assumption.
  - apply zero_pad_nonempty, numeral_nonempty.
  - apply is_hex_zero_pad, is_hex_numeral.
  - symmetry. apply hex_number_format_08x.
  - rewrite Hin. unfold frame, frame_text. cbn [app]. rewrite <- app_assoc. reflexivity.
Qed.

End Codec.

Section DispatchFacts.

Context {callback : Type}.
Variable isprintable : N -> bool.
Variable call : callback -> list json -> M callback unit.
Variable table : gmap (list N) (list json -> M callback json).

Implicit Types w : world callback.

Lemma bind_ok {A B : Type} (m : M callback A) (k : A -> M callback B) w a w' :
  m w = Ok a w' -> bind m k w = k a w'.
Proof. intros H. unfold bind. rewrite H. reflexivity. Qed.

Lemma bind_raise {A B : Type} (m : M callback A) (k : A -> M callback B) w e w' :
  m w = Raise e w' -> bind m k w = Raise e w'.
Proof. intros H. unfold bind. rewrite H. reflexivity. Qed.

Lemma eq_str_same s : eq_str (JStr s) s = true.
Proof. apply bool_decide_eq_true_2. reflexivity. Qed.

Lemma eq_str_other s t : s <> t -> eq_str (JStr s) t = false.
Proof. intros H. apply bool_decide_eq_false_2. exact H. Qed.

(** An invocation is served inside [try] ... [except Exception]. *)
Lemma handle_invoke w w1 ticket op args more :
  get_chunk w = Ok (JList (JStr (py "invoke") :: ticket :: op :: args :: more)) w1 ->
  handle_next_chunk isprintable call table w
  = try_except
      (handler <- subscript table op ;;
       positional <- star args ;;
       response <- handler positional ;;
       reply_ok ticket response)
      (fun ex =>
         join_args args ;;
         match str_exn isprintable ex with
         | Some text => reply_fail ticket (JStr text)
         | None => unmodelled
         end) w1.
Proof.
  intros H. unfold handle_next_chunk. rewrite (bind_ok _ _ _ _ _ H).
  cbn [getitem nth_error or_raise]. unfold bind at 1, ret at 1.
  rewrite eq_str_same. reflexivity.
Qed.

(** A reply first takes its callback out of [callbacks]. *)
Lemma handle_return w w1 ticket status payload more :
  get_chunk w = Ok (JList (JStr (py "return") :: ticket :: status :: payload :: more)) w1 ->
  handle_next_chunk isprintable call table w
  = (cb <- callbacks_pop ticket ;;
     if eq_str status (py "ok") then positional <- star payload ;; call cb positional
     else if eq_str status (py "fail") then raise (PyException payload)
     else raise (AssertionError
                   (Some (JList (JStr (py "return") :: ticket :: status :: payload :: more))))) w1.
Proof.
  intros H. unfold handle_next_chunk. rewrite (bind_ok _ _ _ _ _ H).
  cbn [getitem nth_error or_raise]. unfold bind at 1, ret at 1.
  rewrite eq_str_other by discriminate. rewrite eq_str_same.
  unfold bind at 1, ret at 1. unfold bind. destruct (callbacks_pop ticket w1); reflexivity.
Qed.

Lemma reply_ok_writes ticket response w :
  reply_ok ticket response w = Ok tt (with_written (frame (reply ticket "ok" response)) w).
Proof. apply send_chunk_writes. Qed.

Lemma reply_fail_writes ticket response w :
  reply_fail ticket response w = Ok tt (with_written (frame (reply ticket "fail" response)) w).
Proof. apply send_chunk_writes. Qed.

Lemma subscript_found op handler w :
  table !! op = Some handler -> subscript table (JStr op) w = Ok handler w.
Proof. intros H. unfold subscript. cbn. rewrite H. reflexivity. Qed.

Lemma subscript_missing op w :
  table !! op = None -> subscript table (JStr op) w = Raise (KeyError (JStr op)) w.
Proof. intros H. unfold subscript. cbn. rewrite H. reflexivity. Qed.

(** A handler that returns: the reply carries its result. *)
Lemma serve_returns w w1 w2 ticket op args more handler response :
  get_chunk w = Ok (JList (JStr (py "invoke") :: ticket :: JStr op :: JList args :: more)) w1 ->
  table !! op = Some handler ->
  handler args w1 = Ok response w2 ->
  handle_next_chunk isprintable call table w
  = Ok tt (with_written (frame (reply ticket "ok" response)) w2).
Proof.
  intros Hget Hop Hcall. rewrite (handle_invoke _ _ _ _ _ _ Hget).
  unfold try_except. rewrite (bind_ok _ _ _ _ _ (subscript_found op handler w1 Hop)).
  cbn [star iterate or_raise]. unfold bind at 1, ret at 1.
  rewrite (bind_ok _ _ _ _ _ Hcall). rewrite reply_ok_writes. reflexivity.
Qed.

(** A handler that raises an [Exception]: the reply carries its text,
    once the arguments have been joined for the log. *)
Lemma serve_raises w w1 w2 ticket op args more handler ex text :
  get_chunk w = Ok (JList (JStr (py "invoke") :: ticket :: JStr op :: JList args :: more)) w1 ->
  table !! op = Some handler ->
  handler args w1 = Raise ex w2 ->
  is_Exception ex = true -> str_exn isprintable ex = Some text ->
  forallb is_str args = true ->
  handle_next_chunk isprintable call table w
  = Ok tt (with_written (frame (reply ticket "fail" (JStr text))) w2).
Proof.
  intros Hget Hop Hcall Hex Htext Hargs. rewrite (handle_invoke _ _ _ _ _ _ Hget).
  unfold try_except. rewrite (bind_ok _ _ _ _ _ (subscript_found op handler w1 Hop)).
  cbn [star iterate or_raise]. unfold bind at 1, ret at 1.
  rewrite (bind_raise _ _ _ _ _ Hcall). rewrite Hex.
  unfold bind, join_args. rewrite Hargs. unfold ret. rewrite Htext.
  apply reply_fail_writes.
Qed.

(** No handler under the name: the [KeyError] of the lookup is what the
    reply carries. *)
Lemma serve_unknown w w1 ticket op args more :
  get_chunk w = Ok (JList (JStr (py "invoke") :: ticket :: JStr op :: JList args :: more)) w1 ->
  table !! op = None ->
  forallb is_str args = true ->
  handle_next_chunk isprintable call table w
  = Ok tt (with_written (frame (reply ticket "fail" (JStr (repr_str isprintable op)))) w1).
Proof.
  intros Hget Hop Hargs. rewrite (handle_invoke _ _ _ _ _ _ Hget).
  unfold try_except. rewrite (bind_raise _ _ _ _ _ (subscript_missing op w1 Hop)).
  cbn [is_Exception]. unfold bind, join_args. rewrite Hargs. unfold ret.
  cbn [str_exn py_repr]. apply reply_fail_writes.
Qed.

(** An argument that is no string: joining the arguments for the log
    raises inside the handler of the exception, and nothing is written. *)
Lemma serve_crashes w w1 w2 ticket op args more handler ex :
  get_chunk w = Ok (JList (JStr (py "invoke") :: ticket :: JStr op :: JList args :: more)) w1 ->
  table !! op = Some handler ->
  handler args w1 = Raise ex w2 ->
  is_Exception ex = true ->
  forallb is_str args = false ->
  handle_next_chunk isprintable call table w = Raise TypeError w2.
Proof.
  intros Hget Hop Hcall Hex Hargs. rewrite (handle_invoke _ _ _ _ _ _ Hget).
  unfold try_except. rewrite (bind_ok _ _ _ _ _ (subscript_found op handler w1 Hop)).
  cbn [star iterate or_raise]. unfold bind at 1, ret at 1.
  rewrite (bind_raise _ _ _ _ _ Hcall). rewrite Hex.
  unfold bind, join_args. rewrite Hargs. reflexivity.
Qed.

(** A turn that returns is followed by the next one; a turn that raises
    ends the loop. *)
Lemma pump_continues n w w' :
  handle_next_chunk isprintable call table w = Ok tt w' ->
  pump isprintable call table (S n) w = pump isprintable call table n w'.
Proof. intros H. cbn [pump]. unfold bind. rewrite H. reflexivity. Qed.

Lemma pump_ends n w e w' :
  handle_next_chunk isprintable call table w = Raise e w' ->
  pump isprintable call table (S n) w = Raise e w'.
Proof. intros H. cbn [pump]. unfold bind. rewrite H. reflexivity. Qed.

End DispatchFacts.

Section ReplyFacts.

Context {callback : Type}.
Variable isprintable : N -> bool.
Variable call : callback -> list json -> M callback unit.
Variable table : gmap (list N) (list json -> M callback json).

Implicit Types w : world callback.

(** [get_chunk] reads: whatever it answers, it leaves all but
    [c.stdout] as it was. *)
Lemma get_chunk_reads w :
  match get_chunk w with
  | Ok _ w1 => w1 = with_stdout (c_stdout w1) w
  | Raise _ w1 => w1 = with_stdout (c_stdout w1) w
  | Unmodelled => True
  end.
Proof.
  unfold get_chunk, bind, readline, py_assert, or_raise, read, loads, ret, raise, unmodelled.
  destruct (split_line (c_stdout w)) as [line rest].
  destruct (startswith line [48; 120]); [|reflexivity].
  destruct (endswith_newline line); [|reflexivity].
  destruct (int16 (slice_2_m1 line)) as [n|]; [|reflexivity].
  cbn [c_stdout c_stdin terminal next_ticket callbacks].
  destruct (0 <=? n)%Z; [|destruct (n =? -1)%Z]; cbn [c_stdout c_stdin terminal next_ticket callbacks];
    try reflexivity;
    (destruct (utf8_decode _) as [text|]; [|reflexivity]);
    destruct (json_loads text); reflexivity.
Qed.

Lemma get_chunk_ok_reads w v w1 : get_chunk w = Ok v w1 -> w1 = with_stdout (c_stdout w1) w.
Proof. intros H. pose proof (get_chunk_reads w) as Hr. rewrite H in Hr. exact Hr. Qed.

Lemma pop_found k cb w :
  callbacks w !! k = Some cb -> callbacks_pop (JStr k) w = Ok cb (without_ticket k w).
Proof.
  intros H. unfold callbacks_pop.
  rewrite bool_decide_eq_false_2.
  - cbn [hashable]. rewrite H. reflexivity.
  - intros He. rewrite He, lookup_empty in H. discriminate.
Qed.

Lemma pop_missing k w :
  callbacks w !! k = None -> callbacks_pop (JStr k) w = Raise (KeyError (JStr k)) w.
Proof.
  intros H. unfold callbacks_pop. destruct (bool_decide (callbacks w = ∅)); [reflexivity|].
  cbn [hashable]. rewrite H. reflexivity.
Qed.

(** A ticket is resolved once: the second [pop] finds nothing. *)
Lemma pop_twice k cb w w' :
  callbacks_pop (JStr k) w = Ok cb w' ->
  callbacks_pop (JStr k) w' = Raise (KeyError (JStr k)) w'.
Proof.
  unfold callbacks_pop at 1. destruct (bool_decide (callbacks w = ∅)); [discriminate|].
  cbn [hashable]. destruct (callbacks w !! k) eqn:E; [|discriminate].
  intros [= _ <-]. apply pop_missing. cbn [callbacks]. apply lookup_delete_eq.
Qed.

(** A reply [ok]: the entry is gone when the callback runs, and the
    callback gets the items of the payload. *)
Lemma resolve_ok w w1 k cb payload items more :
  get_chunk w
  = Ok (JList (JStr (py "return") :: JStr k :: JStr (py "ok") :: payload :: more)) w1 ->
  callbacks w1 !! k = Some cb ->
  iterate payload = Some items ->
  handle_next_chunk isprintable call table w = call cb items (without_ticket k w1).
Proof.
  intros Hget Hcb Hitems. rewrite (handle_return _ _ _ _ _ _ _ _ _ Hget).
  rewrite (bind_ok _ _ _ _ _ (pop_found k cb w1 Hcb)). rewrite eq_str_same.
  unfold star. rewrite Hitems. reflexivity.
Qed.

(** A reply [ok] whose payload is not iterable. *)
Lemma resolve_ok_scalar w w1 k cb payload more :
  get_chunk w
  = Ok (JList (JStr (py "return") :: JStr k :: JStr (py "ok") :: payload :: more)) w1 ->
  callbacks w1 !! k = Some cb ->
  iterate payload = None ->
  handle_next_chunk isprintable call table w = Raise TypeError (without_ticket k w1).
Proof.
  intros Hget Hcb Hitems. rewrite (handle_return _ _ _ _ _ _ _ _ _ Hget).
  rewrite (bind_ok _ _ _ _ _ (pop_found k cb w1 Hcb)). rewrite eq_str_same.
  unfold star. rewrite Hitems. reflexivity.
Qed.

(** A reply [fail]: the payload is raised in an [Exception]. *)
Lemma resolve_fail w w1 k cb payload more :
  get_chunk w
  = Ok (JList (JStr (py "return") :: JStr k :: JStr (py "fail") :: payload :: more)) w1 ->
  callbacks w1 !! k = Some cb ->
  handle_next_chunk isprintable call table w
  = Raise (PyException payload) (without_ticket k w1).
Proof.
  intros Hget Hcb. rewrite (handle_return _ _ _ _ _ _ _ _ _ Hget).
  rewrite (bind_ok _ _ _ _ _ (pop_found k cb w1 Hcb)).
  rewrite eq_str_other by discriminate. rewrite eq_str_same. reflexivity.
Qed.

(** A reply for a ticket that is not pending. *)
Lemma resolve_unknown w w1 k status payload more :
  get_chunk w = Ok (JList (JStr (py "return") :: JStr k :: status :: payload :: more)) w1 ->
  callbacks w1 !! k = None ->
  handle_next_chunk isprintable call table w = Raise (KeyError (JStr k)) w1.
Proof.
  intros Hget Hcb. rewrite (handle_return _ _ _ _ _ _ _ _ _ Hget).
  apply (bind_raise _ _ _ _ _ (pop_missing k w1 Hcb)).
Qed.

End ReplyFacts.

Section Tickets.

Context {callback : Type}.
Implicit Types w : world callback.

Lemma invoke_returns on_success op args w :
  invoke on_success op args w
  = Ok (str_int (next_ticket w))
       (with_written (frame (invocation (str_int (next_ticket w)) op args))
                     (registered on_success w)).
Proof.
  unfold invoke, bind. rewrite send_chunk_writes. reflexivity.
Qed.

Lemma pending_below_fresh w : pending_below w -> callbacks w !! str_int (next_ticket w) = None.
Proof.
  intros Hinv. destruct (callbacks w !! str_int (next_ticket w)) eqn:E; [|reflexivity].
  destruct (Hinv _ (mk_is_Some _ _ E)) as (i & Hi & Heq).
  apply str_int_inj in Heq. lia.
Qed.

Lemma pending_below_registered on_success b w :
  pending_below w -> pending_below (with_written b (registered on_success w)).
Proof.
  intros Hinv k. cbn [with_written registered callbacks next_ticket].
  rewrite lookup_insert. destruct (decide (str_int (next_ticket w) = k)) as [<-|Hne].
  - intros _. exists (next_ticket w). split; [lia|reflexivity].
  - intros Hk. destruct (Hinv k Hk) as (i & Hi & ->). exists i. split; [lia|reflexivity].
Qed.

Lemma pending_below_initial (out : list N) (inp : list N) (term : list N) (n : Z) :
  pending_below (World inp out term n (∅ : gmap (list N) callback)).
Proof. intros k [x Hx]. cbn in Hx. rewrite lookup_empty in Hx. discriminate. Qed.

Lemma pending_below_pop k w : pending_below w -> pending_below (without_ticket k w).
Proof.
  intros Hinv k'. cbn [without_ticket callbacks next_ticket]. intros [x Hx].
  apply lookup_delete_Some in Hx as [_ Hx]. apply Hinv. eauto.
Qed.

Lemma tickets_from_succ n count :
  tickets_from n (S count) = str_int n :: tickets_from (n + 1) count.
Proof.
  unfold tickets_from. cbn [seq List.map]. rewrite Z.add_0_r. f_equal.
  rewrite <- seq_shift, map_map. apply map_ext. intros i. f_equal. lia.
Qed.

Lemma tickets_from_elem n count t :
  t ∈ tickets_from n count <-> exists i, (n <= i < n + Z.of_nat count)%Z /\ t = str_int i.
Proof.
  unfold tickets_from. rewrite list_elem_of_In, in_map_iff. split.
  - intros (i & <- & Hi). apply in_seq in Hi. exists (n + Z.of_nat i)%Z. split; [lia|reflexivity].
  - intros (i & Hi & ->). exists (Z.to_nat (i - n)). split; [f_equal; lia|].
    apply in_seq. lia.
Qed.

Lemma tickets_from_NoDup n count : NoDup (tickets_from n count).
Proof.
  revert n. induction count as [|count IH]; intros n; [constructor|].
  rewrite tickets_from_succ. constructor; [|apply IH].
  rewrite tickets_from_elem. intros (i & Hi & Heq). apply str_int_inj in Heq. lia.
Qed.

Lemma invoke_all_run (calls : list (callback * json * list json)) w :
  exists w',
    invoke_all calls w = Ok (tickets_from (next_ticket w) (length calls)) w'
    /\ next_ticket w' = (next_ticket w + Z.of_nat (length calls))%Z
    /\ (forall k, is_Some (callbacks w' !! k)
                  <-> is_Some (callbacks w !! k)
                      \/ k ∈ tickets_from (next_ticket w) (length calls)).
Proof.
  revert w. induction calls as [|[[on_success op] args] calls IH]; intros w.
  - exists w. cbn [invoke_all length ret]. split; [reflexivity|]. split; [lia|].
    intros k. split; [auto|]. intros [H|H]; [exact H|inversion H].
  - set (w1 := with_written (frame (invocation (str_int (next_ticket w)) op args))
                            (registered on_success w)).
    destruct (IH w1) as (w' & Hrun & Hnext & Hdom).
    exists w'. cbn [length]. rewrite tickets_from_succ. split; [|split].
    + cbn [invoke_all]. unfold bind. rewrite invoke_returns. fold w1. rewrite Hrun. reflexivity.
    + rewrite Hnext. cbn [w1 with_written registered next_ticket]. lia.
    + intros k. rewrite Hdom. cbn [w1 with_written registered callbacks next_ticket].
      rewrite lookup_insert, elem_of_cons.
      destruct (decide (str_int (next_ticket w) = k)) as [<-|Hne].
      * split; [intros _; right; left; reflexivity|intros _; left; eauto].
      * split; [intros [H|H]; auto|intros [H|[H|H]]; auto; congruence].
Qed.

Lemma tickets_from_fresh w count :
  pending_below w ->
  forall t, t ∈ tickets_from (next_ticket w) count -> callbacks w !! t = None.
Proof.
  intros Hinv t Ht. apply tickets_from_elem in Ht as (i & Hi & ->).
  destruct (callbacks w !! str_int i) eqn:E; [|reflexivity].
  destruct (Hinv _ (mk_is_Some _ _ E)) as (j & Hj & Heq). apply str_int_inj in Heq. lia.
Qed.

Lemma pending_below_after w w' count :
  pending_below w ->
  next_ticket w' = (next_ticket w + Z.of_nat count)%Z ->
  (forall k, is_Some (callbacks w' !! k)
             <-> is_Some (callbacks w !! k) \/ k ∈ tickets_from (next_ticket w) count) ->
  pending_below w'.
Proof.
  intros Hinv Hnext Hdom k Hk. apply Hdom in Hk as [Hk|Hk].
  - destruct (Hinv k Hk) as (i & Hi & ->). exists i. split; [lia|reflexivity].
  - apply tickets_from_elem in Hk as (i & Hi & ->). exists i. split; [lia|reflexivity].
Qed.

End Tickets.

(** * The frame of a message *)

Lemma lower_hex_digit_char d : d < 16 -> lower_hex (digit_char d) = true.
Proof.
  intros Hd. unfold lower_hex, is_digit, digit_char. destruct (N.ltb_spec d 10).
  - apply orb_true_intro. left. apply andb_true_intro. split; apply N.leb_le; lia.
  - apply orb_true_intro. right. apply andb_true_intro. split; apply N.leb_le; lia.
Qed.

Lemma lower_hex_format_08x n : forallb lower_hex (format_08x n) = true.
Proof.
  unfold format_08x, zero_pad. rewrite forallb_app. apply andb_true_intro. split.
  - induction (8 - length (numeral 16 n))%nat as [|k IH]; [reflexivity|exact IH].
  - rewrite numeral_unfold. apply forallb_forall. intros c Hc.
    apply in_map_iff in Hc as (d & <- & Hd).
    pose proof (Forall_rev_digits 16 n ltac:(lia)) as HF.
    rewrite List.Forall_forall in HF. apply lower_hex_digit_char, HF, Hd.
Qed.

Lemma escaped_letters n : escaped (repeat 97 n) = repeat 97 n.
Proof.
  induction n as [|n IH]; [reflexivity|].
  unfold escaped in *. cbn [repeat List.map List.concat]. rewrite IH. reflexivity.
Qed.

Lemma length_dumps_letters n : length (json_dumps (JStr (repeat 97 n))) = (n + 2)%nat.
Proof.
  cbn [json_dumps]. unfold encode_basestring_ascii. fold (escaped (repeat 97 n)).
  rewrite escaped_letters. cbn [length]. rewrite length_app, repeat_length. cbn [length]. lia.
Qed.

Lemma format_08x_2_32 : format_08x 4294967296 = py "100000000".
Proof. vm_compute. reflexivity. Qed.

(** C1, as amended.  Whatever the message, [send_chunk] returns after it
    has written [0x], at least eight hexadecimal digits in lower case,
    a newline and the payload, which is the UTF-8 encoding of the JSON
    text.  The digits give the number of bytes of the payload; they are
    eight when the payload is shorter than 2^32 bytes. *)
Theorem send_chunk_frame {callback : Type} (value : json) (w : world callback) :
  exists digits payload,
    send_chunk value w = Ok tt (with_written (48 :: 120 :: digits ++ 10 :: payload) w)
    /\ utf8_encode (json_dumps value) = Some payload
    /\ forallb lower_hex digits = true
    /\ hex_number digits = N.of_nat (length payload)
    /\ (8 <= length digits)%nat
    /\ (N.of_nat (length payload) < 4294967296 -> length digits = 8%nat).
Proof.
  exists (format_08x (N.of_nat (length (json_dumps value)))), (json_dumps value).
  split; [apply send_chunk_writes|]. split; [apply utf8_encode_ascii, json_dumps_ascii|].
  split; [apply lower_hex_format_08x|]. split; [apply hex_number_format_08x|].
  split; [unfold format_08x; rewrite length_zero_pad; lia|apply length_format_08x_small].
Qed.

(** C1, as stated, fails on a payload of 2^32 bytes: the header
    [send_chunk] writes for [long_text] is [0x100000000], of nine
    digits. *)
Lemma send_chunk_long_header :
  send_chunk long_text (first_world [])
  = Ok tt (World [] (48 :: 120 :: py "100000000" ++ 10 :: json_dumps long_text) [] 1 ∅)
  /\ length (py "100000000") = 9%nat
  /\ N.of_nat (length (json_dumps long_text)) = 4294967296.
Proof.
  assert (Hlen : N.of_nat (length (json_dumps long_text)) = 4294967296).
  { unfold long_text. rewrite length_dumps_letters, Nat2N.inj_add, N2Nat.id. reflexivity. }
  split; [|split; [reflexivity|exact Hlen]].
  rewrite send_chunk_writes. unfold frame, frame_text. rewrite Hlen, format_08x_2_32.
  reflexivity.
Qed.

(** * The round trip of a frame *)




(** * Failures *)

(** C3, as amended.  An invocation whose arguments are strings and
    whose handler raises an [Exception] with the text [text] is answered
    by the reply [fail] with that text, and the loop goes on with the
    next turn.  A reply [fail] for a pending ticket takes the entry out
    of [callbacks] and raises [Exception(payload)], of the class
    [Exception] itself, whatever the callback is: the callback is not
    called. *)
Theorem failure_propagation {callback : Type} (isprintable : N -> bool)
    (call : callback -> list json -> M callback unit)
    (table : gmap (list N) (list json -> M callback json)) :
  (forall (w w1 w2 : world callback) ticket op args more handler ex text,
      get_chunk w = Ok (JList (JStr (py "invoke") :: ticket :: JStr op :: JList args :: more)) w1 ->
      table !! op = Some handler ->
      handler args w1 = Raise ex w2 ->
      is_Exception ex = true -> str_exn isprintable ex = Some text ->
      forallb is_str args = true ->
      handle_next_chunk isprintable call table w
      = Ok tt (with_written (frame (reply ticket "fail" (JStr text))) w2)
      /\ forall n,
          pump isprintable call table (S n) w
          = pump isprintable call table n
                 (with_written (frame (reply ticket "fail" (JStr text))) w2))
  /\ (forall (w w1 : world callback) k cb payload more,
      get_chunk w
      = Ok (JList (JStr (py "return") :: JStr k :: JStr (py "fail") :: payload :: more)) w1 ->
      callbacks w1 !! k = Some cb ->
      (forall call', handle_next_chunk isprintable call' table w
                     = Raise (PyException payload) (without_ticket k w1))
      /\ class_name (PyException payload) = "Exception"%string
      /\ str_exn isprintable (PyException payload) = Some (py_str isprintable payload)).
Proof.
  split.
  - intros w w1 w2 ticket op args more handler ex text Hget Hop Hcall Hex Htext Hargs.
    pose proof (serve_raises isprintable call table w w1 w2 ticket op args more handler ex text
                  Hget Hop Hcall Hex Htext Hargs) as H.
    split; [exact H|]. intros n. apply pump_continues, H.
  - intros w w1 k cb payload more Hget Hcb. split; [|split; reflexivity].
    intros call'. apply (resolve_fail isprintable call' table w w1 k cb payload more Hget Hcb).
Qed.

(** C3 on the handler [boom], and on the reply that reports its
    failure to the side that waits for ticket 1. *)
Lemma failure_propagation_boom :
  turn (first_world (frame (invocation (py "9") (JStr (py "boom")) [JStr (py "a")])))
  = Ok tt (World [] (frame (reply (JStr (py "9")) "fail" (JStr (py "x")))) [] 1 ∅)
  /\ turn (waiting (frame (reply (JStr (py "1")) "fail" (JStr (py "x")))))
     = Raise (PyException (JStr (py "x"))) (World [] [] [] 2 ∅).
Proof.
  split.
  - apply (proj1 (failure_propagation all_printable (call_client_callback all_printable)
                    scenario_handlers)
             (first_world (frame (invocation (py "9") (JStr (py "boom")) [JStr (py "a")])))
             (first_world []) (first_world []) (JStr (py "9")) (py "boom") [JStr (py "a")] []
             boom (PyException (JStr (py "x"))) (py "x")); vm_compute; reflexivity.
  - apply (proj2 (failure_propagation all_printable (call_client_callback all_printable)
                    scenario_handlers)
             (waiting (frame (reply (JStr (py "1")) "fail" (JStr (py "x")))))
             (waiting []) (py "1") show_selections (JStr (py "x")) []); vm_compute; reflexivity.
Defined.

(** C3, as stated, fails twice.  The error a reply [fail] raises is an
    [Exception], not a [RemoteOperationError]: the program has no such
    class.  And a handler that fails on an argument that is no string
    is not answered: joining the arguments for the log raises
    [TypeError] out of the turn, with nothing written. *)
Lemma failure_not_remote_operation_error :
  turn (waiting (frame (reply (JStr (py "1")) "fail" (JStr (py "x")))))
  = Raise (PyException (JStr (py "x"))) (World [] [] [] 2 ∅)
  /\ class_name (PyException (JStr (py "x"))) = "Exception"%string
  /\ class_name (PyException (JStr (py "x"))) <> "RemoteOperationError"%string
  /\ turn (first_world (frame (invocation (py "9") (JStr (py "boom")) [JInt 1])))
     = Raise TypeError (first_world []).
Proof. vm_compute. repeat split; try reflexivity. discriminate. Qed.

(** * Routing *)

(** C4.  The invocation of [echo] with ticket 5 and the argument [hi],
    under a table whose [echo] returns its first argument, makes the
    dispatcher write the reply [ok] with [hi]: the frame
    [0x0000001b] and the text of the list. *)
Theorem dispatch_routing {callback : Type} (isprintable : N -> bool)
    (call : callback -> list json -> M callback unit)
    (table : gmap (list N) (list json -> M callback json))
    (handler : list json -> M callback json) (w w1 : world callback) :
  get_chunk w = Ok echo_call w1 ->
  table !! py "echo" = Some handler ->
  (forall a more w', handler (a :: more) w' = Ok a w') ->
  handle_next_chunk isprintable call table w
  = Ok tt (with_written (frame (reply (JStr (py "5")) "ok" (JStr (py "hi")))) w1)
  /\ frame (reply (JStr (py "5")) "ok" (JStr (py "hi")))
     = py "0x0000001b" ++ 10 :: dq "['return', '5', 'ok', 'hi']".
Proof.
  intros Hget Hop Hecho. split; [|vm_compute; reflexivity].
  apply (serve_returns isprintable call table w w1 w1 (JStr (py "5")) (py "echo")
           [JStr (py "hi")] [] handler (JStr (py "hi")) Hget Hop).
  apply Hecho.
Qed.

(** C4 on the frame of the invocation and the handler [echo]. *)
Lemma dispatch_routing_echo :
  turn (first_world (frame echo_call))
  = Ok tt (World [] (frame (reply (JStr (py "5")) "ok" (JStr (py "hi")))) [] 1 ∅).
Proof.
  apply (dispatch_routing all_printable (call_client_callback all_printable) scenario_handlers
           echo (first_world (frame echo_call)) (first_world [])).
  - vm_compute. reflexivity.
  - vm_compute. reflexivity.
  - reflexivity.
Defined.

(** * Tickets that are not pending *)

(** C5, as amended.  A reply whose ticket is a string that is not
    pending makes the turn raise [KeyError] with nothing written and
    [callbacks] as it was, and the loop ends with it.  A ticket that
    [callbacks.pop] has taken is not pending: a second [pop] raises
    [KeyError]. *)
Theorem unknown_ticket_is_fatal {callback : Type} (isprintable : N -> bool)
    (call : callback -> list json -> M callback unit)
    (table : gmap (list N) (list json -> M callback json)) :
  (forall (w w1 : world callback) k status payload more,
      get_chunk w = Ok (JList (JStr (py "return") :: JStr k :: status :: payload :: more)) w1 ->
      callbacks w1 !! k = None ->
      handle_next_chunk isprintable call table w = Raise (KeyError (JStr k)) w1
      /\ c_stdin w1 = c_stdin w
      /\ callbacks w1 = callbacks w
      /\ (forall n, pump isprintable call table (S n) w = Raise (KeyError (JStr k)) w1))
  /\ (forall (w w' : world callback) k cb,
      callbacks_pop (JStr k) w = Ok cb w' ->
      callbacks w' !! k = None
      /\ callbacks_pop (JStr k) w' = Raise (KeyError (JStr k)) w').
Proof.
  split.
  - intros w w1 k status payload more Hget Hcb.
    pose proof (resolve_unknown isprintable call table w w1 k status payload more Hget Hcb) as H.
    pose proof (get_chunk_ok_reads w _ w1 Hget) as Hw1.
    split; [exact H|]. split; [rewrite Hw1; reflexivity|]. split; [rewrite Hw1; reflexivity|].
    intros n. apply pump_ends, H.
  - intros w w' k cb Hpop. pose proof (pop_twice k cb w w' Hpop) as H. split; [|exact H].
    unfold callbacks_pop in H. destruct (bool_decide (callbacks w' = ∅)) eqn:E.
    + apply bool_decide_eq_true in E. rewrite E. apply lookup_empty.
    + cbn [hashable] in H. destruct (callbacks w' !! k); [discriminate|reflexivity].
Qed.

(** C5 on a reply for ticket 7 while ticket 1 is pending, and on a
    second [pop] of ticket 1. *)
Lemma unknown_ticket_is_fatal_scenario :
  turn (waiting (frame (reply (JStr (py "7")) "ok" (JList []))))
  = Raise (KeyError (JStr (py "7"))) (waiting [])
  /\ callbacks_pop (JStr (py "1")) (World [] [] [] 2 (∅ : gmap (list N) client_callback))
     = Raise (KeyError (JStr (py "1"))) (World [] [] [] 2 ∅).
Proof.
  split.
  - apply (proj1 (unknown_ticket_is_fatal all_printable (call_client_callback all_printable)
                    scenario_handlers)
             (waiting (frame (reply (JStr (py "7")) "ok" (JList [])))) (waiting [])
             (py "7") (JStr (py "ok")) (JList []) []); vm_compute; reflexivity.
  - apply (proj2 (unknown_ticket_is_fatal all_printable (call_client_callback all_printable)
                    scenario_handlers)
             (waiting []) (World [] [] [] 2 ∅) (py "1") show_selections).
    vm_compute. reflexivity.
Defined.

(** C5, as stated, fails on the class of the error: the turn raises the
    [KeyError] of [callbacks.pop]; the program has no
    [ProtocolViolationError] and no [UnknownTicketError]. *)
Lemma unknown_ticket_raises_key_error :
  turn (waiting (frame (reply (JStr (py "7")) "ok" (JList []))))
  = Raise (KeyError (JStr (py "7"))) (waiting [])
  /\ class_name (KeyError (JStr (py "7"))) = "KeyError"%string
  /\ class_name (KeyError (JStr (py "7"))) <> "ProtocolViolationError"%string
  /\ class_name (KeyError (JStr (py "7"))) <> "UnknownTicketError"%string.
Proof. vm_compute. repeat split; try reflexivity; discriminate. Qed.

(** * Operations without a handler *)

Lemma repr_str_head isprintable s :
  exists q t, repr_str isprintable s = q :: t /\ (q = 34 \/ q = 39).
Proof.
  unfold repr_str. destruct (mem_char 39 s && negb (mem_char 34 s)); eauto.
Qed.

(** C6, as amended.  An invocation whose arguments are strings and
    whose operation has no handler is answered by the reply [fail] with
    the text of the [KeyError] of the lookup, which is [repr] of the
    name and never the text [unknown operation]; the loop goes on with
    the next turn. *)
Theorem unknown_operation {callback : Type} (isprintable : N -> bool)
    (call : callback -> list json -> M callback unit)
    (table : gmap (list N) (list json -> M callback json))
    (w w1 : world callback) ticket op args more :
  get_chunk w = Ok (JList (JStr (py "invoke") :: ticket :: JStr op :: JList args :: more)) w1 ->
  table !! op = None ->
  forallb is_str args = true ->
  handle_next_chunk isprintable call table w
  = Ok tt (with_written (frame (reply ticket "fail" (JStr (repr_str isprintable op)))) w1)
  /\ repr_str isprintable op <> py "unknown operation"
  /\ forall n,
      pump isprintable call table (S n) w
      = pump isprintable call table n
             (with_written (frame (reply ticket "fail" (JStr (repr_str isprintable op)))) w1).
Proof.
  intros Hget Hop Hargs.
  pose proof (serve_unknown isprintable call table w w1 ticket op args more Hget Hop Hargs) as H.
  split; [exact H|]. split.
  - destruct (repr_str_head isprintable op) as (q & t & -> & Hq).
    intros Heq. vm_compute in Heq. injection Heq as Heq _. destruct Hq; subst; discriminate.
  - intros n. apply pump_continues, H.
Qed.

(** C6 on the operation [frob]. *)
Lemma unknown_operation_frob :
  turn (first_world (frame frob_call))
  = Ok tt (World [] (frame (reply (JStr (py "5")) "fail" (JStr (py "'frob'")))) [] 1 ∅).
Proof.
  apply (unknown_operation all_printable (call_client_callback all_printable) scenario_handlers
           (first_world (frame frob_call)) (first_world []) (JStr (py "5")) (py "frob")
           [JStr (py "hi")] []); vm_compute; reflexivity.
Defined.

(** C6, as stated, fails on the text of the reply: for [frob] it is
    ['frob'], between apostrophes, not [unknown operation].  With an
    argument that is no string the turn raises [TypeError] and writes
    nothing. *)
Lemma unknown_operation_text :
  turn (first_world (frame frob_call))
  = Ok tt (World [] (frame (reply (JStr (py "5")) "fail" (JStr (py "'frob'")))) [] 1 ∅)
  /\ py "'frob'" <> py "unknown operation"
  /\ turn (first_world (frame (invocation (py "5") (JStr (py "frob")) [JInt 1])))
     = Raise TypeError (first_world []).
Proof. vm_compute. repeat split; try reflexivity. discriminate. Qed.

(** * Replies [ok] *)

(** C7, as amended.  A reply [ok] for a pending ticket takes the entry
    out of [callbacks] first; the callback then runs on the items of
    the payload as its positional arguments, and a payload that is not
    iterable raises [TypeError] in its place. *)
Theorem ok_resolution {callback : Type} (isprintable : N -> bool)
    (call : callback -> list json -> M callback unit)
    (table : gmap (list N) (list json -> M callback json))
    (w w1 : world callback) k cb payload more :
  get_chunk w
  = Ok (JList (JStr (py "return") :: JStr k :: JStr (py "ok") :: payload :: more)) w1 ->
  callbacks w1 !! k = Some cb ->
  handle_next_chunk isprintable call table w
  = match iterate payload with
    | Some items => call cb items (without_ticket k w1)
    | None => Raise TypeError (without_ticket k w1)
    end
  /\ callbacks (without_ticket k w1) !! k = None.
Proof.
  intros Hget Hcb. split.
  - destruct (iterate payload) as [items|] eqn:Hitems.
    + apply (resolve_ok isprintable call table w w1 k cb payload items more Hget Hcb Hitems).
    + apply (resolve_ok_scalar isprintable call table w w1 k cb payload more Hget Hcb Hitems).
  - cbn [without_ticket callbacks]. apply lookup_delete_eq.
Qed.

(** C7 on the reply to the program's [select]: [show_selections] runs
    on the two items of the payload, in a world where ticket 1 is gone. *)
Lemma ok_resolution_selections :
  turn (waiting (frame selections_reply))
  = call_client_callback all_printable show_selections [JStr (py "ok"); JStr (py "sels")]
      (World [] [] [] 2 ∅)
  /\ callbacks (without_ticket (py "1") (waiting [])) !! py "1" = None.
Proof.
  apply (ok_resolution all_printable (call_client_callback all_printable) scenario_handlers
           (waiting (frame selections_reply)) (waiting []) (py "1") show_selections
           (JList [JStr (py "ok"); JStr (py "sels")]) []);
    vm_compute; reflexivity.
Defined.

(** C7, as stated, fails on what the callback is called with.  For the
    payload [["ok", "sels"]] the turn prints the two items and leaves,
    as [show_selections("ok", "sels")] does, where the call on the
    payload as one value raises [TypeError]; and for the payload [5],
    one value, the callback is not called at all. *)
Lemma payload_is_spread :
  turn (waiting (frame selections_reply))
  = Raise (SystemExit 0) (World [] [] (py "ok" ++ 10 :: py "sels" ++ [10]) 2 ∅)
  /\ call_client_callback all_printable show_selections
       [JList [JStr (py "ok"); JStr (py "sels")]] (World [] [] [] 2 ∅)
     = Raise TypeError (World [] [] [] 2 ∅)
  /\ turn (waiting (frame (reply (JStr (py "1")) "ok" (JInt 5))))
     = Raise TypeError (World [] [] [] 2 ∅).
Proof. vm_compute. repeat split; reflexivity. Qed.

(** * Fresh tickets *)

(** C8.  Calls of [invoke] one after the other all return, with the
    texts of the numbers from the counter on as their tickets: as many
    as the calls, no two the same, and all pending at the end.  In a
    world where every pending ticket is below the counter, none of them
    was pending before, and the world at the end is such a world
    again. *)
Theorem ticket_uniqueness {callback : Type} (calls : list (callback * json * list json))
    (w : world callback) :
  exists w',
    invoke_all calls w = Ok (tickets_from (next_ticket w) (length calls)) w'
    /\ length (tickets_from (next_ticket w) (length calls)) = length calls
    /\ NoDup (tickets_from (next_ticket w) (length calls))
    /\ (forall k, is_Some (callbacks w' !! k)
                  <-> is_Some (callbacks w !! k)
                      \/ k ∈ tickets_from (next_ticket w) (length calls))
    /\ (pending_below w ->
        (forall t, t ∈ tickets_from (next_ticket w) (length calls) -> callbacks w !! t = None)
        /\ pending_below w').
Proof.
  destruct (invoke_all_run calls w) as (w' & Hrun & Hnext & Hdom).
  exists w'. split; [exact Hrun|]. split.
  { unfold tickets_from. rewrite length_map, length_seq. reflexivity. }
  split; [apply tickets_from_NoDup|]. split; [exact Hdom|].
  intros Hinv. split; [apply tickets_from_fresh, Hinv|].
  eapply pending_below_after; eassumption.
Qed.

(** C8 on three calls from the program's first world: the tickets are
    1, 2 and 3. *)
Lemma ticket_uniqueness_three :
  exists w',
    invoke_all [(show_selections, JStr (py "select"), []);
                (show_selections, JStr (py "select"), [JBool true]);
                (show_selections, JStr (py "download"), [])] (first_world [])
    = Ok (tickets_from 1 3) w'
    /\ length (tickets_from 1 3) = 3%nat
    /\ NoDup (tickets_from 1 3)
    /\ (forall k, is_Some (callbacks w' !! k)
                  <-> is_Some (callbacks (first_world []) !! k) \/ k ∈ tickets_from 1 3)
    /\ (pending_below (first_world []) ->
        (forall t, t ∈ tickets_from 1 3 -> callbacks (first_world []) !! t = None)
        /\ pending_below w').
Proof.
  exact (ticket_uniqueness
           [(show_selections, JStr (py "select"), []);
            (show_selections, JStr (py "select"), [JBool true]);
            (show_selections, JStr (py "download"), [])] (first_world [])).
Defined.

(** * Headers of any width *)

(** C9.  A header of any positive number of hexadecimal digits between
    [0x] and the newline is read as the length of the payload: that
    many bytes are taken from the stream and decoded, and the rest is
    left. *)
Theorem lenient_header {callback : Type} (ds payload rest : list N) (w : world callback) :
  ds <> [] -> forallb is_hex ds = true ->
  N.of_nat (length payload) = hex_number ds ->
  c_stdout w = 48 :: 120 :: ds ++ 10 :: payload ++ rest ->
  get_chunk w = decode_payload payload (with_stdout rest w).
Proof. apply get_chunk_frame. Qed.

(** C9 on a header of one digit and on one of twelve. *)
Lemma lenient_header_short_and_long :
  get_chunk (first_world (py "0x5" ++ 10 :: py "[1,2]" ++ py "tail"))
  = Ok (JList [JInt 1; JInt 2]) (first_world (py "tail"))
  /\ get_chunk (first_world (py "0x00000000000A" ++ 10 :: py "[1, 2, 34]"))
     = Ok (JList [JInt 1; JInt 2; JInt 34]) (first_world []).
Proof.
  split.
  - apply (lenient_header (py "5") (py "[1,2]") (py "tail")
             (first_world (py "0x5" ++ 10 :: py "[1,2]" ++ py "tail")));
      vm_compute; (reflexivity || discriminate).
  - apply (lenient_header (py "00000000000A") (py "[1, 2, 34]") []
             (first_world (py "0x00000000000A" ++ 10 :: py "[1, 2, 34]")));
      vm_compute; (reflexivity || discriminate).
Defined.

(** * The version of the API *)

(** C10.  [do_select_api_version] returns [2.5] whatever the server
    proposes, so that any two proposals get the same answer; it is the
    handler [handlers] holds for [select-api-version]. *)
Theorem select_api_version_constant {callback : Type}
    (do_confirm_keys : list json -> M callback json) (a b : json) (w : world callback) :
  do_select_api_version a w = Ok (JStr (py "2.5")) w
  /\ do_select_api_version a w = do_select_api_version b w
  /\ exists handler,
      handlers do_confirm_keys !! py "select-api-version" = Some handler
      /\ handler [a] w = Ok (JStr (py "2.5")) w
      /\ handler [a] w = handler [b] w.
Proof.
  split; [reflexivity|]. split; [reflexivity|].
  exists (apply1 do_select_api_version). split; [|split; reflexivity].
  unfold handlers. apply lookup_insert_eq.
Qed.

(** * Further properties of the client *)

(** X1.  The text [json.dumps] writes for a value Python can build,
    none of whose strings has a high surrogate followed by a low one,
    is read back by [json.loads] as that value. *)
Theorem json_text_round_trip (v : json) :
  is_value v = true -> unpaired_strings v = true ->
  json_loads (json_dumps v) = Parsed v [].
Proof. apply json_loads_dumps. Qed.

(** X1 on the invocation the program sends. *)
Lemma json_text_round_trip_select : json_loads (json_dumps select_call) = Parsed select_call [].
Proof. apply (json_text_round_trip select_call); vm_compute; reflexivity. Defined.

(** X2.  The text [json.dumps] writes is ASCII, so that the number of
    its characters, which [send_chunk] puts in the header, is the
    number of the bytes of its UTF-8 encoding. *)
Theorem json_dumps_is_ascii (v : json) :
  ascii_only (json_dumps v)
  /\ utf8_encode (json_dumps v) = Some (json_dumps v)
  /\ utf8_decode (json_dumps v) = Some (json_dumps v).
Proof.
  pose proof (json_dumps_ascii v) as H.
  split; [exact H|]. split; [apply utf8_encode_ascii, H|apply utf8_decode_ascii, H].
Qed.


(** X4.  [invoke] returns the text of the counter as the ticket, after
    it has moved the counter on by one, stored the callback under the
    ticket and written the frame of the invocation. *)
Theorem invoke_registers {callback : Type} (on_success : callback) (op : json)
    (args : list json) (w : world callback) :
  exists w',
    invoke on_success op args w = Ok (str_int (next_ticket w)) w'
    /\ next_ticket w' = (next_ticket w + 1)%Z
    /\ callbacks w' = <[str_int (next_ticket w) := on_success]> (callbacks w)
    /\ c_stdin w' = c_stdin w ++ frame (invocation (str_int (next_ticket w)) op args)
    /\ c_stdout w' = c_stdout w.
Proof.
  eexists. split; [apply invoke_returns|]. repeat split; reflexivity.
Qed.

(** X5.  An invocation with an argument that is no string, whose
    handler raises an [Exception], is not answered: joining the
    arguments for the line of the log raises [TypeError] out of the
    turn, nothing is written after the handler, and the loop ends. *)
Theorem log_line_raises {callback : Type} (isprintable : N -> bool)
    (call : callback -> list json -> M callback unit)
    (table : gmap (list N) (list json -> M callback json))
    (w w1 w2 : world callback) ticket op args more handler ex :
  get_chunk w = Ok (JList (JStr (py "invoke") :: ticket :: JStr op :: JList args :: more)) w1 ->
  table !! op = Some handler ->
  handler args w1 = Raise ex w2 ->
  is_Exception ex = true ->
  forallb is_str args = false ->
  handle_next_chunk isprintable call table w = Raise TypeError w2
  /\ forall n, pump isprintable call table (S n) w = Raise TypeError w2.
Proof.
  intros Hget Hop Hcall Hex Hargs.
  pose proof (serve_crashes isprintable call table w w1 w2 ticket op args more handler ex
                Hget Hop Hcall Hex Hargs) as H.
  split; [exact H|]. intros n. apply pump_ends, H.
Qed.

(** X5 on the handler [boom] and the argument 1. *)
Lemma log_line_raises_boom :
  turn (first_world (frame (invocation (py "9") (JStr (py "boom")) [JInt 1])))
  = Raise TypeError (first_world [])
  /\ forall n,
      pump all_printable (call_client_callback all_printable) scenario_handlers (S n)
           (first_world (frame (invocation (py "9") (JStr (py "boom")) [JInt 1])))
      = Raise TypeError (first_world []).
Proof.
  apply (log_line_raises all_printable (call_client_callback all_printable) scenario_handlers
           (first_world (frame (invocation (py "9") (JStr (py "boom")) [JInt 1])))
           (first_world []) (first_world []) (JStr (py "9")) (py "boom") [JInt 1] []
           boom (PyException (JStr (py "x")))); vm_compute; reflexivity.
Defined.

(** * UTF-8 beyond ASCII *)

Lemma land_low a b k : b < 2 ^ k -> N.land (a * 2 ^ k + b) (N.ones k) = b.
Proof.
  intros Hb. rewrite N.land_ones.
  rewrite N.add_comm, N.Div0.mod_add. apply N.mod_small, Hb.
Qed.

Lemma lead2 c :
  128 <= c < 2048 ->
  N.lor 192 (N.shiftr c 6) = 192 + c / 64.
Proof.
  intros Hc. rewrite N.shiftr_div_pow2. change (2 ^ 6) with 64.
  change 192 with (6 * 2 ^ 5). apply lor_pow2_add.
  change (2 ^ 5) with 32. apply N.Div0.div_lt_upper_bound. lia.
Qed.

Lemma lead3 c : c < 65536 -> N.lor 224 (N.shiftr c 12) = 224 + c / 4096.
Proof.
  intros Hc. rewrite N.shiftr_div_pow2. change (2 ^ 12) with 4096.
  change 224 with (14 * 2 ^ 4). apply lor_pow2_add.
  change (2 ^ 4) with 16. apply N.Div0.div_lt_upper_bound. lia.
Qed.

Lemma lead4 c : c < 1114112 -> N.lor 240 (N.shiftr c 18) = 240 + c / 262144.
Proof.
  intros Hc. rewrite N.shiftr_div_pow2. change (2 ^ 18) with 262144.
  change 240 with (30 * 2 ^ 3). apply lor_pow2_add.
  change (2 ^ 3) with 8. apply N.Div0.div_lt_upper_bound. lia.
Qed.

Lemma trail x : N.lor 128 (N.land x 63) = 128 + x mod 64.
Proof.
  change 63 with (N.ones 6). rewrite N.land_ones. change (2 ^ 6) with 64.
  change 128 with (2 * 2 ^ 6). apply lor_pow2_add. apply N.mod_lt. lia.
Qed.

Lemma trail_cont y : y < 64 -> is_cont (128 + y) = true.
Proof.
  intros Hy. unfold is_cont. apply andb_true_intro. split; apply N.leb_le; lia.
Qed.

Lemma trail_low y : y < 64 -> N.land (128 + y) 63 = y.
Proof. intros Hy. change 63 with (N.ones 6). apply (land_low 2 y 6 Hy). Qed.

Lemma lead2_low x : x < 32 -> N.land (192 + x) 31 = x.
Proof. intros Hx. change 31 with (N.ones 5). apply (land_low 6 x 5 Hx). Qed.

Lemma lead3_low x : x < 16 -> N.land (224 + x) 15 = x.
Proof. intros Hx. change 15 with (N.ones 4). apply (land_low 14 x 4 Hx). Qed.

Lemma lead4_low x : x < 8 -> N.land (240 + x) 7 = x.
Proof. intros Hx. change 7 with (N.ones 3). apply (land_low 30 x 3 Hx). Qed.

Lemma utf8_char_round_trip c bs r :
  utf8_encode_char c = Some bs ->
  utf8_decode (bs ++ r) = option_map (cons c) (utf8_decode r).
Proof.
  unfold utf8_encode_char.
  destruct (N.ltb_spec c 128) as [H1|H1].
  { intros [= <-]. cbn [app utf8_decode]. destruct (N.ltb_spec c 128); [reflexivity|lia]. }
  destruct (N.ltb_spec c 2048) as [H2|H2].
  { intros [= <-]. rewrite lead2, trail by lia.
    pose proof (N.div_mod c 64 ltac:(lia)) as Hdm.
    assert (Hq : c / 64 < 32) by (apply N.Div0.div_lt_upper_bound; lia).
    assert (Hq2 : 2 <= c / 64) by (apply N.div_le_lower_bound; lia).
    assert (Hr : c mod 64 < 64) by (apply N.mod_lt; lia).
    cbn [app utf8_decode].
    destruct (N.ltb_spec (192 + c / 64) 128); [lia|].
    destruct (N.leb_spec 194 (192 + c / 64)); [|lia].
    destruct (N.leb_spec (192 + c / 64) 223); [|lia]. cbn [andb].
    rewrite trail_cont by exact Hr. rewrite trail_low by exact Hr.
    rewrite lead2_low by exact Hq.
    rewrite N.shiftl_mul_pow2, lor_pow2_add by exact Hr.
    change (2 ^ 6) with 64. replace (c / 64 * 64 + c mod 64) with c by lia. reflexivity. }
  destruct (N.ltb_spec c 65536) as [H3|H3].
  { destruct (N.leb_spec 55296 c) as [Hs1|Hs1]; [destruct (N.leb_spec c 57343) as [Hs2|Hs2]|];
      cbn [andb]; [discriminate| |].
    all: intros [= <-]; rewrite lead3, !trail by lia.
    all: rewrite N.shiftr_div_pow2; change (2 ^ 6) with 64.
    all: pose proof (N.div_mod c 64 ltac:(lia)) as Hdm;
      pose proof (N.div_mod (c / 64) 64 ltac:(lia)) as Hdm2;
      assert (Hq : c / 4096 < 16) by (apply N.Div0.div_lt_upper_bound; lia);
      assert (Hr : c mod 64 < 64) by (apply N.mod_lt; lia);
      assert (Hr2 : (c / 64) mod 64 < 64) by (apply N.mod_lt; lia);
      assert (Hqq : c / 64 / 64 = c / 4096) by (rewrite N.Div0.div_div; reflexivity).
    all: cbn [app utf8_decode].
    all: destruct (N.ltb_spec (224 + c / 4096) 128); [lia|].
    all: destruct (N.leb_spec 194 (224 + c / 4096)); [|lia].
    all: destruct (N.leb_spec (224 + c / 4096) 223); [lia|]; cbn [andb].
    all: destruct (N.leb_spec 224 (224 + c / 4096)); [|lia].
    all: destruct (N.leb_spec (224 + c / 4096) 239); [|lia]; cbn [andb].
    all: rewrite !trail_cont by assumption; rewrite !trail_low by assumption.
    all: rewrite lead3_low by exact Hq.
    all: rewrite !N.shiftl_mul_pow2.
    all: rewrite (lor_pow2_add ((c / 64) mod 64) (c mod 64) 6) by exact Hr.
    all: rewrite lor_pow2_add by (change (2 ^ 6) with 64; change (2 ^ 12) with 4096; lia).
    all: change (2 ^ 6) with 64; change (2 ^ 12) with 4096.
    all: replace (c / 4096 * 4096 + ((c / 64) mod 64 * 64 + c mod 64)) with c by lia.
    all: cbn [andb].
    all: destruct (N.leb_spec 2048 c); [|lia]; cbn [andb].
    - destruct (N.leb_spec 55296 c); [|lia]. destruct (N.leb_spec c 57343); [lia|]. reflexivity.
    - destruct (N.leb_spec 55296 c); [lia|]. reflexivity. }
  destruct (N.ltb_spec c 1114112) as [H4|H4]; [|discriminate].
  intros [= <-]. rewrite lead4, !trail by lia.
  rewrite !N.shiftr_div_pow2. change (2 ^ 6) with 64. change (2 ^ 12) with 4096.
  pose proof (N.div_mod c 64 ltac:(lia)) as Hdm.
  pose proof (N.div_mod (c / 64) 64 ltac:(lia)) as Hdm2.
  pose proof (N.div_mod (c / 4096) 64 ltac:(lia)) as Hdm3.
  assert (Hq5 : c / 262144 < 5) by (apply N.Div0.div_lt_upper_bound; lia).
  assert (Hq : c / 262144 < 8) by lia.
  assert (Hr : c mod 64 < 64) by (apply N.mod_lt; lia).
  assert (Hr2 : (c / 64) mod 64 < 64) by (apply N.mod_lt; lia).
  assert (Hr3 : (c / 4096) mod 64 < 64) by (apply N.mod_lt; lia).
  assert (Hqq : c / 64 / 64 = c / 4096) by (rewrite N.Div0.div_div; reflexivity).
  assert (Hqq2 : c / 4096 / 64 = c / 262144) by (rewrite N.Div0.div_div; reflexivity).
  cbn [app utf8_decode].
  destruct (N.ltb_spec (240 + c / 262144) 128); [lia|].
  destruct (N.leb_spec 194 (240 + c / 262144)); [|lia].
  destruct (N.leb_spec (240 + c / 262144) 223); [lia|]; cbn [andb].
  destruct (N.leb_spec 224 (240 + c / 262144)); [|lia].
  destruct (N.leb_spec (240 + c / 262144) 239); [lia|]; cbn [andb].
  destruct (N.leb_spec 240 (240 + c / 262144)); [|lia].
  destruct (N.leb_spec (240 + c / 262144) 244); [|lia]; cbn [andb].
  rewrite !trail_cont by assumption; rewrite !trail_low by assumption.
  rewrite lead4_low by exact Hq.
  rewrite !N.shiftl_mul_pow2.
  rewrite (lor_pow2_add ((c / 64) mod 64) (c mod 64) 6) by exact Hr.
  rewrite (lor_pow2_add ((c / 4096) mod 64) _ 12)
    by (change (2 ^ 6) with 64; change (2 ^ 12) with 4096; lia).
  rewrite lor_pow2_add
    by (change (2 ^ 6) with 64; change (2 ^ 12) with 4096; change (2 ^ 18) with 262144; lia).
  change (2 ^ 6) with 64; change (2 ^ 12) with 4096; change (2 ^ 18) with 262144.
  replace (c / 262144 * 262144 + ((c / 4096) mod 64 * 4096 + ((c / 64) mod 64 * 64 + c mod 64)))
    with c by lia.
  cbn [andb]. destruct (N.leb_spec 65536 c); [|lia]. destruct (N.ltb_spec c 1114112); [|lia].
  reflexivity.
Qed.

Lemma utf8_decode_encode s b : utf8_encode s = Some b -> utf8_decode b = Some s.
Proof.
  revert b. induction s as [|c s IH]; intros b.
  - intros [= <-]. reflexivity.
  - cbn [utf8_encode]. destruct (utf8_encode_char c) as [bs|] eqn:Hc; [|discriminate].
    destruct (utf8_encode s) as [r|] eqn:Hs; [|discriminate]. intros [= <-].
    rewrite (utf8_char_round_trip c bs r Hc), (IH r eq_refl). reflexivity.
Qed.

(** * Headers and payloads at the edge *)

Section CodecEdges.

Context {callback : Type}.
Implicit Types w : world callback.

(** A header line that passes the two [assert]s and gives the length
    [n]: [get_chunk] goes on with [read(n)] on what follows the line. *)
Lemma get_chunk_length line body n w :
  split_line (c_stdout w) = (line, body) ->
  startswith line [48; 120] = true -> endswith_newline line = true ->
  int16 (slice_2_m1 line) = Some n ->
  get_chunk w = (raw <- read n ;; decode_payload raw) (with_stdout body w).
Proof.
  intros Hline Hstart Hend Hint.
  unfold get_chunk, bind at 1, readline. rewrite Hline. cbv iota beta.
  unfold bind at 1, py_assert. rewrite Hstart. unfold ret at 1.
  unfold bind at 1. rewrite Hend. unfold ret at 1.
  unfold bind at 1. rewrite Hint. cbn [or_raise]. unfold ret at 1.
  unfold with_stdout, decode_payload, bind, read.
  cbn [c_stdout c_stdin terminal next_ticket callbacks].
  destruct (0 <=? n)%Z; [|destruct (n =? -1)%Z]; try reflexivity.
  - destruct (or_raise _ _ _); try reflexivity. destruct (loads _ _); reflexivity.
  - destruct (or_raise _ _ _); try reflexivity. destruct (loads _ _); reflexivity.
Qed.

Lemma split_line_header ds body :
  forallb is_hex ds = true ->
  split_line (48 :: 120 :: ds ++ 10 :: body) = (48 :: 120 :: ds ++ [10], body).
Proof.
  intros H. cbn [split_line]. change (48 =? 10) with false. change (120 =? 10) with false.
  cbv iota. rewrite split_line_digits by exact H. reflexivity.
Qed.

Lemma endswith_newline_header X : endswith_newline (48 :: 120 :: X ++ [10]) = true.
Proof. change (48 :: 120 :: X ++ [10]) with ((48 :: 120 :: X) ++ [10]). apply endswith_newline_app. Qed.

Lemma get_chunk_header ds body w :
  ds <> [] -> forallb is_hex ds = true ->
  c_stdout w = 48 :: 120 :: ds ++ 10 :: body ->
  get_chunk w
  = (raw <- read (Z.of_N (hex_number ds)) ;; decode_payload raw) (with_stdout body w).
Proof.
  intros Hne Hhex Hin.
  apply (get_chunk_length (48 :: 120 :: ds ++ [10])).
  - rewrite Hin. apply split_line_header, Hhex.
  - reflexivity.
  - apply endswith_newline_header.
  - rewrite slice_header. apply int16_run; assumption.
Qed.

(** A header with a minus sign is no error of the two [assert]s. *)
Lemma get_chunk_minus ds body w :
  ds <> [] -> forallb is_hex ds = true ->
  c_stdout w = 48 :: 120 :: 45 :: ds ++ 10 :: body ->
  get_chunk w
  = (raw <- read (- Z.of_N (hex_number ds)) ;; decode_payload raw) (with_stdout body w).
Proof.
  intros Hne Hhex Hin.
  apply (get_chunk_length (48 :: 120 :: (45 :: ds) ++ [10])).
  - rewrite Hin. cbn [split_line app]. change (48 =? 10) with false.
    change (120 =? 10) with false. change (45 =? 10) with false. cbv iota.
    rewrite split_line_digits by exact Hhex. reflexivity.
  - reflexivity.
  - apply endswith_newline_header.
  - rewrite slice_header. unfold int16. cbn [lstrip]. change (is_space 45) with false. cbv iota.
    change (45 =? 45) with true. cbv iota. rewrite int16_unsigned_run by assumption. reflexivity.
Qed.

Lemma read_all (n : Z) (s : list N) w :
  (Z.of_nat (length s) <= n)%Z -> c_stdout w = s ->
  read n w = Ok s (with_stdout [] w).
Proof.
  intros Hn Hs. unfold read. destruct (Z.leb_spec 0 n) as [_|]; [|lia].
  rewrite Hs. rewrite firstn_all2 by lia. rewrite skipn_all2 by lia. reflexivity.
Qed.

End CodecEdges.

(** X6.  The payload of a frame is any UTF-8: for a text that
    [encode('utf-8')] accepts, the bytes it gives are decoded back to
    the text, and [get_chunk] answers [json.loads] of the text when the
    header gives the number of the bytes. *)
Theorem get_chunk_reads_utf8 {callback : Type} (ds text raw rest : list N)
    (w : world callback) :
  ds <> [] -> forallb is_hex ds = true ->
  utf8_encode text = Some raw ->
  N.of_nat (length raw) = hex_number ds ->
  c_stdout w = 48 :: 120 :: ds ++ 10 :: raw ++ rest ->
  utf8_decode raw = Some text
  /\ get_chunk w = loads text (with_stdout rest w).
Proof.
  intros Hne Hhex Henc Hlen Hin.
  pose proof (utf8_decode_encode text raw Henc) as Hdec. split; [exact Hdec|].
  rewrite (get_chunk_frame ds raw rest w Hne Hhex Hlen Hin).
  unfold decode_payload, bind. rewrite Hdec. reflexivity.
Qed.

(** X6 on a frame of eight bytes whose payload is the text of a string
    of two characters, an accented letter of two bytes and an emoji of
    four. *)
Lemma get_chunk_reads_utf8_accent :
  utf8_decode [34; 195; 169; 240; 159; 152; 128; 34] = Some [34; 233; 128512; 34]
  /\ get_chunk (first_world (py "0x8" ++ 10 :: [34; 195; 169; 240; 159; 152; 128; 34] ++ py "0x"))
     = Ok (JStr [233; 128512]) (first_world (py "0x")).
Proof.
  apply (get_chunk_reads_utf8 (py "8") [34; 233; 128512; 34] [34; 195; 169; 240; 159; 152; 128; 34]
           (py "0x")
           (first_world (py "0x8" ++ 10 :: [34; 195; 169; 240; 159; 152; 128; 34] ++ py "0x")));
    vm_compute; (reflexivity || discriminate).
Defined.





(** X9.  A first line that does not start with [0x] or does not end in
    a newline, as the empty line at the end of the stream does not,
    makes [get_chunk] raise [AssertionError] once the line is taken:
    the turn and the loop end with it, and nothing is written. *)
Theorem bad_header_ends_loop {callback : Type} (isprintable : N -> bool)
    (call : callback -> list json -> M callback unit)
    (table : gmap (list N) (list json -> M callback json))
    (line rest : list N) (w : world callback) :
  split_line (c_stdout w) = (line, rest) ->
  startswith line [48; 120] = false \/ endswith_newline line = false ->
  get_chunk w = Raise (AssertionError None) (with_stdout rest w)
  /\ handle_next_chunk isprintable call table w = Raise (AssertionError None) (with_stdout rest w)
  /\ (forall n, pump isprintable call table (S n) w
                = Raise (AssertionError None) (with_stdout rest w))
  /\ c_stdin (with_stdout rest w) = c_stdin w
  /\ is_Exception (AssertionError None) = true.
Proof.
  intros Hline Hbad.
  assert (Hget : get_chunk w = Raise (AssertionError None) (with_stdout rest w)).
  { unfold get_chunk, bind at 1, readline. rewrite Hline. cbv iota beta.
    unfold bind at 1, py_assert.
    destruct (startswith line [48; 120]); [|reflexivity]. unfold ret at 1.
    unfold bind at 1. destruct Hbad as [Hbad|Hbad]; [discriminate|]. rewrite Hbad. reflexivity. }
  assert (Hturn : handle_next_chunk isprintable call table w
                  = Raise (AssertionError None) (with_stdout rest w)).
  { unfold handle_next_chunk. apply bind_raise, Hget. }
  split; [exact Hget|]. split; [exact Hturn|]. split; [|split; reflexivity].
  intros n. apply pump_ends, Hturn.
Qed.

(** X9 at the end of the stream, and on a frame whose header has lost
    its prefix. *)
Lemma bad_header_ends_loop_scenarios :
  (get_chunk (first_world []) = Raise (AssertionError None) (first_world [])
   /\ turn (first_world []) = Raise (AssertionError None) (first_world [])
   /\ (forall n, pump all_printable (call_client_callback all_printable) scenario_handlers (S n)
                      (first_world [])
                 = Raise (AssertionError None) (first_world []))
   /\ c_stdin (first_world []) = []
   /\ is_Exception (AssertionError None) = true)
  /\ get_chunk (first_world (py "00000003" ++ 10 :: py "[1]"))
     = Raise (AssertionError None) (first_world (py "[1]")).
Proof.
  split.
  - apply (bad_header_ends_loop all_printable (call_client_callback all_printable)
             scenario_handlers [] [] (first_world [])); [reflexivity|left; reflexivity].
  - apply (bad_header_ends_loop all_printable (call_client_callback all_printable)
             scenario_handlers (py "00000003" ++ [10]) (py "[1]")
             (first_world (py "00000003" ++ 10 :: py "[1]"))); [reflexivity|left; reflexivity].
Defined.

Section Streams.

Context {callback : Type}.
Implicit Types w : world callback.

Lemma with_written_nil w : with_written [] w = w.
Proof. destruct w. unfold with_written. cbn. rewrite app_nil_r. reflexivity. Qed.

Lemma with_written_app a b w : with_written b (with_written a w) = with_written (a ++ b) w.
Proof. unfold with_written. cbn. rewrite app_assoc. reflexivity. Qed.

Lemma with_stdout_same w : with_stdout (c_stdout w) w = w.
Proof. destruct w. reflexivity. Qed.

Lemma send_chunks_writes values w :
  send_chunks values w = Ok tt (with_written (List.concat (List.map frame values)) w).
Proof.
  revert w. induction values as [|v values IH]; intros w.
  - cbn. rewrite with_written_nil. reflexivity.
  - cbn [send_chunks List.map List.concat]. unfold bind. rewrite send_chunk_writes, IH.
    rewrite with_written_app. reflexivity.
Qed.

Lemma get_chunks_frames values rest w :
  forallb is_value values = true -> forallb unpaired_strings values = true ->
  c_stdout w = List.concat (List.map frame values) ++ rest ->
  get_chunks (length values) w = Ok values (with_stdout rest w).
Proof.
  revert w. induction values as [|v values IH]; intros w Hv Hu Hin.
  - cbn in Hin. cbn. unfold ret. rewrite <- Hin, with_stdout_same. reflexivity.
  - cbn [forallb] in Hv, Hu. apply andb_prop in Hv as [Hv Hvs]. apply andb_prop in Hu as [Hu Hus].
    cbn [List.map List.concat] in Hin. rewrite <- app_assoc in Hin.
    cbn [length get_chunks]. unfold bind at 1.
    rewrite (get_chunk_send_chunk v _ w Hv Hu Hin).
    unfold bind. rewrite (IH _ Hvs Hus) by reflexivity. reflexivity.
Qed.

End Streams.

(** X10.  Frames follow one another with nothing between them: what
    calls of [send_chunk] write for a list of values, one after the
    other, as many calls of [get_chunk] read back as the same values in
    the same order, and what follows the last frame is left. *)
Theorem frames_in_order {callback : Type} (values : list json) (rest : list N)
    (sender receiver : world callback) :
  forallb is_value values = true -> forallb unpaired_strings values = true ->
  c_stdout receiver = List.concat (List.map frame values) ++ rest ->
  send_chunks values sender = Ok tt (with_written (List.concat (List.map frame values)) sender)
  /\ get_chunks (length values) receiver = Ok values (with_stdout rest receiver).
Proof.
  intros Hv Hu Hin. split; [apply send_chunks_writes|apply get_chunks_frames; assumption].
Qed.

(** X10 on the three messages of a session. *)
Lemma frames_in_order_session :
  send_chunks [select_call; echo_call; selections_reply] (first_world [])
  = Ok tt (with_written (List.concat (List.map frame [select_call; echo_call; selections_reply]))
                        (first_world []))
  /\ get_chunks 3 (first_world (List.concat (List.map frame [select_call; echo_call; selections_reply])
                                ++ py "0x"))
     = Ok [select_call; echo_call; selections_reply] (first_world (py "0x")).
Proof.
  apply (frames_in_order [select_call; echo_call; selections_reply] (py "0x") (first_world [])
           (first_world (List.concat (List.map frame [select_call; echo_call; selections_reply])
                         ++ py "0x")));
    vm_compute; reflexivity.
Defined.

(** * Messages that are not routed *)

Section Messages.

Context {callback : Type}.
Variable isprintable : N -> bool.
Variable call : callback -> list json -> M callback unit.
Variable table : gmap (list N) (list json -> M callback json).

Implicit Types w : world callback.

Lemma eq_str_char c s : (1 < length s)%nat -> eq_str (JStr [c]) s = false.
Proof.
  intros H. apply bool_decide_eq_false_2. intros Heq. rewrite <- Heq in H. cbn in H. lia.
Qed.

Lemma handle_stray msg w w1 :
  get_chunk w = Ok msg w1 -> stray msg = true ->
  handle_next_chunk isprintable call table w = Raise (stray_error msg) w1.
Proof.
  intros Hget Hstray. unfold handle_next_chunk. rewrite (bind_ok _ _ _ _ _ Hget).
  destruct msg as [| | |s|l|d]; try reflexivity.
  - destruct s as [|c s]; [reflexivity|].
    cbn [getitem nth_error option_map or_raise]. unfold bind at 1, ret at 1.
    rewrite !eq_str_char by (cbn; lia). reflexivity.
  - destruct l as [|tag l]; [reflexivity|].
    cbn [getitem nth_error or_raise]. unfold bind at 1, ret at 1.
    cbn [stray] in Hstray. apply andb_prop in Hstray as [H1 H2].
    apply negb_true_iff in H1, H2. rewrite H1, H2. reflexivity.
Qed.

Lemma stray_error_Exception msg : is_Exception (stray_error msg) = true.
Proof. destruct msg as [| | |[|? ?]|[|? ?]|]; reflexivity. Qed.

Lemma handle_short_invocation l w w1 :
  get_chunk w = Ok (JList (JStr (py "invoke") :: l)) w1 -> (length l < 3)%nat ->
  handle_next_chunk isprintable call table w = Raise IndexError w1.
Proof.
  intros Hget Hl. unfold handle_next_chunk. rewrite (bind_ok _ _ _ _ _ Hget).
  cbn [getitem nth_error or_raise]. unfold bind at 1, ret at 1. rewrite eq_str_same.
  destruct l as [|a [|b [|c l]]]; [reflexivity|reflexivity|reflexivity|cbn in Hl; lia].
Qed.

(** A reply whose ticket is pending, in full or cut short. *)
Lemma handle_reply k cb l w w1 :
  get_chunk w = Ok (JList (JStr (py "return") :: JStr k :: l)) w1 ->
  callbacks w1 !! k = Some cb ->
  handle_next_chunk isprintable call table w
  = (status <- getitem (JList (JStr (py "return") :: JStr k :: l)) 2 ;;
     if eq_str status (py "ok") then
       payload <- getitem (JList (JStr (py "return") :: JStr k :: l)) 3 ;;
       positional <- star payload ;;
       call cb positional
     else if eq_str status (py "fail") then
       payload <- getitem (JList (JStr (py "return") :: JStr k :: l)) 3 ;;
       raise (PyException payload)
     else raise (AssertionError (Some (JList (JStr (py "return") :: JStr k :: l)))))
      (without_ticket k w1).
Proof.
  intros Hget Hcb. unfold handle_next_chunk. rewrite (bind_ok _ _ _ _ _ Hget).
  cbn [getitem nth_error or_raise]. unfold bind at 1, ret at 1.
  rewrite eq_str_other by discriminate. rewrite eq_str_same.
  unfold bind at 1, ret at 1. rewrite (bind_ok _ _ _ _ _ (pop_found k cb w1 Hcb)). reflexivity.
Qed.

Lemma handle_broken_reply k cb l e w w1 :
  get_chunk w = Ok (JList (JStr (py "return") :: JStr k :: l)) w1 ->
  callbacks w1 !! k = Some cb ->
  reply_error (JList (JStr (py "return") :: JStr k :: l)) l = Some e ->
  handle_next_chunk isprintable call table w = Raise e (without_ticket k w1).
Proof.
  intros Hget Hcb He. rewrite (handle_reply k cb l w w1 Hget Hcb).
  destruct l as [|status rest]; cbn [reply_error] in He.
  - injection He as <-. reflexivity.
  - cbn [getitem nth_error or_raise]. unfold bind at 1, ret at 1.
    destruct (eq_str status (py "ok")) eqn:Hok; cbn [orb] in He.
    + destruct rest; [|discriminate]. injection He as <-. reflexivity.
    + destruct (eq_str status (py "fail")) eqn:Hfail.
      * destruct rest; [|discriminate]. injection He as <-. reflexivity.
      * injection He as <-. reflexivity.
Qed.

Lemma pop_not_text ticket w :
  is_str ticket = false -> callbacks_pop ticket w = Raise (pop_error ticket w) w.
Proof.
  intros H. unfold callbacks_pop, pop_error.
  destruct (bool_decide (callbacks w = ∅)); [reflexivity|]. cbn [orb].
  destruct ticket; try reflexivity. discriminate.
Qed.

Lemma handle_reply_not_text ticket more w w1 :
  get_chunk w = Ok (JList (JStr (py "return") :: ticket :: more)) w1 ->
  is_str ticket = false ->
  handle_next_chunk isprintable call table w = Raise (pop_error ticket w1) w1.
Proof.
  intros Hget Ht. unfold handle_next_chunk. rewrite (bind_ok _ _ _ _ _ Hget).
  cbn [getitem nth_error or_raise]. unfold bind at 1, ret at 1.
  rewrite eq_str_other by discriminate. rewrite eq_str_same.
  unfold bind at 1, ret at 1. apply bind_raise, pop_not_text, Ht.
Qed.

(** Arguments that are not iterable: the [TypeError] of the call, or
    the error of the lookup before it, is caught, and joining the
    arguments for the log raises the [TypeError] that leaves the turn. *)
Lemma handle_scalar_arguments ticket op args more w w1 :
  get_chunk w = Ok (JList (JStr (py "invoke") :: ticket :: op :: args :: more)) w1 ->
  iterate args = None ->
  handle_next_chunk isprintable call table w = Raise TypeError w1.
Proof.
  intros Hget Hargs. rewrite (handle_invoke _ _ _ _ _ _ _ _ _ Hget).
  assert (Hjoin : forall w', join_args args w' = Raise TypeError w').
  { intros w'. destruct args; try reflexivity; discriminate. }
  unfold try_except, bind at 1.
  destruct (subscript table op w1) as [handler w2|e w2|] eqn:Hsub.
  - assert (w2 = w1) as ->.
    { unfold subscript in Hsub. destruct (hashable op); [|discriminate].
      destruct op; try discriminate. destruct (table !! s); [|discriminate].
      cbn in Hsub. injection Hsub as _ <-. reflexivity. }
    unfold bind at 1, star. rewrite Hargs. cbn [or_raise raise is_Exception].
    unfold bind. rewrite Hjoin. reflexivity.
  - assert (w2 = w1 /\ is_Exception e = true) as [-> ->].
    { unfold subscript in Hsub. destruct (hashable op).
      - destruct op; try (injection Hsub as <- <-; split; reflexivity).
        destruct (table !! s); [discriminate|]. injection Hsub as <- <-. split; reflexivity.
      - injection Hsub as <- <-. split; reflexivity. }
    unfold bind. rewrite Hjoin. reflexivity.
  - exfalso. unfold subscript in Hsub. destruct (hashable op); [|discriminate].
    destruct op; try discriminate. destruct (table !! s); discriminate.
Qed.

End Messages.

(** X11.  A message that is neither an invocation nor a reply ends the
    loop and is not answered: the turn raises the error of
    [api_request[0]] where the message has no first item, and the
    [AssertionError] of the last branch, with the message, where it has
    one.  Nothing is written and [callbacks] is as it was. *)
Theorem stray_message_ends_loop {callback : Type} (isprintable : N -> bool)
    (call : callback -> list json -> M callback unit)
    (table : gmap (list N) (list json -> M callback json))
    (msg : json) (w w1 : world callback) :
  get_chunk w = Ok msg w1 -> stray msg = true ->
  handle_next_chunk isprintable call table w = Raise (stray_error msg) w1
  /\ (forall n, pump isprintable call table (S n) w = Raise (stray_error msg) w1)
  /\ c_stdin w1 = c_stdin w /\ callbacks w1 = callbacks w
  /\ is_Exception (stray_error msg) = true.
Proof.
  intros Hget Hstray.
  pose proof (handle_stray isprintable call table msg w w1 Hget Hstray) as H.
  pose proof (get_chunk_ok_reads w _ w1 Hget) as Hw1.
  split; [exact H|]. split; [intros n; apply pump_ends, H|].
  split; [rewrite Hw1; reflexivity|]. split; [rewrite Hw1; reflexivity|].
  apply stray_error_Exception.
Qed.

(** X11 on the message [["hello", "1"]] while ticket 1 is pending. *)
Lemma stray_message_ends_loop_hello :
  turn (waiting (frame (JList [JStr (py "hello"); JStr (py "1")])))
  = Raise (AssertionError (Some (JList [JStr (py "hello"); JStr (py "1")]))) (waiting [])
  /\ (forall n, pump all_printable (call_client_callback all_printable) scenario_handlers (S n)
                     (waiting (frame (JList [JStr (py "hello"); JStr (py "1")])))
                = Raise (AssertionError (Some (JList [JStr (py "hello"); JStr (py "1")])))
                        (waiting []))
  /\ c_stdin (waiting []) = []
  /\ callbacks (waiting []) = {[py "1" := show_selections]}
  /\ is_Exception (AssertionError (Some (JList [JStr (py "hello"); JStr (py "1")]))) = true.
Proof.
  apply (stray_message_ends_loop all_printable (call_client_callback all_printable)
           scenario_handlers (JList [JStr (py "hello"); JStr (py "1")])
           (waiting (frame (JList [JStr (py "hello"); JStr (py "1")]))) (waiting []));
    vm_compute; reflexivity.
Defined.

(** X12.  An invocation with fewer than three items after its tag is
    not answered, with a ticket or without: the [IndexError] of the
    missing item is raised before the [try], and it ends the loop with
    nothing written. *)
Theorem short_invocation_not_answered {callback : Type} (isprintable : N -> bool)
    (call : callback -> list json -> M callback unit)
    (table : gmap (list N) (list json -> M callback json))
    (l : list json) (w w1 : world callback) :
  get_chunk w = Ok (JList (JStr (py "invoke") :: l)) w1 -> (length l < 3)%nat ->
  handle_next_chunk isprintable call table w = Raise IndexError w1
  /\ (forall n, pump isprintable call table (S n) w = Raise IndexError w1)
  /\ c_stdin w1 = c_stdin w.
Proof.
  intros Hget Hl.
  pose proof (handle_short_invocation isprintable call table l w w1 Hget Hl) as H.
  split; [exact H|]. split; [intros n; apply pump_ends, H|].
  rewrite (get_chunk_ok_reads w _ w1 Hget). reflexivity.
Qed.

(** X12 on an invocation of [update-key-info] that has no list of
    arguments. *)
Lemma short_invocation_not_answered_update :
  turn (first_world (frame (JList [JStr (py "invoke"); JStr (py "3"); JStr (py "update-key-info")])))
  = Raise IndexError (first_world [])
  /\ (forall n, pump all_printable (call_client_callback all_printable) scenario_handlers (S n)
                     (first_world (frame (JList [JStr (py "invoke"); JStr (py "3");
                                                 JStr (py "update-key-info")])))
                = Raise IndexError (first_world []))
  /\ c_stdin (first_world []) = [].
Proof.
  apply (short_invocation_not_answered all_printable (call_client_callback all_printable)
           scenario_handlers [JStr (py "3"); JStr (py "update-key-info")]
           (first_world (frame (JList [JStr (py "invoke"); JStr (py "3");
                                       JStr (py "update-key-info")])))
           (first_world [])); [vm_compute; reflexivity|cbn; lia].
Defined.

(** X13.  A reply for a pending ticket takes the entry out of
    [callbacks] before it looks at the rest of the message.  When the
    message ends after the ticket or after the status [ok] or [fail],
    the turn raises [IndexError]; when the status is neither,
    [AssertionError] with the message.  The entry is gone either way
    and the callback is not called, whatever it is. *)
Theorem broken_reply_takes_ticket {callback : Type} (isprintable : N -> bool)
    (call : callback -> list json -> M callback unit)
    (table : gmap (list N) (list json -> M callback json))
    (k : list N) (cb : callback) (l : list json) (e : exn) (w w1 : world callback) :
  get_chunk w = Ok (JList (JStr (py "return") :: JStr k :: l)) w1 ->
  callbacks w1 !! k = Some cb ->
  reply_error (JList (JStr (py "return") :: JStr k :: l)) l = Some e ->
  (forall call', handle_next_chunk isprintable call' table w = Raise e (without_ticket k w1))
  /\ callbacks (without_ticket k w1) !! k = None
  /\ c_stdin (without_ticket k w1) = c_stdin w.
Proof.
  intros Hget Hcb He. split; [|split].
  - intros call'. apply (handle_broken_reply isprintable call' table k cb l e w w1 Hget Hcb He).
  - cbn [without_ticket callbacks]. apply lookup_delete_eq.
  - rewrite (get_chunk_ok_reads w _ w1 Hget). reflexivity.
Qed.

(** X13 on a reply to ticket 1 with the status [done], and on one that
    ends after the status [ok]. *)
Lemma broken_reply_takes_ticket_scenarios :
  ((forall call',
       handle_next_chunk all_printable call' scenario_handlers
         (waiting (frame (reply (JStr (py "1")) "done" (JList []))))
       = Raise (AssertionError (Some (reply (JStr (py "1")) "done" (JList []))))
               (World [] [] [] 2 ∅))
   /\ callbacks (without_ticket (py "1") (waiting [])) !! py "1" = None
   /\ c_stdin (without_ticket (py "1") (waiting [])) = [])
  /\ ((forall call',
         handle_next_chunk all_printable call' scenario_handlers
           (waiting (frame (JList [JStr (py "return"); JStr (py "1"); JStr (py "ok")])))
         = Raise IndexError (World [] [] [] 2 ∅))
      /\ callbacks (without_ticket (py "1") (waiting [])) !! py "1" = None
      /\ c_stdin (without_ticket (py "1") (waiting [])) = []).
Proof.
  split.
  - apply (broken_reply_takes_ticket all_printable (call_client_callback all_printable)
             scenario_handlers (py "1") show_selections [JStr (py "done"); JList []]
             (AssertionError (Some (reply (JStr (py "1")) "done" (JList []))))
             (waiting (frame (reply (JStr (py "1")) "done" (JList [])))) (waiting []));
      vm_compute; reflexivity.
  - apply (broken_reply_takes_ticket all_printable (call_client_callback all_printable)
             scenario_handlers (py "1") show_selections [JStr (py "ok")] IndexError
             (waiting (frame (JList [JStr (py "return"); JStr (py "1"); JStr (py "ok")])))
             (waiting []));
      vm_compute; reflexivity.
Defined.

(** X14.  A ticket that is no string resolves nothing, the number 1 no
    more than another value while the ticket ["1"] is pending:
    [callbacks.pop] raises [KeyError], or [TypeError] for a list or a
    mapping when some ticket is pending.  The turn and the loop end
    with it, [callbacks] is as it was and nothing is written. *)
Theorem reply_ticket_must_be_text {callback : Type} (isprintable : N -> bool)
    (call : callback -> list json -> M callback unit)
    (table : gmap (list N) (list json -> M callback json))
    (ticket : json) (more : list json) (w w1 : world callback) :
  get_chunk w = Ok (JList (JStr (py "return") :: ticket :: more)) w1 ->
  is_str ticket = false ->
  handle_next_chunk isprintable call table w = Raise (pop_error ticket w1) w1
  /\ (forall n, pump isprintable call table (S n) w = Raise (pop_error ticket w1) w1)
  /\ callbacks w1 = callbacks w /\ c_stdin w1 = c_stdin w.
Proof.
  intros Hget Ht.
  pose proof (handle_reply_not_text isprintable call table ticket more w w1 Hget Ht) as H.
  pose proof (get_chunk_ok_reads w _ w1 Hget) as Hw1.
  split; [exact H|]. split; [intros n; apply pump_ends, H|].
  split; rewrite Hw1; reflexivity.
Qed.

(** X14 on replies to the number 1 and to the list [["1"]] while the
    ticket ["1"] is pending. *)
Lemma reply_ticket_must_be_text_number :
  (turn (waiting (frame (reply (JInt 1) "ok" (JList [])))) = Raise (KeyError (JInt 1)) (waiting [])
   /\ (forall n, pump all_printable (call_client_callback all_printable) scenario_handlers (S n)
                      (waiting (frame (reply (JInt 1) "ok" (JList []))))
                 = Raise (KeyError (JInt 1)) (waiting []))
   /\ callbacks (waiting []) = {[py "1" := show_selections]} /\ c_stdin (waiting []) = [])
  /\ turn (waiting (frame (reply (JList [JStr (py "1")]) "ok" (JList []))))
     = Raise TypeError (waiting []).
Proof.
  split.
  - apply (reply_ticket_must_be_text all_printable (call_client_callback all_printable)
             scenario_handlers (JInt 1) [JStr (py "ok"); JList []]
             (waiting (frame (reply (JInt 1) "ok" (JList [])))) (waiting []));
      vm_compute; reflexivity.
  - apply (reply_ticket_must_be_text all_printable (call_client_callback all_printable)
             scenario_handlers (JList [JStr (py "1")]) [JStr (py "ok"); JList []]
             (waiting (frame (reply (JList [JStr (py "1")]) "ok" (JList [])))) (waiting []));
      vm_compute; reflexivity.
Defined.

(** X15.  An invocation whose arguments are not iterable (a number, a
    truth value, [null]) is not answered, whatever its operation and
    whatever the table holds: the error of the call is caught, and
    joining the arguments for the line of the log raises the
    [TypeError] that ends the turn and the loop.  No handler has run
    and nothing is written. *)
Theorem scalar_arguments_end_loop {callback : Type} (isprintable : N -> bool)
    (call : callback -> list json -> M callback unit)
    (table : gmap (list N) (list json -> M callback json))
    (ticket op args : json) (more : list json) (w w1 : world callback) :
  get_chunk w = Ok (JList (JStr (py "invoke") :: ticket :: op :: args :: more)) w1 ->
  iterate args = None ->
  handle_next_chunk isprintable call table w = Raise TypeError w1
  /\ (forall n, pump isprintable call table (S n) w = Raise TypeError w1)
  /\ c_stdin w1 = c_stdin w /\ terminal w1 = terminal w.
Proof.
  intros Hget Hargs.
  pose proof (handle_scalar_arguments isprintable call table ticket op args more w w1 Hget Hargs)
    as H.
  pose proof (get_chunk_ok_reads w _ w1 Hget) as Hw1.
  split; [exact H|]. split; [intros n; apply pump_ends, H|].
  split; rewrite Hw1; reflexivity.
Qed.

(** X15 on [update-key-info] with [null] for its arguments. *)
Lemma scalar_arguments_end_loop_null :
  turn (first_world (frame (JList [JStr (py "invoke"); JStr (py "3"); JStr (py "update-key-info");
                                   JNull])))
  = Raise TypeError (first_world [])
  /\ (forall n, pump all_printable (call_client_callback all_printable) scenario_handlers (S n)
                     (first_world (frame (JList [JStr (py "invoke"); JStr (py "3");
                                                 JStr (py "update-key-info"); JNull])))
                = Raise TypeError (first_world []))
  /\ c_stdin (first_world []) = [] /\ terminal (first_world []) = [].
Proof.
  apply (scalar_arguments_end_loop all_printable (call_client_callback all_printable)
           scenario_handlers (JStr (py "3")) (JStr (py "update-key-info")) JNull []
           (first_world (frame (JList [JStr (py "invoke"); JStr (py "3");
                                       JStr (py "update-key-info"); JNull])))
           (first_world [])); vm_compute; reflexivity.
Defined.

Section Served.

Context {callback : Type}.
Variable isprintable : N -> bool.
Variable call : callback -> list json -> M callback unit.
Variable do_confirm_keys : list json -> M callback json.

Implicit Types w : world callback.

(** A handler of [handlers] that returns, on arguments that are
    iterable. *)
Lemma serve_iterable w w1 w2 ticket op args items more handler response :
  get_chunk w = Ok (JList (JStr (py "invoke") :: ticket :: JStr op :: args :: more)) w1 ->
  handlers do_confirm_keys !! op = Some handler ->
  iterate args = Some items ->
  handler items w1 = Ok response w2 ->
  handle_next_chunk isprintable call (handlers do_confirm_keys) w
  = Ok tt (with_written (frame (reply ticket "ok" response)) w2).
Proof.
  intros Hget Hop Hitems Hcall. rewrite (handle_invoke _ _ _ _ _ _ _ _ _ Hget).
  unfold try_except. rewrite (bind_ok _ _ _ _ _ (subscript_found _ op handler w1 Hop)).
  unfold star. rewrite Hitems. cbn [or_raise]. unfold bind at 1, ret at 1.
  rewrite (bind_ok _ _ _ _ _ Hcall). rewrite reply_ok_writes. reflexivity.
Qed.

Lemma handlers_update_key_info :
  handlers do_confirm_keys !! py "update-key-info" = Some update_key_info.
Proof.
  unfold handlers. rewrite lookup_insert_ne by (vm_compute; discriminate).
  rewrite lookup_insert_ne by (vm_compute; discriminate). apply lookup_insert_eq.
Qed.

Lemma handlers_select_api_version :
  handlers do_confirm_keys !! py "select-api-version" = Some (apply1 do_select_api_version).
Proof. unfold handlers. apply lookup_insert_eq. Qed.

Lemma handlers_confirm_keys :
  handlers do_confirm_keys !! py "confirm-keys" = Some do_confirm_keys.
Proof.
  unfold handlers. rewrite lookup_insert_ne by (vm_compute; discriminate). apply lookup_insert_eq.
Qed.

End Served.

(** X16.  An invocation of [update-key-info] is answered by the reply
    [ok] with [null], whatever the ticket, whatever the arguments and
    however many they are, as long as they can be iterated: a list, a
    string or a mapping.  Nothing is printed. *)
Theorem update_key_info_answered {callback : Type} (isprintable : N -> bool)
    (call : callback -> list json -> M callback unit)
    (do_confirm_keys : list json -> M callback json)
    (ticket args : json) (items more : list json) (w w1 : world callback) :
  get_chunk w
  = Ok (JList (JStr (py "invoke") :: ticket :: JStr (py "update-key-info") :: args :: more)) w1 ->
  iterate args = Some items ->
  handle_next_chunk isprintable call (handlers do_confirm_keys) w
  = Ok tt (with_written (frame (reply ticket "ok" JNull)) w1)
  /\ terminal w1 = terminal w
  /\ forall n,
      pump isprintable call (handlers do_confirm_keys) (S n) w
      = pump isprintable call (handlers do_confirm_keys) n
             (with_written (frame (reply ticket "ok" JNull)) w1).
Proof.
  intros Hget Hitems.
  pose proof (serve_iterable isprintable call do_confirm_keys w w1 w1 ticket
                (py "update-key-info") args items more update_key_info JNull Hget
                (handlers_update_key_info do_confirm_keys) Hitems eq_refl) as H.
  split; [exact H|]. split; [rewrite (get_chunk_ok_reads w _ w1 Hget); reflexivity|].
  intros n. apply pump_continues, H.
Qed.

(** X16 on an invocation with the ticket 7, a number, and a mapping for
    its arguments. *)
Lemma update_key_info_answered_mapping :
  handle_next_chunk all_printable (call_client_callback all_printable) (handlers trust_none)
    (first_world (frame (JList [JStr (py "invoke"); JInt 7; JStr (py "update-key-info");
                                JDict [(py "a", JInt 1)]])))
  = Ok tt (World [] (py "0x00000019" ++ 10 :: dq "['return', 7, 'ok', null]") [] 1 ∅)
  /\ terminal (first_world []) = []
  /\ forall n,
      pump all_printable (call_client_callback all_printable) (handlers trust_none) (S n)
        (first_world (frame (JList [JStr (py "invoke"); JInt 7; JStr (py "update-key-info");
                                    JDict [(py "a", JInt 1)]])))
      = pump all_printable (call_client_callback all_printable) (handlers trust_none) n
          (World [] (py "0x00000019" ++ 10 :: dq "['return', 7, 'ok', null]") [] 1 ∅).
Proof.
  apply (update_key_info_answered all_printable (call_client_callback all_printable) trust_none
           (JInt 7) (JDict [(py "a", JInt 1)]) [JStr (py "a")] []
           (first_world (frame (JList [JStr (py "invoke"); JInt 7; JStr (py "update-key-info");
                                       JDict [(py "a", JInt 1)]])))
           (first_world [])); vm_compute; reflexivity.
Defined.

(** * From an invocation to its reply *)

Section Carried.

Context {callback : Type}.
Implicit Types w : world callback.

Lemma get_chunk_carries b v rest w :
  carries b v -> c_stdout w = b ++ rest -> get_chunk w = Ok v (with_stdout rest w).
Proof.
  intros (ds & text & raw & tail & -> & Hne & Hhex & Hlen & Henc & Hloads) Hin.
  rewrite (get_chunk_frame ds raw rest w Hne Hhex Hlen).
  - unfold decode_payload, bind. rewrite (utf8_decode_encode text raw Henc). cbn [or_raise ret].
    unfold loads. rewrite Hloads. reflexivity.
  - rewrite Hin. cbn [app]. rewrite <- app_assoc. reflexivity.
Qed.

Lemma frame_carries v : is_value v = true -> unpaired_strings v = true -> carries (frame v) v.
Proof.
  intros Hv Hu.
  exists (format_08x (N.of_nat (length (json_dumps v)))), (json_dumps v), (json_dumps v), [].
  split; [reflexivity|]. split; [apply zero_pad_nonempty, numeral_nonempty|].
  split; [apply is_hex_zero_pad, is_hex_numeral|].
  split; [symmetry; apply hex_number_format_08x|].
  split; [apply utf8_encode_ascii, json_dumps_ascii|apply json_loads_dumps; assumption].
Qed.

End Carried.

(** X17.  The reply [ok] to an invocation calls the callback that was
    passed to [invoke] with the items of the payload.  In a world where
    every pending ticket is below the counter, the call of [invoke] and
    the turn that reads the reply to its ticket leave the pending
    callbacks as they were before the two: the callback runs with its
    own entry gone and no other touched. *)
Theorem reply_calls_back {callback : Type} (isprintable : N -> bool)
    (call : callback -> list json -> M callback unit)
    (table : gmap (list N) (list json -> M callback json))
    (on_success : callback) (op payload : json) (args items : list json)
    (b rest : list N) (w : world callback) :
  pending_below w ->
  carries b (reply (JStr (str_int (next_ticket w))) "ok" payload) ->
  c_stdout w = b ++ rest ->
  iterate payload = Some items ->
  (invoke on_success op args ;; handle_next_chunk isprintable call table) w
  = call on_success items
      (World rest (c_stdin w ++ frame (invocation (str_int (next_ticket w)) op args))
             (terminal w) (next_ticket w + 1) (callbacks w)).
Proof.
  intros Hinv Hb Hin Hitems. unfold bind. rewrite invoke_returns.
  set (w1 := with_written _ _).
  assert (Hget : get_chunk w1
                 = Ok (reply (JStr (str_int (next_ticket w))) "ok" payload) (with_stdout rest w1)).
  { apply (get_chunk_carries b); [exact Hb|exact Hin]. }
  rewrite (resolve_ok isprintable call table w1 (with_stdout rest w1) (str_int (next_ticket w))
             on_success payload items [] Hget).
  - f_equal. unfold without_ticket, with_stdout, w1, with_written, registered.
    cbn [c_stdout c_stdin terminal next_ticket callbacks].
    rewrite delete_insert_id by apply pending_below_fresh, Hinv. reflexivity.
  - cbn [with_stdout callbacks w1 with_written registered]. apply lookup_insert_eq.
  - exact Hitems.
Qed.

(** X17 on the invocation of the program and the reply to it, in the
    world the program starts in. *)
Lemma reply_calls_back_select :
  (invoke show_selections (JStr (py "select"))
          [JDict [(py "interface", JStr (py "http://example.com/prog.xml"))]; JBool false] ;;
   turn) (first_world (frame selections_reply))
  = Raise (SystemExit 0)
          (World [] (frame select_call) (py "ok" ++ 10 :: py "sels" ++ [10]) 2 ∅).
Proof.
  apply (reply_calls_back all_printable (call_client_callback all_printable) scenario_handlers
           show_selections (JStr (py "select")) (JList [JStr (py "ok"); JStr (py "sels")])
           [JDict [(py "interface", JStr (py "http://example.com/prog.xml"))]; JBool false]
           [JStr (py "ok"); JStr (py "sels")] (frame selections_reply) []
           (first_world (frame selections_reply))).
  - apply pending_below_initial.
  - apply frame_carries; vm_compute; reflexivity.
  - vm_compute. reflexivity.
  - reflexivity.
Defined.

(** * What a turn does *)

Section Turns.

Context {callback : Type}.
Variable isprintable : N -> bool.
Variable call : callback -> list json -> M callback unit.
Variable table : gmap (list N) (list json -> M callback json).

Hypothesis handlers_print :
  forall op handler positional, table !! op = Some handler -> prints_only (handler positional).
Hypothesis callbacks_print : forall cb positional, prints_only (call cb positional).

Implicit Types w : world callback.

Lemma getitem_pure v i w :
  (exists x, getitem v i w = Ok x w) \/ (exists e, getitem v i w = Raise e w).
Proof.
  destruct v as [| | |s|l|d]; cbn [getitem]; try (right; eexists; reflexivity).
  - destruct (nth_error s i); cbn; [left|right]; eexists; reflexivity.
  - destruct (nth_error l i); cbn; [left|right]; eexists; reflexivity.
Qed.

Lemma star_pure v w :
  (exists x, star v w = Ok x w) \/ star v w = Raise TypeError w.
Proof. unfold star. destruct (iterate v); cbn; [left; eexists; reflexivity|right; reflexivity]. Qed.

Lemma join_args_pure v w : join_args v w = Ok tt w \/ join_args v w = Raise TypeError w.
Proof.
  destruct v as [| | |s|l|d]; cbn [join_args]; try (right; reflexivity); try (left; reflexivity).
  destruct (forallb is_str l); [left|right]; reflexivity.
Qed.

Lemma subscript_cases (op : json) w :
  (exists k handler, table !! k = Some handler /\ subscript table op w = Ok handler w)
  \/ (exists e, is_Exception e = true /\ subscript table op w = Raise e w).
Proof.
  unfold subscript. destruct (hashable op).
  - destruct op as [| | |k|l|d]; try (right; eexists; split; [|reflexivity]; reflexivity).
    destruct (table !! k) as [handler|] eqn:E.
    + left. exists k, handler. split; [exact E|reflexivity].
    + right. eexists. split; [|reflexivity]. reflexivity.
  - right. eexists. split; [|reflexivity]. reflexivity.
Qed.

Lemma pop_cases ticket w :
  (exists k cb, callbacks_pop ticket w = Ok cb (without_ticket k w))
  \/ (exists e, callbacks_pop ticket w = Raise e w).
Proof.
  unfold callbacks_pop. destruct (bool_decide (callbacks w = ∅)); [right; eexists; reflexivity|].
  destruct (hashable ticket); [|right; eexists; reflexivity].
  destruct ticket as [| | |k|l|d]; try (right; eexists; reflexivity).
  destruct (callbacks w !! k) as [cb|]; [left; exists k, cb; reflexivity|right; eexists; reflexivity].
Qed.

Lemma silent_refl w w' :
  c_stdin w' = c_stdin w -> callbacks w' = callbacks w -> silent w w'.
Proof. intros H1 H2. split; [exact H1|left; exact H2]. Qed.

(** The branch of an invocation, from the world [w1] the message was
    read in. *)
Lemma served_done ticket op args w w1 :
  c_stdin w1 = c_stdin w -> next_ticket w1 = next_ticket w -> callbacks w1 = callbacks w ->
  turn_done w
    (try_except
       (handler <- subscript table op ;;
        positional <- star args ;;
        response <- handler positional ;;
        reply_ok ticket response)
       (fun ex =>
          join_args args ;;
          match str_exn isprintable ex with
          | Some text => reply_fail ticket (JStr text)
          | None => unmodelled
          end) w1).
Proof.
  intros Hin Hnext Hcbs.
  assert (Hcatch : forall ex w2,
             c_stdin w2 = c_stdin w -> next_ticket w2 = next_ticket w ->
             callbacks w2 = callbacks w ->
             turn_done w
               ((join_args args ;;
                 match str_exn isprintable ex with
                 | Some text => reply_fail ticket (JStr text)
                 | None => unmodelled
                 end) w2)).
  { intros ex w2 H1 H2 H3. unfold bind.
    destruct (join_args_pure args w2) as [-> | ->].
    - destruct (str_exn isprintable ex) as [text|]; [|exact I].
      rewrite reply_fail_writes. split; [cbn [with_written next_ticket]; exact H2|]. left.
      exists ticket, "fail"%string, (JStr text). split; [right; reflexivity|].
      cbn [with_written c_stdin callbacks]. rewrite H1, H3. split; reflexivity.
    - split; [exact H2|]. apply silent_refl; assumption. }
  unfold try_except, bind at 1.
  destruct (subscript_cases op w1) as [(k & handler & Hk & ->) | (e & He & ->)].
  - unfold bind at 1. destruct (star_pure args w1) as [(positional & ->) | ->].
    + unfold bind at 1. pose proof (handlers_print k handler positional Hk w1) as Hh.
      destruct (handler positional w1) as [response w2|e w2|]; [| |exact I].
      * destruct Hh as (_ & H1 & H2 & H3). rewrite reply_ok_writes.
        split; [cbn [with_written next_ticket]; congruence|]. left.
        exists ticket, "ok"%string, response. split; [left; reflexivity|].
        cbn [with_written c_stdin callbacks]. split; congruence.
      * destruct Hh as (_ & H1 & H2 & H3). destruct (is_Exception e).
        -- apply Hcatch; congruence.
        -- split; [congruence|]. apply silent_refl; congruence.
    + cbn [is_Exception]. apply Hcatch; assumption.
  - rewrite He. apply Hcatch; assumption.
Qed.

(** The branch of a reply. *)
Lemma resolved_done (msg : json) w w1 :
  c_stdin w1 = c_stdin w -> next_ticket w1 = next_ticket w -> callbacks w1 = callbacks w ->
  turn_done w
    ((ticket <- getitem msg 1 ;;
      cb <- callbacks_pop ticket ;;
      status <- getitem msg 2 ;;
      if eq_str status (py "ok") then
        payload <- getitem msg 3 ;;
        positional <- star payload ;;
        call cb positional
      else if eq_str status (py "fail") then
        payload <- getitem msg 3 ;;
        raise (PyException payload)
      else raise (AssertionError (Some msg))) w1).
Proof.
  intros Hin Hnext Hcbs.
  unfold bind at 1. destruct (getitem_pure msg 1 w1) as [(ticket & ->) | (e & ->)];
    [|split; [exact Hnext|apply silent_refl; assumption]].
  unfold bind at 1. destruct (pop_cases ticket w1) as [(k & cb & ->) | (e & ->)];
    [|split; [exact Hnext|apply silent_refl; assumption]].
  set (w2 := without_ticket k w1).
  assert (Hsilent : silent w w2).
  { split; [exact Hin|]. right. exists k. cbn [w2 without_ticket callbacks]. rewrite Hcbs.
    reflexivity. }
  assert (Hnext2 : next_ticket w2 = next_ticket w) by exact Hnext.
  unfold bind at 1. destruct (getitem_pure msg 2 w2) as [(status & ->) | (e & ->)];
    [|split; assumption].
  destruct (eq_str status (py "ok")).
  - unfold bind at 1. destruct (getitem_pure msg 3 w2) as [(payload & ->) | (e & ->)];
      [|split; assumption].
    unfold bind at 1. destruct (star_pure payload w2) as [(positional & ->) | ->];
      [|split; assumption].
    pose proof (callbacks_print cb positional w2) as Hc.
    destruct (call cb positional w2) as [u w3|e w3|]; [| |exact I].
    + destruct Hc as (_ & H1 & H2 & H3). split; [congruence|]. right.
      destruct Hsilent as [Hs1 Hs2]. split; [congruence|]. right. exists k.
      rewrite H3. cbn [w2 without_ticket callbacks]. rewrite Hcbs. reflexivity.
    + destruct Hc as (_ & H1 & H2 & H3). split; [congruence|].
      destruct Hsilent as [Hs1 Hs2]. split; [congruence|]. right. exists k.
      rewrite H3. cbn [w2 without_ticket callbacks]. rewrite Hcbs. reflexivity.
  - destruct (eq_str status (py "fail")).
    + unfold bind at 1. destruct (getitem_pure msg 3 w2) as [(payload & ->) | (e & ->)];
        split; assumption.
    + split; assumption.
Qed.

Lemma turn_effect w : turn_done w (handle_next_chunk isprintable call table w).
Proof.
  unfold handle_next_chunk, bind at 1. pose proof (get_chunk_reads w) as Hr.
  destruct (get_chunk w) as [msg w1|e w1|]; [| |exact I].
  - assert (Hin : c_stdin w1 = c_stdin w) by (rewrite Hr; reflexivity).
    assert (Hnext : next_ticket w1 = next_ticket w) by (rewrite Hr; reflexivity).
    assert (Hcbs : callbacks w1 = callbacks w) by (rewrite Hr; reflexivity).
    clear Hr. unfold bind at 1.
    destruct (getitem_pure msg 0 w1) as [(tag & ->) | (e & ->)];
      [|split; [exact Hnext|apply silent_refl; assumption]].
    destruct (eq_str tag (py "invoke")).
    + unfold bind at 1. destruct (getitem_pure msg 1 w1) as [(ticket & ->) | (e & ->)];
        [|split; [exact Hnext|apply silent_refl; assumption]].
      unfold bind at 1. destruct (getitem_pure msg 2 w1) as [(op & ->) | (e & ->)];
        [|split; [exact Hnext|apply silent_refl; assumption]].
      unfold bind at 1. destruct (getitem_pure msg 3 w1) as [(args & ->) | (e & ->)];
        [|split; [exact Hnext|apply silent_refl; assumption]].
      apply served_done; assumption.
    + destruct (eq_str tag (py "return")).
      * apply resolved_done; assumption.
      * split; [exact Hnext|apply silent_refl; assumption].
  - split; [rewrite Hr; reflexivity|]. apply silent_refl; rewrite Hr; reflexivity.
Qed.

Lemma silent_pending w w' :
  next_ticket w' = next_ticket w -> silent w w' -> pending_below w -> pending_below w'.
Proof.
  intros Hnext [_ [Hc | [k Hc]]] Hinv k' Hk'; rewrite Hnext, Hc in *.
  - apply Hinv, Hk'.
  - destruct Hk' as [x Hx]. apply lookup_delete_Some in Hx as [_ Hx]. apply Hinv. eauto.
Qed.

Lemma turn_pending w :
  match handle_next_chunk isprintable call table w with
  | Ok _ w' | Raise _ w' =>
      next_ticket w' = next_ticket w
      /\ (forall k, is_Some (callbacks w' !! k) -> is_Some (callbacks w !! k))
  | Unmodelled => True
  end.
Proof.
  pose proof (turn_effect w) as H.
  assert (Hs : forall w', silent w w' ->
                 forall k, is_Some (callbacks w' !! k) -> is_Some (callbacks w !! k)).
  { intros w' [_ [Hc | [k0 Hc]]] k; rewrite Hc; [auto|].
    intros [x Hx]. apply lookup_delete_Some in Hx as [_ Hx]. eauto. }
  destruct (handle_next_chunk isprintable call table w) as [u w'|e w'|]; [| |exact I].
  - destruct H as [Hnext [(t & s & p & _ & _ & Hc) | Hsil]]; split; try exact Hnext.
    + intros k. rewrite Hc. auto.
    + apply Hs, Hsil.
  - destruct H as [Hnext Hsil]. split; [exact Hnext|apply Hs, Hsil].
Qed.

Lemma pump_pending n w :
  match pump isprintable call table n w with
  | Ok _ w' | Raise _ w' =>
      next_ticket w' = next_ticket w
      /\ (forall k, is_Some (callbacks w' !! k) -> is_Some (callbacks w !! k))
  | Unmodelled => True
  end.
Proof.
  revert w. induction n as [|n IH]; intros w; [cbn; auto|].
  cbn [pump]. unfold bind. pose proof (turn_pending w) as Ht.
  destruct (handle_next_chunk isprintable call table w) as [u w1|e w1|]; [|exact Ht|exact I].
  pose proof (IH w1) as Hn. destruct Ht as [Ht1 Ht2].
  destruct (pump isprintable call table n w1) as [u' w'|e w'|]; [| |exact I];
    destruct Hn as [Hn1 Hn2]; (split; [congruence|auto]).
Qed.

End Turns.

Section PrintsOnly.

Context {callback : Type}.
Implicit Types w : world callback.

Lemma prints_only_ret {A : Type} (a : A) : prints_only (ret (callback := callback) a).
Proof. intros w. cbn. auto. Qed.

Lemma prints_only_raise {A : Type} (e : exn) : prints_only (raise (callback := callback) (A := A) e).
Proof. intros w. cbn. auto. Qed.

Lemma prints_only_bind {A B : Type} (m : M callback A) (k : A -> M callback B) :
  prints_only m -> (forall a, prints_only (k a)) -> prints_only (bind m k).
Proof.
  intros Hm Hk w. unfold bind. pose proof (Hm w) as H1.
  destruct (m w) as [a w1|e w1|]; [|exact H1|exact I].
  pose proof (Hk a w1) as H2. destruct (k a w1) as [b w2|e w2|]; [| |exact I];
    destruct H1 as (? & ? & ? & ?), H2 as (? & ? & ? & ?); repeat split; congruence.
Qed.

Lemma prints_only_or_raise {A : Type} (e : exn) (o : option A) :
  prints_only (or_raise (callback := callback) e o).
Proof. destruct o; [apply prints_only_ret|apply prints_only_raise]. Qed.

Lemma prints_only_print isprintable v : prints_only (print (callback := callback) isprintable v).
Proof. intros w. cbn. auto. Qed.

Lemma prints_only_print_args isprintable vs :
  prints_only (print_args (callback := callback) isprintable vs).
Proof. intros w. cbn. auto. Qed.

Lemma prints_only_show_prompt prompt : prints_only (show_prompt (callback := callback) prompt).
Proof. intros w. cbn. auto. Qed.

Lemma prints_only_for_each {A : Type} (f : A -> M callback unit) (l : list A) :
  (forall x, prints_only (f x)) -> prints_only (for_each f l).
Proof.
  intros Hf. induction l as [|x l IH]; [apply prints_only_ret|].
  cbn [for_each]. apply prints_only_bind; [apply Hf|intros _; exact IH].
Qed.

Lemma prints_only_print_hint isprintable toupper hint :
  prints_only (print_hint (callback := callback) isprintable toupper hint).
Proof.
  unfold print_hint. apply prints_only_bind.
  - unfold unpack2. destruct (iterate hint) as [[|a [|b [|c l]]]|];
      first [apply prints_only_ret|apply prints_only_raise].
  - intros pair. apply prints_only_bind.
    + unfold str_upper. destruct (fst pair); first [apply prints_only_ret|apply prints_only_raise].
    + intros shout. apply prints_only_print_args.
Qed.

Lemma prints_only_print_key isprintable toupper entry :
  prints_only (print_key (callback := callback) isprintable toupper entry).
Proof.
  unfold print_key. apply prints_only_bind; [apply prints_only_print_args|]. intros _.
  apply prints_only_bind; [apply prints_only_or_raise|]. intros hints.
  apply prints_only_for_each. intros hint. apply prints_only_print_hint.
Qed.

Lemma prints_only_ask trusted keyboard : prints_only (ask (callback := callback) trusted keyboard).
Proof.
  induction keyboard as [|r rest IH]; cbn [ask].
  - apply prints_only_bind; [apply prints_only_show_prompt|]. intros _. apply prints_only_raise.
  - apply prints_only_bind; [apply prints_only_show_prompt|]. intros _.
    destruct (contains _ r); [apply prints_only_ret|].
    destruct (contains _ r); [apply prints_only_ret|exact IH].
Qed.

Lemma prints_only_do_confirm_keys isprintable toupper feed keys keyboard :
  prints_only (do_confirm_keys (callback := callback) isprintable toupper feed keys keyboard).
Proof.
  unfold do_confirm_keys.
  apply prints_only_bind; [apply prints_only_print_args|]. intros _.
  apply prints_only_bind; [apply prints_only_print_args|]. intros _.
  apply prints_only_bind.
  { unfold items. destruct keys; first [apply prints_only_ret|apply prints_only_raise]. }
  intros entries. apply prints_only_bind.
  { apply prints_only_for_each. intros entry. apply prints_only_print_key. }
  intros _. apply prints_only_ask.
Qed.

Lemma prints_only_confirm_keys isprintable toupper keyboard positional :
  prints_only (confirm_keys (callback := callback) isprintable toupper keyboard positional).
Proof.
  unfold confirm_keys. destruct positional as [|feed [|keys [|x l]]]; try apply prints_only_raise.
  apply prints_only_bind; [apply prints_only_do_confirm_keys|]. intros answer.
  apply prints_only_ret.
Qed.

(** The handlers of the program print at most, when [do_confirm_keys]
    does. *)
Lemma prints_only_handlers (do_confirm_keys : list json -> M callback json) op handler positional :
  (forall p, prints_only (do_confirm_keys p)) ->
  handlers do_confirm_keys !! op = Some handler -> prints_only (handler positional).
Proof.
  intros Hdck. unfold handlers. intros H.
  apply lookup_insert_Some in H as [[_ <-]|[_ H]].
  { unfold apply1. destruct positional as [|a [|b l]]; try apply prints_only_raise.
    apply prints_only_ret. }
  apply lookup_insert_Some in H as [[_ <-]|[_ H]]; [apply Hdck|].
  apply lookup_insert_Some in H as [[_ <-]|[_ H]]; [apply prints_only_ret|].
  rewrite lookup_empty in H. discriminate.
Qed.

End PrintsOnly.

Lemma prints_only_client_callback isprintable cb positional :
  prints_only (call_client_callback isprintable cb positional).
Proof.
  destruct cb. unfold call_client_callback.
  destruct positional as [|status [|result [|x l]]]; try apply prints_only_raise.
  apply prints_only_bind; [apply prints_only_print|]. intros _.
  apply prints_only_bind; [apply prints_only_print|]. intros _. apply prints_only_raise.
Qed.





(** * The dialogue of [do_confirm_keys] *)

Section Dialogue.

Context {callback : Type}.
Variable isprintable : N -> bool.
Variable toupper : N -> list N.

Implicit Types w : world callback.

Lemma with_printed_nil w : with_printed [] w = w.
Proof. destruct w. unfold with_printed. cbn. rewrite app_nil_r. reflexivity. Qed.

Lemma with_printed_app a b w : with_printed b (with_printed a w) = with_printed (a ++ b) w.
Proof. unfold with_printed. cbn. rewrite app_assoc. reflexivity. Qed.

Lemma show_prompt_prints prompt w : show_prompt prompt w = Ok tt (with_printed prompt w).
Proof. reflexivity. Qed.

Lemma print_args_prints vs w :
  print_args isprintable vs w
  = Ok tt (with_printed (join_space (List.map (py_str isprintable) vs) ++ [10]) w).
Proof. reflexivity. Qed.

(** The lines that stand in [Yy], and the lines that stand in [Nn]. *)
Lemma contains_two x y r :
  contains [x; y] r = startswith [x; y] r || startswith [y] r || startswith [] r.
Proof. cbn [contains]. rewrite orb_false_r, orb_assoc. reflexivity. Qed.

Ltac split_eqb :=
  repeat match goal with
         | |- context [N.eqb ?x ?y] =>
             is_var x; let E := fresh in destruct (N.eqb_spec x y) as [E|E]; [subst x|]
         end.

Lemma says_yes_lines r :
  says_yes r = true <-> r = [] \/ r = py "Y" \/ r = py "y" \/ r = py "Yy".
Proof.
  unfold says_yes. change (py "Yy") with [89; 121]. change (py "Y") with [89].
  change (py "y") with [121]. rewrite contains_two. unfold startswith. split.
  - destruct r as [|a [|b [|c r]]]; cbn [after_prefix]; split_eqb; cbn; intros Hsays;
      try discriminate Hsays; auto.
  - intros [->|[->|[->| ->]]]; reflexivity.
Qed.

Lemma says_no_lines r :
  says_no r = true <-> r = py "N" \/ r = py "n" \/ r = py "Nn".
Proof.
  unfold says_no. change (py "Yy") with [89; 121]. change (py "Nn") with [78; 110].
  change (py "N") with [78]. change (py "n") with [110].
  rewrite !contains_two. unfold startswith. split.
  - destruct r as [|a [|b [|c r]]]; cbn [after_prefix]; split_eqb; cbn; intros Hsays;
      try discriminate Hsays; auto.
  - intros [->|[->| ->]]; reflexivity.
Qed.

(** One turn of the loop of [ask]. *)
Lemma ask_step trusted r rest w :
  ask trusted (r :: rest) w
  = if says_yes r then Ok (trusted, rest) (with_printed (prompts 1) w)
    else if says_no r then Ok (JList [], rest) (with_printed (prompts 1) w)
    else ask trusted rest (with_printed (prompts 1) w).
Proof.
  cbn [ask prompts]. rewrite app_nil_r. unfold bind. rewrite show_prompt_prints.
  unfold says_yes, says_no. destruct (contains (py "Yy") r); [reflexivity|]. cbn [negb andb].
  destruct (contains (py "Nn") r); reflexivity.
Qed.

Lemma prompts_succ n : prompts 1 ++ prompts n = prompts (S n).
Proof. cbn [prompts]. rewrite app_nil_r. reflexivity. Qed.

Lemma prompts_snoc n : prompts n ++ prompts 1 = prompts (S n).
Proof.
  induction n as [|n IH]; [reflexivity|].
  change (prompts (S n) ++ prompts 1)
    with ((py "Trust these keys? [YN]" ++ prompts n) ++ prompts 1).
  rewrite <- app_assoc, IH. reflexivity.
Qed.

Lemma ask_rejected trusted rejected keyboard w :
  forallb (fun r => negb (says_yes r) && negb (says_no r)) rejected = true ->
  ask trusted (rejected ++ keyboard) w
  = ask trusted keyboard (with_printed (prompts (length rejected)) w).
Proof.
  revert w. induction rejected as [|r rejected IH]; intros w H.
  - cbn [app length prompts]. rewrite with_printed_nil. reflexivity.
  - cbn [forallb] in H. apply andb_prop in H as [Hr H]. apply andb_prop in Hr as [Hy Hn].
    apply negb_true_iff in Hy, Hn.
    rewrite <- app_comm_cons, ask_step, Hy, Hn, IH by exact H.
    rewrite with_printed_app. cbn [length]. rewrite prompts_succ. reflexivity.
Qed.

Lemma ask_answered trusted rejected answer rest w :
  forallb (fun r => negb (says_yes r) && negb (says_no r)) rejected = true ->
  says_yes answer || says_no answer = true ->
  ask trusted (rejected ++ answer :: rest) w
  = Ok (if says_yes answer then trusted else JList [], rest)
       (with_printed (prompts (S (length rejected))) w).
Proof.
  intros Hrej Hans. rewrite ask_rejected by exact Hrej. rewrite ask_step.
  rewrite with_printed_app, prompts_snoc.
  destruct (says_yes answer); [reflexivity|]. cbn [orb] in Hans. rewrite Hans. reflexivity.
Qed.

Lemma ask_end_of_input trusted rejected w :
  forallb (fun r => negb (says_yes r) && negb (says_no r)) rejected = true ->
  ask trusted rejected w
  = Raise end_of_input (with_printed (prompts (S (length rejected))) w).
Proof.
  intros Hrej. rewrite <- (app_nil_r rejected) at 1. rewrite ask_rejected by exact Hrej.
  cbn [ask]. unfold bind. rewrite show_prompt_prints. cbn [raise]. rewrite with_printed_app.
  rewrite <- prompts_snoc. cbn [prompts]. rewrite app_nil_r. reflexivity.
Qed.

(** What the two loops of [do_confirm_keys] print for keys as the slave
    sends them. *)
Lemma print_hints_prints (hints : list (list N * json)) w :
  for_each (print_hint isprintable toupper)
           (List.map (fun h => JList [JStr (fst h); snd h]) hints) w
  = Ok tt (with_printed (List.concat (List.map (hint_text isprintable toupper) hints)) w).
Proof.
  revert w. induction hints as [|[vote msg] hints IH]; intros w.
  - cbn. rewrite with_printed_nil. reflexivity.
  - cbn [List.map for_each List.concat]. unfold bind at 1.
    assert (Hone : print_hint isprintable toupper (JList [JStr (fst (vote, msg)); snd (vote, msg)]) w
                   = Ok tt (with_printed (hint_text isprintable toupper (vote, msg)) w)).
    { unfold print_hint, bind. cbn [unpack2 iterate ret fst snd str_upper].
      rewrite print_args_prints. unfold hint_text. cbn [List.map join_space py_str fst snd].
      change (py "   ") with [32; 32; 32]. change (py "    ") with [32; 32; 32; 32].
      cbn [app]. rewrite <- !app_assoc. reflexivity. }
    rewrite Hone, IH, with_printed_app. reflexivity.
Qed.

Lemma print_keys_prints (entries : list (list N * list (list N * json))) w :
  for_each (print_key isprintable toupper)
           (List.map (fun e => (fst e, JList (List.map (fun h => JList [JStr (fst h); snd h]) (snd e))))
                     entries) w
  = Ok tt (with_printed (List.concat (List.map (key_text isprintable toupper) entries)) w).
Proof.
  revert w. induction entries as [|[key hints] entries IH]; intros w.
  - cbn. rewrite with_printed_nil. reflexivity.
  - cbn [List.map for_each List.concat]. unfold bind at 1.
    assert (Hone : print_key isprintable toupper
                     (fst (key, hints),
                      JList (List.map (fun h => JList [JStr (fst h); snd h]) (snd (key, hints)))) w
                   = Ok tt (with_printed (key_text isprintable toupper (key, hints)) w)).
    { unfold print_key, bind. cbn [fst snd]. rewrite print_args_prints.
      cbn [star iterate or_raise ret]. rewrite print_hints_prints, with_printed_app.
      unfold key_text. cbn [List.map join_space py_str fst snd].
      rewrite <- !app_assoc. reflexivity. }
    rewrite Hone, IH, with_printed_app. reflexivity.
Qed.

(** [do_confirm_keys] up to its question, on keys as the slave sends
    them. *)
Lemma dialogue_asks feed entries keyboard w :
  do_confirm_keys isprintable toupper feed (keys_value entries) keyboard w
  = ask (JList (List.map (fun e => JStr (fst e)) entries)) keyboard
        (with_printed
           (py "Feed: " ++ py_str isprintable feed
            ++ 10 :: py "The feed is correctly signed with the following keys:"
            ++ 10 :: List.concat (List.map (key_text isprintable toupper) entries)) w).
Proof.
  unfold do_confirm_keys, bind. rewrite !print_args_prints.
  unfold keys_value. cbn [items ret]. rewrite print_keys_prints, !with_printed_app.
  rewrite List.map_map. cbn [fst List.map join_space py_str].
  change (py "Feed:" ++ 32 :: py_str isprintable feed)
    with (py "Feed: " ++ py_str isprintable feed).
  rewrite <- !app_assoc. reflexivity.
Qed.

End Dialogue.

Section Confirmed.

Context {callback : Type}.
Variable isprintable : N -> bool.
Variable toupper : N -> list N.

Implicit Types w : world callback.

Lemma dialogue_answered feed entries rejected answer rest w :
  forallb no_answer rejected = true -> says_yes answer || says_no answer = true ->
  do_confirm_keys isprintable toupper feed (keys_value entries) (rejected ++ answer :: rest) w
  = Ok (trusted_keys entries answer, rest)
       (with_printed (keys_text isprintable toupper feed entries
                      ++ prompts (S (length rejected))) w).
Proof.
  intros Hrej Hans. rewrite dialogue_asks, ask_answered by assumption.
  rewrite with_printed_app. unfold keys_text, trusted_keys.
  rewrite <- !app_assoc. cbn [app]. rewrite <- !app_assoc. reflexivity.
Qed.

Lemma dialogue_end feed entries rejected w :
  forallb no_answer rejected = true ->
  do_confirm_keys isprintable toupper feed (keys_value entries) rejected w
  = Raise end_of_input
          (with_printed (keys_text isprintable toupper feed entries
                         ++ prompts (S (length rejected))) w).
Proof.
  intros Hrej. rewrite dialogue_asks, ask_end_of_input by assumption.
  rewrite with_printed_app. unfold keys_text.
  rewrite <- !app_assoc. cbn [app]. rewrite <- !app_assoc. reflexivity.
Qed.

Lemma dialogue_no_mapping feed keys keyboard w :
  is_dict keys = false ->
  do_confirm_keys isprintable toupper feed keys keyboard w
  = Raise (no_attribute keys "items")
          (with_printed (py "Feed: " ++ py_str isprintable feed
                         ++ 10 :: py "The feed is correctly signed with the following keys:"
                         ++ [10]) w).
Proof.
  intros Hk. unfold do_confirm_keys, bind. rewrite !print_args_prints.
  assert (Hitems : forall w', items keys w' = Raise (no_attribute keys "items") w').
  { intros w'. destruct keys; try reflexivity. discriminate. }
  rewrite Hitems, with_printed_app. cbn [List.map join_space py_str].
  change (py "Feed:" ++ 32 :: py_str isprintable feed)
    with (py "Feed: " ++ py_str isprintable feed).
  rewrite <- !app_assoc. reflexivity.
Qed.

End Confirmed.



(** X21.  What the loop at the end of [do_confirm_keys] takes for an
    answer.  [r in 'Yy'] asks whether the line stands somewhere in the
    text [Yy]: the empty line does, so that a user who only presses the
    return key trusts the keys, as one who types [Y], [y] or [Yy] does.
    [N], [n] and [Nn] trust none; on any other line the loop shows the
    prompt again and takes the next line. *)
Theorem confirm_keys_accepted_answers {callback : Type} (trusted : json) (r : list N)
    (rest : list (list N)) (w : world callback) :
  ask trusted (r :: rest) w
  = if bool_decide (r ∈ [[]; py "Y"; py "y"; py "Yy"])
    then Ok (trusted, rest) (with_printed (py "Trust these keys? [YN]") w)
    else if bool_decide (r ∈ [py "N"; py "n"; py "Nn"])
         then Ok (JList [], rest) (with_printed (py "Trust these keys? [YN]") w)
         else ask trusted rest (with_printed (py "Trust these keys? [YN]") w).
Proof.
  rewrite ask_step. cbn [prompts]. rewrite app_nil_r.
  destruct (says_yes r) eqn:Hy.
  - rewrite bool_decide_eq_true_2; [reflexivity|].
    apply says_yes_lines in Hy. rewrite !elem_of_cons. tauto.
  - rewrite bool_decide_eq_false_2.
    2:{ intros Hin. rewrite !elem_of_cons, elem_of_nil in Hin.
        assert (says_yes r = true) by (apply says_yes_lines; tauto). congruence. }
    destruct (says_no r) eqn:Hn.
    + rewrite bool_decide_eq_true_2; [reflexivity|].
      apply says_no_lines in Hn. rewrite !elem_of_cons. tauto.
    + rewrite bool_decide_eq_false_2; [reflexivity|].
      intros Hin. rewrite !elem_of_cons, elem_of_nil in Hin.
      assert (says_no r = true) by (apply says_no_lines; tauto). congruence.
Qed.







(** * A session of the program *)



(** * What the program never does *)

Section Returns.

Context {callback : Type}.
Variable isprintable : N -> bool.
Variable toupper : N -> list N.

Implicit Types w : world callback.

Lemma ask_returns trusted keyboard w answer rest w' :
  ask trusted keyboard w = Ok (answer, rest) w' ->
  exists rejected r,
    keyboard = rejected ++ r :: rest
    /\ forallb no_answer rejected = true
    /\ says_yes r || says_no r = true
    /\ answer = (if says_yes r then trusted else JList []).
Proof.
  revert w. induction keyboard as [|r keyboard IH]; intros w.
  - cbn [ask]. unfold bind. rewrite show_prompt_prints. discriminate.
  - rewrite ask_step. destruct (says_yes r) eqn:Hy; [|destruct (says_no r) eqn:Hn].
    + intros [= <- <- _]. exists [], r. rewrite Hy. repeat split; reflexivity.
    + intros [= <- <- _]. exists [], r. rewrite Hy, Hn. repeat split; reflexivity.
    + intros H. destruct (IH _ H) as (rejected & r' & -> & Hrej & Hans & ->).
      exists (r :: rejected), r'. split; [reflexivity|]. split; [|split; [exact Hans|reflexivity]].
      cbn [forallb]. unfold no_answer at 1. rewrite Hy, Hn. exact Hrej.
Qed.

Lemma dialogue_returns feed keys keyboard w answer rest w' :
  do_confirm_keys isprintable toupper feed keys keyboard w = Ok (answer, rest) w' ->
  exists d rejected r,
    keys = JDict d
    /\ keyboard = rejected ++ r :: rest
    /\ forallb no_answer rejected = true
    /\ says_yes r || says_no r = true
    /\ answer = (if says_yes r then JList (List.map (fun kv => JStr (fst kv)) d) else JList []).
Proof.
  unfold do_confirm_keys, bind. rewrite !print_args_prints.
  destruct keys as [| | | | |d]; try discriminate. cbn [items ret].
  destruct (for_each _ d _) as [u w1|e w1|]; try discriminate.
  intros H. destruct (ask_returns _ _ _ _ _ _ H) as (rejected & r & Hk & Hrej & Hans & Ha).
  exists d, rejected, r. repeat split; assumption.
Qed.

End Returns.

(** X26.  [do_confirm_keys] trusts all the keys or none, and only on
    the word of the user.  Whenever it returns, the keys are a mapping,
    the lines it has taken are lines that are no answer and then one
    that is, and the result is the list of the names of all the keys if
    that line is a yes and the empty list if it is a no. *)
Theorem confirm_keys_trusts_all_or_none {callback : Type} (isprintable : N -> bool)
    (toupper : N -> list N) (feed keys answer : json) (keyboard rest : list (list N))
    (w w' : world callback) :
  do_confirm_keys isprintable toupper feed keys keyboard w = Ok (answer, rest) w' ->
  exists d rejected r,
    keys = JDict d
    /\ keyboard = rejected ++ r :: rest
    /\ forallb no_answer rejected = true
    /\ says_yes r || says_no r = true
    /\ answer = (if says_yes r then JList (List.map (fun kv => JStr (fst kv)) d) else JList []).
Proof. apply dialogue_returns. Qed.

(** X26 on keys whose hints are texts of two characters, and a user
    who types [?] and then [n]. *)
Lemma confirm_keys_trusts_all_or_none_no :
  exists d rejected r,
    JDict [(py "AB", JList [JStr (py "ok")])] = JDict d
    /\ [py "?"; py "n"; py "y"] = rejected ++ r :: [py "y"]
    /\ forallb no_answer rejected = true
    /\ says_yes r || says_no r = true
    /\ JList [] = (if says_yes r then JList (List.map (fun kv => JStr (fst kv)) d) else JList []).
Proof.
  apply (confirm_keys_trusts_all_or_none all_printable ascii_upper (JStr (py "f"))
           (JDict [(py "AB", JList [JStr (py "ok")])]) (JList []) [py "?"; py "n"; py "y"]
           [py "y"] (first_world [])
           (World [] []
              (py "Feed: f" ++ 10 :: py "The feed is correctly signed with the following keys:"
               ++ 10 :: py "- AB" ++ 10 :: py "    O k" ++ 10
               :: py "Trust these keys? [YN]" ++ py "Trust these keys? [YN]") 1 ∅)).
  vm_compute. reflexivity.
Defined.

Section Program.

Variable isprintable : N -> bool.
Variable do_confirm_keys : list json -> M client_callback json.
Hypothesis confirm_keys_prints : forall positional, prints_only (do_confirm_keys positional).

Lemma program_handlers_print op handler positional :
  handlers do_confirm_keys !! op = Some handler -> prints_only (handler positional).
Proof. apply prints_only_handlers, confirm_keys_prints. Qed.

(** What the program has invoked: nothing, or [select] with ticket 1. *)
Lemma client_tickets iface n inp :
  match client isprintable do_confirm_keys iface n (first_world inp) with
  | Ok _ w' | Raise _ w' =>
      (next_ticket w' = 1%Z \/ next_ticket w' = 2%Z)
      /\ forall k, is_Some (callbacks w' !! k) -> next_ticket w' = 2%Z /\ k = py "1"
  | Unmodelled => True
  end.
Proof.
  unfold client, bind at 1.
  pose proof (turn_pending isprintable (call_client_callback isprintable)
                (handlers do_confirm_keys) program_handlers_print
                (prints_only_client_callback isprintable) (first_world inp)) as H1.
  destruct (handle_next_chunk _ _ _ (first_world inp)) as [u w1|e w1|]; [| |exact I].
  - destruct H1 as [Hn1 Hc1]. unfold bind at 1. rewrite invoke_returns.
    set (w2 := with_written _ _).
    pose proof (pump_pending isprintable (call_client_callback isprintable)
                  (handlers do_confirm_keys) program_handlers_print
                  (prints_only_client_callback isprintable) n w2) as H2.
    assert (Hn2 : next_ticket w2 = 2%Z) by (cbn [w2 with_written registered next_ticket];
                                            rewrite Hn1; reflexivity).
    assert (Hc2 : forall k, is_Some (callbacks w2 !! k) -> k = py "1").
    { intros k. cbn [w2 with_written registered callbacks]. rewrite Hn1.
      change (str_int (next_ticket (first_world inp))) with (py "1").
      rewrite lookup_insert_is_Some. intros [<-|[_ Hk]]; [reflexivity|].
      apply Hc1 in Hk. cbn in Hk. rewrite lookup_empty in Hk. destruct Hk; discriminate. }
    destruct (pump _ _ _ n w2) as [u' w'|e w'|]; [| |exact I];
      destruct H2 as [Hn Hc]; (split; [right; congruence|]); intros k Hk;
      (split; [congruence|apply Hc2, Hc, Hk]).
  - destruct H1 as [Hn1 Hc1]. split; [left; exact Hn1|]. intros k Hk.
    apply Hc1 in Hk. cbn in Hk. rewrite lookup_empty in Hk. destruct Hk; discriminate.
Qed.

End Program.


